(** * Lucerna: the streak updater, the cycle predictor and the rule-based
      chat reply selector

    A shallow embedding of the three pieces of branching logic of the
    repository:

    - [updateStreak]  (server function; its copy [api_updateStreak] in the
      localStorage shim),
    - the period handler [app.get('/make-server-236712f8/period/:userId')],
      called [predictNextCycle] in the specification,
    - [getResponse] of [src/components/ChatBot.tsx].

    JavaScript numbers that hold integers are modelled by [Z], the quotient
    of two such numbers by [Q], so that [Math.floor] and [Math.round] are
    the functions of the language and not an integer division chosen in
    advance; a number that may be [NaN] is an [option Z], [None] being
    [NaN]. *)

From Stdlib Require Import ZArith QArith Qround Lia Bool List.
From Stdlib Require Import Sorting.Sorted Sorting.Permutation.
From Stdlib Require Import DecimalString DecimalZ DecimalPos.
From stdpp Require Import base option list strings gmap sorting.

Open Scope Z_scope.

Ltac Zify.zify_post_hook ::= Z.to_euclidean_division_equations.

(* ===================================================================== *)
(** * Numbers *)
(* ===================================================================== *)

Module JSNumber.

(** [a / b] on two integer-valued numbers, for a divisor that is not 0. *)
Definition div (a b : Z) : Q := (inject_Z a / inject_Z b)%Q.

(** [Math.floor]. *)
Definition Math_floor (x : Q) : Z := Qfloor x.

(** [Math.round]: the nearest integer, a tie going up. *)
Definition Math_round (x : Q) : Z := Qfloor (x + (1 # 2))%Q.

(** [Math.max] on integers. *)
Definition Math_max (a b : Z) : Z := Z.max a b.

(** [a + b] and [a - b] on numbers that may be [NaN]. *)
Definition add (a b : option Z) : option Z :=
  match a, b with
  | Some x, Some y => Some (x + y)
  | _, _ => None
  end.

Definition sub (a b : option Z) : option Z :=
  match a, b with
  | Some x, Some y => Some (x - y)
  | _, _ => None
  end.

End JSNumber.

(* ===================================================================== *)
(** * Dates *)
(* ===================================================================== *)

(** A [Date] object is its time value: milliseconds since 1970-01-01T00:00Z,
    or [NaN] for an invalid date.  Every date string the program writes is a
    calendar date ['YYYY-MM-DD'] (the first part of [toISOString()], or the
    value of a date input), which [new Date(s)] reads as the midnight that
    starts that day in UTC.

    The check-ins work on the dates the program has written itself: their
    time values are plain numbers of type [Time].  The period handler works
    on start dates that come from the request as they are: there a [Date]
    is an [option Time], [None] for the invalid date, a time value is cut
    off at the ends of the range of [Date] by [TimeClip], and the day of
    the month is read and set in the local time of the zone the handler
    runs in. *)

Module JSDate.

Abbreviation Time := Z (only parsing).

Definition msPerDay : Z := 1000 * 60 * 60 * 24.

Definition Day (t : Time) : Z := t / msPerDay.
Definition TimeWithinDay (t : Time) : Z := t mod msPerDay.

(** Day number to (year, month 1..12, day of month), proleptic Gregorian
    calendar. *)
Definition civil_from_days (n : Z) : Z * Z * Z :=
  let z := n + 719468 in
  let era := z / 146097 in
  let doe := z mod 146097 in
  let yoe := (doe - doe / 1460 + doe / 36524 - doe / 146096) / 365 in
  let doy := doe - (365 * yoe + yoe / 4 - yoe / 100) in
  let mp := (5 * doy + 2) / 153 in
  let d := doy - (153 * mp + 2) / 5 + 1 in
  let m := if mp <? 10 then mp + 3 else mp - 9 in
  let y := yoe + era * 400 + (if m <=? 2 then 1 else 0) in
  (y, m, d).

(** The day number of a (year, month 1..12, day of month). *)
Definition days_from_civil (y m d : Z) : Z :=
  let y' := if m <=? 2 then y - 1 else y in
  let era := y' / 400 in
  let yoe := y' mod 400 in
  let doy := (153 * (if 2 <? m then m - 3 else m + 9) + 2) / 5 + d - 1 in
  let doe := yoe * 365 + yoe / 4 - yoe / 100 + doy in
  era * 146097 + doe - 719468.

Definition YearFromTime (t : Time) : Z := fst (fst (civil_from_days (Day t))).
(** Months count from 0 in the language. *)
Definition MonthFromTime (t : Time) : Z := snd (fst (civil_from_days (Day t))) - 1.
Definition DateFromTime (t : Time) : Z := snd (civil_from_days (Day t)).

(** [MakeDay(year, month, date)]: the month may overflow into the years,
    the date into the months. *)
Definition MakeDay (year month date : Z) : Z :=
  let ym := year + month / 12 in
  let mn := month mod 12 in
  days_from_civil ym (mn + 1) 1 + date - 1.

Definition MakeDate (day time : Z) : Time := day * msPerDay + time.

(** [new Date('YYYY-MM-DD').getTime()]. *)
Definition Date_UTC (y m d : Z) : Time := MakeDate (days_from_civil y m d) 0.

(** The range of the time values of a [Date]: 100,000,000 days on either
    side of 1970-01-01. *)
Definition maxTime : Z := 8640000000000000.

(** [TimeClip]: a number outside the range gives [NaN]. *)
Definition TimeClip (t : Z) : option Time :=
  if Z.abs t <=? maxTime then Some t else None.

(** [new Date(v)] for a date string, given as the number it denotes
    ([None] when it denotes none), and for the time value of another
    [Date]. *)
Definition Date_new (v : option Z) : option Time :=
  match v with
  | Some t => TimeClip t
  | None => None
  end.

Definition getTime (d : option Time) : option Z := d.

Section LocalTimeZone.

(** [LocalTZA(t, isUTC)]: the offset of local time in milliseconds, at the
    time [t] given in UTC ([isUTC]) or in local time.  It belongs to the
    zone the program runs in. *)
Variable LocalTZA : Z -> bool -> Z.

Definition LocalTime (t : Time) : Z := t + LocalTZA t true.
Definition UTC (t : Z) : Z := t - LocalTZA t false.

(** [d.getDate()]: the day of the month in local time, [NaN] for an
    invalid date. *)
Definition getDate (d : option Time) : option Z :=
  match d with
  | Some t => Some (DateFromTime (LocalTime t))
  | None => None
  end.

(** [d.setDate(date)], returning the new time value of [d]. *)
Definition setDate (d : option Time) (date : option Z) : option Time :=
  match d, date with
  | Some t, Some dt =>
      let t := LocalTime t in
      let newDate := MakeDate (MakeDay (YearFromTime t) (MonthFromTime t) dt)
                              (TimeWithinDay t) in
      TimeClip (UTC newDate)
  | _, _ => None
  end.

End LocalTimeZone.

(** The zone of the server: UTC. *)
Definition utc : Z -> bool -> Z := fun _ _ => 0.

(** Decimal digits, [w] of them. *)
Fixpoint digits (w : nat) (n : Z) : string :=
  match w with
  | O => EmptyString
  | S w' =>
      (digits w' (n / 10) +:+
       String (Ascii.ascii_of_N (48 + Z.to_N (n mod 10))) EmptyString)%string
  end.

(** A (year, month, day) as [toISOString()] prints it: four digits for
    the years 0 to 9999, a sign and six digits otherwise. *)
Definition formatDate (ymd : Z * Z * Z) : string :=
  let '(y, m, d) := ymd in
  let year :=
    if ((0 <=? y) && (y <=? 9999))%Z then digits 4 y
    else ((if (y <? 0)%Z then "-" else "+") +:+ digits 6 (Z.abs y))%string in
  (year +:+ "-" +:+ digits 2 m +:+ "-" +:+ digits 2 d)%string.

(** [d.toISOString().split('T')[0]] for a valid date. *)
Definition toISODate (t : Time) : string := formatDate (civil_from_days (Day t)).

(** [d.toISOString().split('T')[0]]: [toISOString] throws a [RangeError]
    for an invalid date, which is [None] here. *)
Definition Date_toISODate (d : option Time) : option string :=
  match d with
  | Some t => Some (toISODate t)
  | None => None
  end.

End JSDate.

Import JSDate.

(* ===================================================================== *)
(** * The daily streak *)
(* ===================================================================== *)

(** The object kept under the key [user:<userId>:streak]. *)
Record Streak : Type := {
  current : Z;
  longest : Z;
  lastDate : option Time  (* [null] is [None] *)
}.

(** [{ current: 0, longest: 0, lastDate: null }], used when the store has
    nothing for the user yet. *)
Definition noStreak : Streak := {| current := 0; longest := 0; lastDate := None |}.

Definition getUserKey (userId type : string) : string :=
  "user:" +:+ userId +:+ ":" +:+ type.

(** What [updateStreak] does to the object it has read, before it writes it
    back: the function [updateStreak(state, eventDate)] of the
    specification. *)
Definition updateStreak_state (streak : Streak) (date : Time) : Streak :=
  let today := date in
  let current' :=
    match lastDate streak with
    | Some lastDate =>
        let diffTime := today - lastDate in
        let diffDays := JSNumber.Math_floor (JSNumber.div diffTime (1000 * 60 * 60 * 24)) in
        if diffDays =? 1 then current streak + 1      (* consecutive day *)
        else if 1 <? diffDays then 1                   (* streak broken *)
        else current streak                            (* same day, or earlier *)
    | None => 1                                        (* first check-in *)
    end in
  {| current := current';
     longest := JSNumber.Math_max (longest streak) current';
     lastDate := Some date |}.

(** [updateStreak(userId, date)] of the server, with the part of the
    key-value store that holds streaks passed in and out. *)
Definition updateStreak (kv : gmap string Streak) (userId : string) (date : Time)
  : gmap string Streak * Streak :=
  let streakKey := getUserKey userId "streak" in
  let streak := default noStreak (kv !! streakKey) in
  let streak := updateStreak_state streak date in
  (<[streakKey := streak]> kv, streak).

(** [api.updateStreak] of the localStorage shim, written out from its own
    source: [getStorage] and [setStorage] prefix the key. *)
Definition api_updateStreak (localStorage : gmap string Streak) (userId : string)
    (date : Time) : gmap string Streak * Streak :=
  let streakKey := getUserKey userId "streak" in
  let streak := default noStreak (localStorage !! ("lucerna_db_" +:+ streakKey)) in
  let today := date in
  let current' :=
    match lastDate streak with
    | Some lastDate =>
        let diffTime := today - lastDate in
        let diffDays := JSNumber.Math_floor (JSNumber.div diffTime (1000 * 60 * 60 * 24)) in
        if diffDays =? 1 then current streak + 1
        else if 1 <? diffDays then 1
        else current streak
    | None => 1
    end in
  let streak :=
    {| current := current';
       longest := JSNumber.Math_max (longest streak) current';
       lastDate := Some date |} in
  (<["lucerna_db_" +:+ streakKey := streak]> localStorage, streak).

(** The date a check-in passes to [updateStreak]:
    [new Date().toISOString().split('T')[0]], read back by [new Date(date)]. *)
Definition checkinDate (now : Time) : Time :=
  let '(y, m, d) := civil_from_days (Day now) in Date_UTC y m d.

(** The whole-day difference the update computes. *)
Definition diffDays (today lastDate : Time) : Z :=
  JSNumber.Math_floor (JSNumber.div (today - lastDate) (1000 * 60 * 60 * 24)).

(** The invariant of a streak object. *)
Definition StreakInv (s : Streak) : Prop := 0 <= current s /\ current s <= longest s.

(* ===================================================================== *)
(** * The cycle predictor *)
(* ===================================================================== *)

(** A period as the store keeps it.  [startDate] is the number the stored
    date string denotes, [None] for a string that denotes no date;
    [timestamp] is left out. *)
Record Period : Type := {
  id : string;
  userId : string;
  startDate : option Z;
  endDate : option Time;
  cycleLength : Z;
  symptoms : list string
}.

Record Prediction : Type := {
  nextPeriodDate : string;
  averageCycleLength : Z;
  daysUntilNext : Z
}.

(** What the handler answers: [c.json({ periods, prediction })], or the
    answer of its [catch]. *)
Inductive PeriodResponse : Type :=
  | Ok200 (periods : list Period) (prediction : option Prediction)
  | Error500 (error : string).

(** [Array.prototype.sort] with a comparator; a comparator that gives
    [NaN] is taken to give [+0].  The order of the result is fixed by the
    language for a consistent comparator (the sort is stable); it is
    computed here by insertion.  For a comparator that is not consistent
    the language leaves the order to the implementation. *)
Fixpoint sort_insert {A : Type} (cmp : A -> A -> option Z) (x : A) (l : list A)
  : list A :=
  match l with
  | [] => [x]
  | y :: l' =>
      if default 0 (cmp x y) <=? 0 then x :: y :: l' else y :: sort_insert cmp x l'
  end.

Definition Array_sort {A : Type} (cmp : A -> A -> option Z) (l : list A) : list A :=
  foldr (sort_insert cmp) [] l.

(** The comparator of the handler: later start dates first. *)
Definition byStartDateDesc (a b : Period) : option Z :=
  JSNumber.sub (getTime (Date_new (startDate b))) (getTime (Date_new (startDate a))).

(** One turn of the loop over [i], on the pair
    [(totalCycleLength, cycleCount)].  The loop bound keeps [i + 1] inside
    the array; outside it the turn does nothing here. *)
Definition cycleStep (periods : list Period) (acc : Z * Z) (i : nat) : Z * Z :=
  match periods !! i, periods !! (i + 1)%nat with
  | Some current, Some previous =>
      let current := Date_new (startDate current) in
      let previous := Date_new (startDate previous) in
      match JSNumber.sub (getTime current) (getTime previous) with
      | Some diffTime =>
          let diff :=
            JSNumber.Math_floor (JSNumber.div diffTime (1000 * 60 * 60 * 24)) in
          if (0 <? diff) && (diff <? 60)               (* sanity check *)
          then (fst acc + diff, snd acc + 1)
          else acc
      | None => acc                  (* [diff] is [NaN]: no comparison holds *)
      end
  | _, _ => acc
  end.

(** [for (let i = 0; i < periods.length - 1; i++)]. *)
Definition cycleTotals (periods : list Period) : Z * Z :=
  foldl (cycleStep periods) (0, 0) (seq 0 (length periods - 1)).

(** The handler of [GET /period/:userId] on the periods read from the
    store, at the time [now] and in the zone [LocalTZA]: [predictNextCycle]
    of the specification.  What throws inside the [try] ([toISOString] of
    an invalid date) ends in the answer of the [catch]. *)
Definition predictNextCycle (LocalTZA : Z -> bool -> Z) (now : Time)
    (periods : list Period) : PeriodResponse :=
  if (length periods =? 0)%nat then Ok200 [] None
  else
    let periods := Array_sort byStartDateDesc periods in
    let '(totalCycleLength, cycleCount) := cycleTotals periods in
    let avgCycleLength :=
      if 0 <? cycleCount
      then JSNumber.Math_round (JSNumber.div totalCycleLength cycleCount)
      else 28 in
    match periods !! 0%nat with
    | Some lastPeriod =>
        let lastDate := Date_new (startDate lastPeriod) in
        let nextDate := Date_new (getTime lastDate) in
        let nextDate :=
          setDate LocalTZA nextDate
            (JSNumber.add (getDate LocalTZA nextDate) (Some avgCycleLength)) in
        match Date_toISODate nextDate, getTime nextDate with
        | Some isoDate, Some nextTime =>
            Ok200 periods
              (Some {| nextPeriodDate := isoDate;
                       averageCycleLength := avgCycleLength;
                       daysUntilNext :=
                         JSNumber.Math_floor
                           (JSNumber.div (nextTime - now) (1000 * 60 * 60 * 24)) |})
        | _, _ => Error500 "Failed to get period data"      (* [RangeError] *)
        end
    | None => Error500 "Failed to get period data"            (* [TypeError] *)
    end.

(** ** The rule as the specification words it *)

(** Differences of adjacent pairs (newer, older), in days. *)
Fixpoint adjacentDiffs (starts : list Time) : list Z :=
  match starts with
  | newer :: (older :: _) as rest => (newer - older) / msPerDay :: adjacentDiffs rest
  | _ => []
  end.

(** The differences that enter the average. *)
Definition includedDiffs (starts : list Time) : list Z :=
  filter (fun d => 0 < d < 60) (adjacentDiffs starts).

Definition sumZ (l : list Z) : Z := foldr Z.add 0 l.

(** The mean of a list that is not empty, rounded to the nearest integer,
    a tie going up. *)
Definition roundedMean (l : list Z) : Z :=
  (2 * sumZ l + Z.of_nat (length l)) / (2 * Z.of_nat (length l)).

Definition spec_average (sortedStarts : list Time) : Z :=
  match includedDiffs sortedStarts with
  | [] => 28
  | ds => roundedMean ds
  end.

(** A period that starts on the given day; the other fields play no part. *)
Definition periodOn (y m d : Z) : Period :=
  {| id := ""; userId := "u"; startDate := Some (Date_UTC y m d); endDate := None;
     cycleLength := 28; symptoms := [] |}.

(** A period whose start date is a string that denotes no date. *)
Definition periodWithoutDate : Period :=
  {| id := "NaN"; userId := "u"; startDate := None; endDate := None;
     cycleLength := 28; symptoms := [] |}.

(** The time value of [new Date(p.startDate)], [NaN] for an invalid date,
    and the periods where it is a number. *)
Definition startTime (p : Period) : option Z := getTime (Date_new (startDate p)).

Definition validStart (p : Period) : Prop := is_Some (startTime p).

(** The time value of a start date that is valid. *)
Definition timeOf (p : Period) : Time := default 0 (startTime p).

(** A zone whose offset never changes, as UTC. *)
Definition fixedOffset (LocalTZA : Z -> bool -> Z) : Prop :=
  exists offset : Z, forall (t : Z) (isUTC : bool), LocalTZA t isUTC = offset.

(** The prediction in an answer, [None] for [null] or for no answer. *)
Definition prediction (r : PeriodResponse) : option Prediction :=
  match r with
  | Ok200 _ p => p
  | Error500 _ => None
  end.

(** Later start dates first. *)
Definition laterFirst (a b : Period) : Prop := timeOf b <= timeOf a.

(** The start times of the sorted array, and the time the handler
    predicts from them: the latest start and as many days as the average
    says. *)
Definition sortedStarts (periods : list Period) : list Time :=
  map timeOf (Array_sort byStartDateDesc periods).

Definition predictedTime (periods : list Period) : Time :=
  match sortedStarts periods with
  | latest :: _ => latest + spec_average (sortedStarts periods) * msPerDay
  | [] => 0
  end.

(** Three periods 28 days apart, and three with a gap of 90 days. *)
Definition threePeriods : list Period :=
  [periodOn 2024 1 1; periodOn 2024 1 29; periodOn 2024 2 26].

Definition periodsWithGap : list Period :=
  [periodOn 2024 1 1; periodOn 2024 1 29; periodOn 2024 4 28].

(** The last day of the range of [Date] is +275760-09-13: two periods 28
    days apart that end there, and one period on that day. *)
Definition periodsAtTheEnd : list Period :=
  [periodOn 275760 8 16; periodOn 275760 9 13].

Definition periodOnTheLastDay : list Period := [periodOn 275760 9 13].

(** A zone that goes from five to four hours behind UTC on 2024-03-10 at
    07:00 UTC, which is 02:00 local time. *)
Definition zoneWithSummerTime : Z -> bool -> Z :=
  fun t isUTC =>
    let change := Date_UTC 2024 3 10 + 7 * 3600000 in
    let change := if isUTC then change else change - 5 * 3600000 in
    if t <? change then - (5 * 3600000) else - (4 * 3600000).

(* ===================================================================== *)
(** * The chat reply selector *)
(* ===================================================================== *)

(** ** Strings *)

(** A string of the program is kept as the sequence of the bytes of its
    UTF-8 encoding.  The keywords are plain ASCII, and a run of ASCII
    characters occurs in a string exactly when its bytes occur in the
    encoding of the string. *)

(** [s.includes(keyword)]: [keyword] occurs in [s] as a run of characters. *)
Fixpoint includes (s keyword : string) : bool :=
  String.prefix keyword s
  || match s with
     | EmptyString => false
     | String _ s' => includes s' keyword
     end.

(** [words.some(w => s.includes(w))]. *)
Definition includesSome (s : string) (words : list string) : bool :=
  existsb (fun w => includes s w) words.

(** [toLowerCase] on the letters A to Z; every other character is kept.
    It stands for the function of the language on messages written with
    these letters, and is the instance used for the messages quoted in the
    specification.  [getResponse] itself takes the function of the language
    as a parameter. *)
Definition ascii_lower (c : Ascii.ascii) : Ascii.ascii :=
  let n := Ascii.N_of_ascii c in
  if ((65 <=? n) && (n <=? 90))%N then Ascii.ascii_of_N (n + 32) else c.

Fixpoint ascii_toLowerCase (s : string) : string :=
  match s with
  | EmptyString => EmptyString
  | String c s' => String (ascii_lower c) (ascii_toLowerCase s')
  end.

(** ** Random choice *)

(** A value of [Math.random()]: the fraction [rnum / (rnum + rgap)], which
    lies in the interval from 0 (included) to 1 (excluded). *)
Record Rand : Type := { rnum : N; rgap : positive }.

Definition Rand_value (r : Rand) : Q :=
  Z.of_N (rnum r) # (match rnum r with N0 => rgap r | Npos p => p + rgap r end).

(** [Math.floor(Math.random() * length)]. *)
Definition randomIndex (r : Rand) (len : nat) : nat :=
  Z.to_nat (JSNumber.Math_floor (Rand_value r * inject_Z (Z.of_nat len))%Q).

(** ** The state of the component and its effects *)

Inductive QuestionType : Type := breakfast | lunch | dinner | mood | none.

(** A [QuestionType] is the string itself in the source. *)
Definition QuestionType_string (q : QuestionType) : string :=
  match q with
  | breakfast => "breakfast"
  | lunch => "lunch"
  | dinner => "dinner"
  | mood => "mood"
  | none => "none"
  end.

Definition QuestionType_eqb (a b : QuestionType) : bool :=
  String.eqb (QuestionType_string a) (QuestionType_string b).

(** [lastQuestion] is the state of the component; [emergencyCalls] counts
    the calls of the [onEmergency] callback. *)
Record ChatState : Type := {
  lastQuestion : QuestionType;
  emergencyCalls : nat
}.

(** How a call ends: with a value, or with an exception; the state of the
    component goes with both. *)
Inductive Completion (S A : Type) : Type :=
  | Normal (value : A) (st : S)
  | Throw (error : string) (st : S).
Arguments Normal {S A} value st.
Arguments Throw {S A} error st.

(** A piece of code that reads and sets the state of a component. *)
Definition Eff (S A : Type) : Type := S -> Completion S A.

Definition ret {S A : Type} (a : A) : Eff S A := fun st => Normal a st.

Definition bind {S A B : Type} (m : Eff S A) (k : A -> Eff S B) : Eff S B :=
  fun st =>
    match m st with
    | Normal a st' => k a st'
    | Throw e st' => Throw e st'
    end.

Notation "x <- m ;; k" := (bind m (fun x => k))
  (at level 100, m at next level, right associativity).
Notation "m ;;; k" := (bind m (fun _ => k))
  (at level 100, right associativity).

Definition throw {S A : Type} (error : string) : Eff S A := fun st => Throw error st.

(** [try { m } catch { handler }]. *)
Definition tryCatch {S A : Type} (m handler : Eff S A) : Eff S A :=
  fun st =>
    match m st with
    | Normal a st' => Normal a st'
    | Throw _ st' => handler st'
    end.

(** [try { m } finally { cleanup }]. *)
Definition tryFinally {S A : Type} (m : Eff S A) (cleanup : Eff S unit) : Eff S A :=
  fun st =>
    match m st with
    | Normal a st' =>
        match cleanup st' with
        | Normal _ st'' => Normal a st''
        | Throw e st'' => Throw e st''
        end
    | Throw e st' =>
        match cleanup st' with
        | Normal _ st'' => Throw e st''
        | Throw e' st'' => Throw e' st''
        end
    end.

Abbreviation Chat := (Eff ChatState).

Definition onEmergency : Chat unit :=
  fun st => Normal tt {| lastQuestion := lastQuestion st;
                         emergencyCalls := S (emergencyCalls st) |}.

Definition setLastQuestion (q : QuestionType) : Chat unit :=
  fun st => Normal tt {| lastQuestion := q; emergencyCalls := emergencyCalls st |}.

Definition readLastQuestion : Chat QuestionType :=
  fun st => Normal (lastQuestion st) st.

(** [arr[Math.floor(Math.random() * arr.length)]] for the value [arr] of a
    property of [responses]: reading [length] of [undefined] throws; an
    index outside the array gives [undefined], which is [None]. *)
Definition pick {S : Type} (rnd : Rand) (arr : option (list string))
  : Eff S (option string) :=
  match arr with
  | Some l => ret (l !! randomIndex rnd (length l))
  | None => throw "TypeError"
  end.

(** ** The table of replies *)

Definition breakfast_replies : list string := [
  "Great! A good breakfast fuels your day. What did you have? 😊";
  "Awesome! Starting the day with food is so important for your energy and mood!"
].

Definition nobreakfast_replies : list string := [
  "Oh honey, why did you skip breakfast? It's the most important meal of the day! 🍳 Please try to eat something small.";
  "Is there a reason you didn't eat, my dear? Your body needs energy! Try to grab a quick snack if you can. 🍌"
].

Definition lunch_replies : list string := [
  "Wonderful! Taking time to eat is an act of self-care. Hope it was tasty! 🍱";
  "That's great! Proper nutrition helps with mood regulation. What did you enjoy?"
].

Definition nolunch_replies : list string := [
  "Why didn't you have lunch, sweetie? Skipping meals can affect your mood. 🥗 Please eat something to fuel your body!";
  "Oh no! Is everything okay? Try to take a break and eat something. You deserve to be nourished! 🥪"
].

Definition dinner_replies : list string := [
  "Perfect! Ending the day with a good meal. Hope you're relaxing now! 🌙";
  "That's wonderful! A good dinner can help you unwind from the day."
].

Definition nodinner_replies : list string := [
  "Why haven't you had dinner yet? It's important to eat before bed. 🌙 Please find something to eat!";
  "Is there a reason you skipped dinner? A light meal can help you sleep better. Please take care of yourself! 🥣"
].

Definition funfact_replies : list string := [
  "Fun fact: Smiling, even when you don't feel like it, can actually improve your mood! 😊";
  "Did you know? Laughing for 10-15 minutes can burn approximately 40 calories! 😄";
  "Fun fact: Your brain uses 20% of your body's energy, even though it's only 2% of your body weight! 🧠";
  "Did you know? Chocolate releases endorphins - the same feel-good chemicals released when you're happy! 🍫";
  "Fun fact: Hugging for 20 seconds releases oxytocin, which can make you feel happier! 🤗";
  "Did you know? Listening to music can boost your immune system and reduce stress! 🎵";
  "Fun fact: Plants in your room can reduce stress levels by up to 60%! 🌱"
].

Definition yes_replies : list string := [
  "That's wonderful! I'm so glad to hear that! 😊";
  "Great! Keep up the good self-care! 💪"
].

Definition no_replies : list string := [
  "That's okay! What can I help you with? I'm here for you. 💙";
  "No worries! Would you like to talk about anything?"
].

Definition sad_replies : list string := [
  "I'm sorry you're feeling down, honey. Remember, it's okay to have difficult days. Would you like to try a breathing exercise?";
  "Your feelings are valid, my dear. What's one small thing that might help you feel a bit better right now?"
].

Definition happy_replies : list string := [
  "That's wonderful! I'm so glad you're feeling good! What's bringing you joy today? 😊";
  "Awesome! It's great to hear you're in a positive space. Keep that energy flowing!"
].

Definition stressed_replies : list string := [
  "Stress can be tough. Remember to breathe, darling. Have you tried the relaxing games in the app?";
  "Let's take it one step at a time. What's the main thing on your mind right now?"
].

Definition anxious_replies : list string := [
  "Anxiety is challenging, but you're not alone. Try the 4-7-8 breathing technique: breathe in for 4, hold for 7, out for 8.";
  "I hear you. Sometimes when we're anxious, grounding techniques help. Can you name 5 things you can see around you?"
].

Definition default_replies : list string := [
  "I'm here to listen, honey. Tell me more about how you're feeling.";
  "Thank you for sharing. Your mental health matters. What can I help you with today?";
  "I appreciate you opening up. Would you like to explore the mood tracker or journal features?"
].

Definition crisis_replies : list string := [
  "I'm really concerned about you. Please know that you're not alone, and there are people who care about you and want to help. I'm opening your emergency contacts now - please reach out to someone you trust or call a crisis helpline immediately. Your life matters. 💙";
  "I hear that you're going through an incredibly difficult time. Please don't face this alone. I'm showing you emergency resources right now. There are people trained to help you through this. You deserve support and care. 🫂"
].

Definition responses : gmap string (list string) :=
  list_to_map [
    ("breakfast", breakfast_replies);
    ("nobreakfast", nobreakfast_replies);
    ("lunch", lunch_replies);
    ("nolunch", nolunch_replies);
    ("dinner", dinner_replies);
    ("nodinner", nodinner_replies);
    ("funfact", funfact_replies);
    ("yes", yes_replies);
    ("no", no_replies);
    ("sad", sad_replies);
    ("happy", happy_replies);
    ("stressed", stressed_replies);
    ("anxious", anxious_replies);
    ("default", default_replies);
    ("crisis", crisis_replies)
  ].

(** ** [getResponse] *)

Definition crisisKeywords : list string := [
  "suicide"; "suicidal"; "kill myself"; "end my life"; "want to die";
  "die"; "death"; "dying"; "dead"; "harm myself"; "hurt myself";
  "no reason to live"; "better off dead"; "end it all"
].

(** The chain of [if]s under the comment [General keyword matching]. *)
Definition generalResponse (rnd : Rand) (lowercaseMessage : string)
  : Chat (option string) :=
  if includes lowercaseMessage "fun fact" || includes lowercaseMessage "fact"
     || includes lowercaseMessage "tell me something"
  then pick rnd (responses !! "funfact")
  else if includes lowercaseMessage "sad" || includes lowercaseMessage "down"
          || includes lowercaseMessage "depressed"
  then pick rnd (responses !! "sad")
  else if includes lowercaseMessage "happy" || includes lowercaseMessage "good"
          || includes lowercaseMessage "great"
  then pick rnd (responses !! "happy")
  else if includes lowercaseMessage "stress" || includes lowercaseMessage "overwhelm"
  then pick rnd (responses !! "stressed")
  else if includes lowercaseMessage "anxious" || includes lowercaseMessage "anxiety"
          || includes lowercaseMessage "worry"
  then pick rnd (responses !! "anxious")
  else pick rnd (responses !! "default").

Section GetResponse.

(** [String.prototype.toLowerCase] of the language. *)
Variable toLowerCase : string -> string.

Definition getResponse (rnd : Rand) (userMessage : string) : Chat (option string) :=
  let lowercaseMessage := toLowerCase userMessage in
  (* CRITICAL: Check for crisis keywords first *)
  let hasCrisisKeyword := includesSome lowercaseMessage crisisKeywords in
  if hasCrisisKeyword then
    onEmergency ;;;
    pick rnd (responses !! "crisis")
  else
    lastQuestion <- readLastQuestion ;;
    (* Context-aware responses for "yes" and "no" *)
    if negb (QuestionType_eqb lastQuestion none) then
      if includesSome lowercaseMessage ["yes"; "yeah"; "yep"; "sure"] then
        response <- pick rnd (responses !! QuestionType_string lastQuestion) ;;
        setLastQuestion none ;;;
        ret response
      else if includesSome lowercaseMessage ["no"; "nah"; "nope"] then
        response <- pick rnd (responses !! ("no" +:+ QuestionType_string lastQuestion)) ;;
        setLastQuestion none ;;;
        ret response
      else generalResponse rnd lowercaseMessage
    else generalResponse rnd lowercaseMessage.

(** The greeting of the effect that opens the session, and the question
    it leaves pending. *)
Definition greeting (hour : Z) (currentMood soulNoteContent : option string)
  : string * QuestionType :=
  let greeting := "Hi there, honey! 👋 I'm here to support you. " in
  let '(greeting, question) :=
    if hour <? 12 then
      (greeting +:+ "Good morning! Did you have breakfast today? 🍳", breakfast)
    else if hour <? 18 then
      (greeting +:+ "Good afternoon! Have you had lunch yet? 🍽️", lunch)
    else
      (greeting +:+ "Good evening! Did you have dinner? 🌙", dinner) in
  let greeting :=
    match currentMood with
    | Some m =>
        if negb (String.eqb m "")
           && existsb (String.eqb m) ["Sad"; "Tired"; "Stressed"; "Anxious"]
        then "I noticed you're feeling " +:+ toLowerCase m
             +:+ " today, my dear. 💙 I'm here for you. " +:+ greeting
        else greeting
    | None => greeting
    end in
  let greeting :=
    match soulNoteContent with
    | Some n =>
        if negb (String.eqb n "")
        then "I see you've been writing in your journal. It's good to let those thoughts out. 📔 "
             +:+ greeting
        else greeting
    | None => greeting
    end in
  (greeting, question).

End GetResponse.

(* ===================================================================== *)
(** * The chat component of FINAL-PROJECT *)
(* ===================================================================== *)

(** [src/components/ChatBot.tsx] of FINAL-PROJECT asks a generative backend
    first and keeps the rules as a fallback; the crisis keywords are tested
    in [handleSend], before either. *)

Module FinalProject.

Record Message : Type := {
  text : option string;  (* a string, or [undefined] *)
  isBot : bool
}.

Record BotState : Type := {
  messages : list Message;
  input : string;
  lastQuestion : QuestionType;
  isTyping : bool;
  emergencyCalls : nat
}.

Definition setMessages (f : list Message -> list Message) : Eff BotState unit :=
  fun st => Normal tt {| messages := f (messages st); input := input st;
                         lastQuestion := lastQuestion st; isTyping := isTyping st;
                         emergencyCalls := emergencyCalls st |}.

Definition setInput (s : string) : Eff BotState unit :=
  fun st => Normal tt {| messages := messages st; input := s;
                         lastQuestion := lastQuestion st; isTyping := isTyping st;
                         emergencyCalls := emergencyCalls st |}.

Definition setLastQuestion (q : QuestionType) : Eff BotState unit :=
  fun st => Normal tt {| messages := messages st; input := input st;
                         lastQuestion := q; isTyping := isTyping st;
                         emergencyCalls := emergencyCalls st |}.

Definition setIsTyping (b : bool) : Eff BotState unit :=
  fun st => Normal tt {| messages := messages st; input := input st;
                         lastQuestion := lastQuestion st; isTyping := b;
                         emergencyCalls := emergencyCalls st |}.

Definition onEmergency : Eff BotState unit :=
  fun st => Normal tt {| messages := messages st; input := input st;
                         lastQuestion := lastQuestion st; isTyping := isTyping st;
                         emergencyCalls := S (emergencyCalls st) |}.

Definition readLastQuestion : Eff BotState QuestionType :=
  fun st => Normal (lastQuestion st) st.

(** What [await getGeminiResponse(...)] gives. *)
Inductive Awaited : Type := Resolved (value : string) | Rejected.

Definition await (a : Awaited) : Eff BotState string :=
  match a with
  | Resolved value => ret value
  | Rejected => throw "Error"
  end.

Definition breakfast_replies : list string := [
  "That's wonderful, honey! A good breakfast is like a warm hug for your tummy. 🥞";
  "I'm so glad you ate! You need that energy to shine bright today! ✨"
].

Definition nobreakfast_replies : list string := [
  "Oh, sweetie, you really shouldn't skip breakfast! 😟 It's the most important meal. Even a banana or some yogurt would be good. Please promise me you'll eat something small? 🍌";
  "My dear, your body needs fuel! Running on empty isn't good for you. Please grab a snack for Mama? 🥪"
].

Definition lunch_replies : list string := [
  "Good job, darling! Nourishing your body is so important. I hope it was delicious! 🥗";
  "That makes me happy! Eating well helps you stay strong and focused. 💪"
].

Definition nolunch_replies : list string := [
  "Oh no, honey bun! Skipping lunch can make you feel tired and grumpy. 🥺 Please go find something to eat, even if it's quick!";
  "You need to take care of yourself, my love! Please take a break and eat something. You deserve it! 🍎"
].

Definition dinner_replies : list string := [
  "Perfect! Now you can relax and have a peaceful evening. Sleep well later, okay? 😴";
  "I'm glad to hear that! A warm meal is the best way to end the day. 🍲"
].

Definition nodinner_replies : list string := [
  "Sweetheart, you can't go to bed hungry! 😟 It might disturb your sleep. Please have a light snack at least? 🥛";
  "My love, please eat something. Your body does all its repairing while you sleep, and it needs energy! 🌙"
].

Definition love_replies : list string := [
  "I love you so much, sweetie! You are precious to me. ❤️";
  "You are loved, you are enough, and you are doing great. Mama is proud of you! 💖";
  "Sending you all my love and a big, warm hug! 🫂"
].

Definition advice_replies : list string := [
  "My advice? Take a deep breath, drink some water, and remember that this too shall pass. You've got this! 💧";
  "Always be kind to yourself, darling. You're doing the best you can, and that's enough. 🌸";
  "Make sure you're getting enough sleep, honey. Everything looks better after a good night's rest. 😴"
].

Definition sad_replies : list string := [
  "Oh, my heart breaks to see you sad. 💔 It's okay to cry, let it all out. I'm right here with you.";
  "I'm sending you the biggest, warmest hug right now. 🫂 You are so strong, but you don't always have to be. Lean on me.";
  "Do you want to talk about it, or do you just need a distraction? Mama is here for whatever you need."
].

Definition happy_replies : list string := [
  "Look at that smile! 😍 It lights up the whole room! I'm so happy for you, honey!";
  "That's music to my ears! Enjoy this moment, my love. You deserve all the happiness in the world! 🎉"
].

Definition stressed_replies : list string := [
  "Take a deep breath with me, darling. In... and out. 🌬️ Don't let the world weigh you down. One thing at a time.";
  "You're working so hard, sweetie. Remember to take breaks. Mama doesn't want you burning out! ☕"
].

Definition anxious_replies : list string := [
  "Shh, it's okay. You are safe. I'm right here. 🛡️ Let's focus on your breathing together.";
  "I know it feels scary right now, but this feeling will pass. You are stronger than your anxiety, my brave child. 💪"
].

Definition default_replies : list string := [
  "I'm listening, sweetheart. Tell Mama everything. 👂";
  "That's interesting, honey! Tell me more.";
  "I'm here for you, always. What else is on your mind, my love? 💖";
  "You can tell me anything. I won't judge you. I just want to help. 🤝"
].

Definition crisis_replies : list string := [
  "My precious child, I am so worried about you. 💔 Please, please reach out for help. You are so important to this world. I'm showing you emergency contacts now. Please call someone. Your life is a gift. 💙";
  "Oh honey, please don't say that. You matter so much. Please let someone help you. I'm opening the emergency resources for you. Please use them. I love you and I want you to be safe. 🫂"
].

Definition responses : gmap string (list string) :=
  list_to_map [
    ("breakfast", breakfast_replies);
    ("nobreakfast", nobreakfast_replies);
    ("lunch", lunch_replies);
    ("nolunch", nolunch_replies);
    ("dinner", dinner_replies);
    ("nodinner", nodinner_replies);
    ("love", love_replies);
    ("advice", advice_replies);
    ("sad", sad_replies);
    ("happy", happy_replies);
    ("stressed", stressed_replies);
    ("anxious", anxious_replies);
    ("default", default_replies);
    ("crisis", crisis_replies)
  ].

Definition crisisKeywords : list string := [
  "suicide"; "suicidal"; "kill myself"; "end my life"; "want to die";
  "die"; "death"; "dying"; "dead"; "harm myself"; "hurt myself";
  "no reason to live"; "better off dead"; "end it all"
].

Definition generalResponse (rnd : Rand) (lowercaseMessage : string)
  : Eff BotState (option string) :=
  if includes lowercaseMessage "love" || includes lowercaseMessage "hug"
  then pick rnd (responses !! "love")
  else if includes lowercaseMessage "advice" || includes lowercaseMessage "help"
          || includes lowercaseMessage "what do i do"
  then pick rnd (responses !! "advice")
  else if includes lowercaseMessage "sad" || includes lowercaseMessage "cry"
          || includes lowercaseMessage "depressed"
  then pick rnd (responses !! "sad")
  else if includes lowercaseMessage "happy" || includes lowercaseMessage "good"
          || includes lowercaseMessage "great" || includes lowercaseMessage "excited"
  then pick rnd (responses !! "happy")
  else if includes lowercaseMessage "stress" || includes lowercaseMessage "tired"
          || includes lowercaseMessage "busy"
  then pick rnd (responses !! "stressed")
  else if includes lowercaseMessage "anxious" || includes lowercaseMessage "scared"
          || includes lowercaseMessage "worry" || includes lowercaseMessage "panic"
  then pick rnd (responses !! "anxious")
  else pick rnd (responses !! "default").

Section HandleSend.

(** [String.prototype.toLowerCase] and [String.prototype.trim] of the
    language. *)
Variable toLowerCase : string -> string.
Variable trim : string -> string.

Definition getFallbackResponse (rnd : Rand) (userMessage : string)
  : Eff BotState (option string) :=
  let lowercaseMessage := toLowerCase userMessage in
  lastQuestion <- readLastQuestion ;;
  (* Context-aware responses for "yes" and "no" *)
  if negb (QuestionType_eqb lastQuestion none) then
    if includesSome lowercaseMessage ["yes"; "yeah"; "yep"; "sure"; "i did"] then
      response <- pick rnd (responses !! QuestionType_string lastQuestion) ;;
      setLastQuestion none ;;;
      ret response
    else if includesSome lowercaseMessage ["no"; "nah"; "nope"; "not yet"; "i didn't"] then
      response <- pick rnd (responses !! ("no" +:+ QuestionType_string lastQuestion)) ;;
      setLastQuestion none ;;;
      ret response
    else generalResponse rnd lowercaseMessage
  else generalResponse rnd lowercaseMessage.

(** [handleSend] on the state it is called in, with what the backend will
    answer and the values of the (at most two) calls of [Math.random]. *)
Definition handleSend (gemini : Awaited) (rnd rnd' : Rand) : Eff BotState unit :=
  fun st0 =>
    let input := input st0 in
    if String.eqb (trim input) "" then Normal tt st0
    else
      let userMessage := {| text := Some input; isBot := false |} in
      (setMessages (fun _ => messages st0 ++ [userMessage]) ;;;
       setInput "" ;;;
       setIsTyping true ;;;
       let lowercaseMessage := toLowerCase input in
       let hasCrisisKeyword := includesSome lowercaseMessage crisisKeywords in
       if hasCrisisKeyword then
         onEmergency ;;;
         crisisResponse <- pick rnd (responses !! "crisis") ;;
         setMessages (fun prev => prev ++ [{| text := crisisResponse; isBot := true |}]) ;;;
         setIsTyping false
       else
         tryFinally
           (tryCatch
              ((* Try to get response from Gemini *)
               geminiResponse <- await gemini ;;
               if negb (String.eqb geminiResponse "") then
                 setMessages
                   (fun prev => prev ++ [{| text := Some geminiResponse; isBot := true |}])
               else
                 (* Fallback if Gemini fails or no key *)
                 fallbackResponse <- getFallbackResponse rnd input ;;
                 setMessages
                   (fun prev => prev ++ [{| text := fallbackResponse; isBot := true |}]))
              (fallbackResponse <- getFallbackResponse rnd' input ;;
               setMessages
                 (fun prev => prev ++ [{| text := fallbackResponse; isBot := true |}])))
           (setIsTyping false)) st0.

End HandleSend.

End FinalProject.

(** ** The rule as the specification words it *)

(** [keyword] occurs in [s]. *)
Definition substring (keyword s : string) : Prop :=
  exists before after : string, s = before +:+ keyword +:+ after.

(** The contexts of the specification: a pending meal question, or none. *)
Definition specContext (q : QuestionType) : Prop :=
  q = breakfast \/ q = lunch \/ q = dinner \/ q = none.

(** The replies that acknowledge a meal, and those for a missed one. *)
Definition acknowledged (q : QuestionType) : list string :=
  match q with
  | breakfast => breakfast_replies
  | lunch => lunch_replies
  | dinner => dinner_replies
  | _ => []
  end.

Definition missed (q : QuestionType) : list string :=
  match q with
  | breakfast => nobreakfast_replies
  | lunch => nolunch_replies
  | dinner => nodinner_replies
  | _ => []
  end.

(** The ordered table of topics: keywords and replies. *)
Definition topicTable : list (list string * list string) := [
  (["fun fact"; "fact"; "tell me something"], funfact_replies);
  (["sad"; "down"; "depressed"], sad_replies);
  (["happy"; "good"; "great"], happy_replies);
  (["stress"; "overwhelm"], stressed_replies);
  (["anxious"; "anxiety"; "worry"], anxious_replies)
].

(** The replies of the first topic of a table that the message matches, the
    default replies when there is none. *)
Fixpoint firstTopic (table : list (list string * list string)) (lowercaseMessage : string)
  : list string :=
  match table with
  | [] => default_replies
  | (keywords, replies) :: rest =>
      if includesSome lowercaseMessage keywords then replies
      else firstTopic rest lowercaseMessage
  end.

(** The message mentions one of the words. *)
Definition mentions (lowercaseMessage : string) (words : list string) : Prop :=
  exists w : string, In w words /\ substring w lowercaseMessage.

Definition affirmative : list string := ["yes"; "yeah"; "yep"; "sure"].
Definition negative : list string := ["no"; "nah"; "nope"].

(** Every array of [responses]. *)
Definition replySets : list (list string) := [
  breakfast_replies; nobreakfast_replies; lunch_replies; nolunch_replies;
  dinner_replies; nodinner_replies; funfact_replies; yes_replies; no_replies;
  sad_replies; happy_replies; stressed_replies; anxious_replies;
  default_replies; crisis_replies
].

(** The state after the pending question is answered, and the state after
    one more call of [onEmergency]. *)
Definition clearQuestion (st : ChatState) : ChatState :=
  {| lastQuestion := none; emergencyCalls := emergencyCalls st |}.

Definition raiseEmergency (st : ChatState) : ChatState :=
  {| lastQuestion := lastQuestion st; emergencyCalls := S (emergencyCalls st) |}.

(** A message that is no plain text of the letters A to Z. *)
Definition nonAsciiMessage : string := "¿Qué tal? 😊".

(* ===================================================================== *)
(** * The chat component around [getResponse] *)
(* ===================================================================== *)

(** The state of the component of [src/components/ChatBot.tsx]: the
    messages on the screen, the text of the input field, and the state
    [getResponse] works on. *)
Record Message : Type := {
  text : option string;  (* a string, or [undefined] *)
  isBot : bool
}.

Record BotState : Type := {
  messages : list Message;
  input : string;
  chat : ChatState
}.

Definition setMessages (f : list Message -> list Message) : Eff BotState unit :=
  fun st => Normal tt {| messages := f (messages st); input := input st; chat := chat st |}.

Definition setInput (s : string) : Eff BotState unit :=
  fun st => Normal tt {| messages := messages st; input := s; chat := chat st |}.

(** A piece of code on [lastQuestion] and [onEmergency], run inside the
    component. *)
Definition inComponent {A : Type} (m : Chat A) : Eff BotState A :=
  fun st =>
    match m (chat st) with
    | Normal a c => Normal a {| messages := messages st; input := input st; chat := c |}
    | Throw e c => Throw e {| messages := messages st; input := input st; chat := c |}
    end.

(** The state a completion ends in. *)
Definition finalState {S A : Type} (c : Completion S A) : S :=
  match c with
  | Normal _ st => st
  | Throw _ st => st
  end.

(** [handleSend] returns before its timer fires, and the callback of the
    timer belongs to the render that set it: it keeps the [input] of that
    render and its [getResponse], which reads the [lastQuestion] of that
    render, whatever the component has become in the 1000 ms. *)
Record Timer : Type := {
  typed : string;
  asked : QuestionType
}.

(** The component with the timers that have not fired yet, oldest first:
    they all wait 1000 ms. *)
Record Session : Type := {
  view : BotState;
  timers : list Timer
}.

(** What happens to the component. *)
Inductive Event : Type :=
  | Types (s : string)        (* [onChange]: [setInput(e.target.value)] *)
  | Sends                     (* the button or the Enter key: [handleSend()] *)
  | TimerFires (rnd : Rand)   (* the callback of the oldest timer runs *)
  | Greets (hour : Z) (currentMood soulNoteContent : option string).
                              (* the props change: the effect runs again *)

(** A piece of code of the component, run in a session. *)
Definition inView {A : Type} (m : Eff BotState A) : Eff Session A :=
  fun s =>
    match m (view s) with
    | Normal a v => Normal a {| view := v; timers := timers s |}
    | Throw e v => Throw e {| view := v; timers := timers s |}
    end.

(** [setTimeout(callback, 1000)]. *)
Definition setTimeout (callback : Timer) : Eff Session unit :=
  fun s => Normal tt {| view := view s; timers := timers s ++ [callback] |}.

Section HandleSend.

Variable toLowerCase : string -> string.
(** [String.prototype.trim] of the language. *)
Variable trim : string -> string.

(** The effect that opens the session. *)
Definition openSession (hour : Z) (currentMood soulNoteContent : option string)
  : BotState :=
  let '(greeting, question) := greeting toLowerCase hour currentMood soulNoteContent in
  {| messages := [{| text := Some greeting; isBot := true |}];
     input := "";
     chat := {| lastQuestion := question; emergencyCalls := 0 |} |}.

(** [handleSend], with the callback of its timer run right after it. *)
Definition handleSend (rnd : Rand) : Eff BotState unit :=
  fun st0 =>
    let input := input st0 in
    if String.eqb (trim input) "" then Normal tt st0
    else
      let userMessage := {| text := Some input; isBot := false |} in
      (setMessages (fun _ => messages st0 ++ [userMessage]) ;;;
       setInput "" ;;;
       (* setTimeout, 1000 *)
       response <- inComponent (getResponse toLowerCase rnd input) ;;
       let botResponse := {| text := response; isBot := true |} in
       setMessages (fun prev => prev ++ [botResponse])) st0.

(** ** The component over time *)

(** [getResponse] of the render in which [lastQuestion] was [asked].
    [setLastQuestion] and [onEmergency] act on the component as it is when
    the call runs. *)
Definition getResponse_of_render (asked : QuestionType) (rnd : Rand)
    (userMessage : string) : Chat (option string) :=
  let lastQuestion := asked in
  let lowercaseMessage := toLowerCase userMessage in
  (* CRITICAL: Check for crisis keywords first *)
  let hasCrisisKeyword := includesSome lowercaseMessage crisisKeywords in
  if hasCrisisKeyword then
    onEmergency ;;;
    pick rnd (responses !! "crisis")
  else
    (* Context-aware responses for "yes" and "no" *)
    if negb (QuestionType_eqb lastQuestion none) then
      if includesSome lowercaseMessage ["yes"; "yeah"; "yep"; "sure"] then
        response <- pick rnd (responses !! QuestionType_string lastQuestion) ;;
        setLastQuestion none ;;;
        ret response
      else if includesSome lowercaseMessage ["no"; "nah"; "nope"] then
        response <- pick rnd (responses !! ("no" +:+ QuestionType_string lastQuestion)) ;;
        setLastQuestion none ;;;
        ret response
      else generalResponse rnd lowercaseMessage
    else generalResponse rnd lowercaseMessage.

(** [handleSend] up to its [setTimeout]. *)
Definition send : Eff Session unit :=
  fun s0 =>
    let input := input (view s0) in
    if String.eqb (trim input) "" then Normal tt s0
    else
      let userMessage := {| text := Some input; isBot := false |} in
      (inView (setMessages (fun _ => messages (view s0) ++ [userMessage])) ;;;
       inView (setInput "") ;;;
       setTimeout {| typed := input; asked := lastQuestion (chat (view s0)) |}) s0.

(** The callback of a timer. *)
Definition timerCallback (callback : Timer) (rnd : Rand) : Eff BotState unit :=
  response <- inComponent
                (getResponse_of_render (asked callback) rnd (typed callback)) ;;
  let botResponse := {| text := response; isBot := true |} in
  setMessages (fun prev => prev ++ [botResponse]).

(** The oldest timer fires. *)
Definition fire (rnd : Rand) : Eff Session unit :=
  fun s =>
    match timers s with
    | [] => Normal tt s
    | callback :: rest =>
        inView (timerCallback callback rnd) {| view := view s; timers := rest |}
    end.

(** The effect with the greeting, run again. *)
Definition greet (hour : Z) (currentMood soulNoteContent : option string)
  : Eff BotState unit :=
  let '(greeting, question) := greeting toLowerCase hour currentMood soulNoteContent in
  setMessages (fun _ => [{| text := Some greeting; isBot := true |}]) ;;;
  inComponent (setLastQuestion question).

Definition step (e : Event) : Eff Session unit :=
  match e with
  | Types s => inView (setInput s)
  | Sends => send
  | TimerFires rnd => fire rnd
  | Greets hour currentMood soulNoteContent =>
      inView (greet hour currentMood soulNoteContent)
  end.

(** The events one after the other, each in the render the one before has
    left.  An exception in the callback of a timer is caught by nobody:
    the callback ends there and the component goes on.  The result has the
    number of these exceptions. *)
Fixpoint run (events : list Event) (s : Session) : nat * Session :=
  match events with
  | [] => (0%nat, s)
  | e :: rest =>
      match step e s with
      | Normal _ s' => run rest s'
      | Throw _ s' => let '(n, s'') := run rest s' in (S n, s'')
      end
  end.

(** The texts the user sends in the course of the events: what the input
    field holds at each [Sends], unless it is blank. *)
Fixpoint sentTexts (events : list Event) (input : string) : list string :=
  match events with
  | [] => []
  | Types s :: rest => sentTexts rest s
  | Sends :: rest =>
      if String.eqb (trim input) "" then sentTexts rest input
      else input :: sentTexts rest ""
  | _ :: rest => sentTexts rest input
  end.

(** The text an event sends. *)
Definition sentNow (e : Event) (input : string) : list string :=
  match e with
  | Sends => if String.eqb (trim input) "" then [] else [input]
  | _ => []
  end.

(** A text that calls for help, and how many of a list do. *)
Definition alarming (typed : string) : bool :=
  includesSome (toLowerCase typed) crisisKeywords.

Definition alarms (texts : list string) : nat := length (List.filter alarming texts).

End HandleSend.

(** The greeting does not run again. *)
Definition noGreeting (events : list Event) : Prop :=
  forall (hour : Z) (currentMood soulNoteContent : option string),
    ~ In (Greets hour currentMood soulNoteContent) events.

(** A session in a context of the specification: the question of the
    component and the question every timer has kept. *)
Definition specSession (s : Session) : Prop :=
  specContext (lastQuestion (chat (view s))) /\
  Forall (fun callback => specContext (asked callback)) (timers s).

(** A message of the user, and one of the bot. *)
Definition fromUser (typed : string) : Message := {| text := Some typed; isBot := false |}.
Definition fromBot (reply : string) : Message := {| text := Some reply; isBot := true |}.

(** The question each greeting asks. *)
Definition questionText (q : QuestionType) : string :=
  match q with
  | breakfast => "Did you have breakfast today?"
  | lunch => "Have you had lunch yet?"
  | dinner => "Did you have dinner?"
  | _ => ""
  end.

(** The arrays [getResponse] reads. *)
Definition usedReplySets : list (list string) := [
  crisis_replies;
  breakfast_replies; lunch_replies; dinner_replies;
  nobreakfast_replies; nolunch_replies; nodinner_replies;
  funfact_replies; sad_replies; happy_replies; stressed_replies; anxious_replies;
  default_replies
].

(** Two lists of strings share an element. *)
Definition overlap (l1 l2 : list string) : bool :=
  existsb (fun a => existsb (String.eqb a) l2) l1.

(** ** Names for the component of FINAL-PROJECT *)

(** The state with the pending question cleared. *)
Definition FP_clearQuestion (st : FinalProject.BotState) : FinalProject.BotState :=
  {| FinalProject.messages := FinalProject.messages st;
     FinalProject.input := FinalProject.input st;
     FinalProject.lastQuestion := none;
     FinalProject.isTyping := FinalProject.isTyping st;
     FinalProject.emergencyCalls := FinalProject.emergencyCalls st |}.

(** The state [handleSend] leaves when it has shown the text of the user
    and one text of the bot. *)
Definition FP_answered (st : FinalProject.BotState) (botText : option string)
    (q : QuestionType) : FinalProject.BotState :=
  {| FinalProject.messages :=
       FinalProject.messages st ++
       [{| FinalProject.text := Some (FinalProject.input st); FinalProject.isBot := false |};
        {| FinalProject.text := botText; FinalProject.isBot := true |}];
     FinalProject.input := "";
     FinalProject.lastQuestion := q;
     FinalProject.isTyping := false;
     FinalProject.emergencyCalls := FinalProject.emergencyCalls st |}.

Definition FP_acknowledged (q : QuestionType) : list string :=
  match q with
  | breakfast => FinalProject.breakfast_replies
  | lunch => FinalProject.lunch_replies
  | dinner => FinalProject.dinner_replies
  | _ => []
  end.

Definition FP_missed (q : QuestionType) : list string :=
  match q with
  | breakfast => FinalProject.nobreakfast_replies
  | lunch => FinalProject.nolunch_replies
  | dinner => FinalProject.nodinner_replies
  | _ => []
  end.

(** Every array of [responses] of FINAL-PROJECT. *)
Definition FP_replySets : list (list string) := [
  FinalProject.breakfast_replies; FinalProject.nobreakfast_replies;
  FinalProject.lunch_replies; FinalProject.nolunch_replies;
  FinalProject.dinner_replies; FinalProject.nodinner_replies;
  FinalProject.love_replies; FinalProject.advice_replies; FinalProject.sad_replies;
  FinalProject.happy_replies; FinalProject.stressed_replies;
  FinalProject.anxious_replies; FinalProject.default_replies;
  FinalProject.crisis_replies
].

(* ===================================================================== *)
(** * The other handlers of the server *)
(* ===================================================================== *)

(** The handlers read and write the key-value store with [kv.get] and
    [kv.set]; as for the streak, each kind of object has its own map, under
    the full key.  A field of a request body is a string; a field that is
    absent is the empty string, which every test of the handlers below
    treats in the same way (both are falsy).  What a handler answers is
    the body of [c.json], with the status when it is not 200. *)
Inductive Json (A : Type) : Type :=
  | Ok (body : A)
  | Error (status : Z) (error : string).
Arguments Ok {A} body.
Arguments Error {A} status error.

(** A number that holds an integer, as a template literal prints it. *)
Definition Number_toString (n : Z) : string := NilZero.string_of_int (Z.to_int n).

Module Accounts.

Record Profile : Type := {
  userId : string;
  gender : string;
  name : string;
  password : string;
  createdAt : Time
}.

(** The part of the store the account handlers use: the user id under
    each [username:<name>], the profile under each [user:<id>:profile]. *)
Record Store : Type := {
  usernames : gmap string string;
  profiles : gmap string Profile
}.

Definition noAccounts : Store := {| usernames := ∅; profiles := ∅ |}.

Section Handlers.

Variable toLowerCase : string -> string.

Definition getUsernameKey (name : string) : string := "username:" +:+ toLowerCase name.

(** [POST /login]. *)
Definition login (kv : Store) (name password : string) : Json Profile :=
  if String.eqb name "" || String.eqb password ""
  then Error 400 "Name and password are required"
  else
    (* Look up userId by username *)
    let usernameKey := getUsernameKey name in
    match usernames kv !! usernameKey with
    | None => Error 404 "User not found"
    | Some userId =>
        if String.eqb userId "" then Error 404 "User not found"
        else
          let profileKey := getUserKey userId "profile" in
          match profiles kv !! profileKey with
          | None => Error 404 "Profile not found"
          | Some profile =>
              (* Check password *)
              if negb (String.eqb (Accounts.password profile) password)
              then Error 401 "Invalid password"
              else Ok profile
          end
    end.

(** [POST /profile]: get or create a profile (signup), at the time
    [now]. *)
Definition signup (now : Time) (kv : Store) (userId gender name password : string)
  : Store * Json Profile :=
  if String.eqb userId "" then (kv, Error 400 "User ID is required")
  else
    (* Check if username is taken (only if name is provided) *)
    let taken :=
      negb (String.eqb name "")
      && match usernames kv !! getUsernameKey name with
         | Some existingUserId =>
             negb (String.eqb existingUserId "")
             && negb (String.eqb existingUserId userId)
         | None => false
         end in
    if taken then (kv, Error 409 "Username already taken")
    else
      let profileKey := getUserKey userId "profile" in
      match profiles kv !! profileKey with
      | Some existingProfile => (kv, Ok existingProfile)
      | None =>
          let profile :=
            {| userId := userId;
               gender := if String.eqb gender "" then "not-specified" else gender;
               name := if String.eqb name "" then "User" else name;
               password := password;
               createdAt := now |} in
          (* Save profile and username mapping *)
          let profiles' := <[profileKey := profile]> (profiles kv) in
          let usernames' :=
            if negb (String.eqb name "")
            then <[getUsernameKey name := userId]> (usernames kv)
            else usernames kv in
          ({| usernames := usernames'; profiles := profiles' |}, Ok profile)
      end.

(** [GET /profile/:userId]. *)
Definition getProfile (kv : Store) (userId : string) : Json Profile :=
  match profiles kv !! getUserKey userId "profile" with
  | None => Error 404 "Profile not found"
  | Some profile => Ok profile
  end.

(** Every registered username leads to a user id that is not empty and
    has a profile. *)
Definition Registered (kv : Store) : Prop :=
  forall (k u : string),
    usernames kv !! k = Some u ->
    u <> "" /\ is_Some (profiles kv !! getUserKey u "profile").

End Handlers.

End Accounts.

Module Daily.

(** The object kept under [user:<userId>:checkin:<date>]. *)
Record Checkin : Type := {
  userId : string;
  date : string;
  mood : string;
  emoji : string;
  answers : gmap string string;
  timestamp : Time
}.

(** The part of the store the check-in handlers use. *)
Record Store : Type := {
  checkins : gmap string Checkin;
  streaks : gmap string Streak
}.

(** [POST /checkin].  [new Date()] is read twice: [now] gives the date,
    [now'] the time stamp.  [answers] is [None] when the body has none. *)
Definition checkin (now now' : Time) (kv : Store) (userId mood emoji : string)
    (answers : option (gmap string string)) : Store * Json Checkin :=
  if String.eqb userId "" || String.eqb mood ""
  then (kv, Error 400 "User ID and mood are required")
  else
    let date := toISODate now in
    let checkinKey := getUserKey userId ("checkin:" +:+ date) in
    let checkin :=
      {| userId := userId;
         date := date;
         mood := mood;
         emoji := emoji;
         answers := default ∅ answers;
         timestamp := now' |} in
    let checkins' := <[checkinKey := checkin]> (checkins kv) in
    (* Update streak *)
    let streaks' := fst (updateStreak (streaks kv) userId (checkinDate now)) in
    ({| checkins := checkins'; streaks := streaks' |}, Ok checkin).

(** [GET /streak/:userId]. *)
Definition getStreak (kv : gmap string Streak) (userId : string) : Streak :=
  default noStreak (kv !! getUserKey userId "streak").

End Daily.


(* ===================================================================== *)
(** * The accounts of the localStorage shim *)
(* ===================================================================== *)

(** [s.replace(pattern, replacement)] for a pattern that is a string and a
    replacement without [$]: the first occurrence is replaced. *)
Fixpoint skip (n : nat) (s : string) : string :=
  match n, s with
  | O, _ => s
  | S n', String _ s' => skip n' s'
  | S _, EmptyString => EmptyString
  end.

Fixpoint String_replace (pattern replacement s : string) : string :=
  if String.prefix pattern s
  then replacement +:+ skip (String.length pattern) s
  else match s with
       | EmptyString => EmptyString
       | String c s' => String c (String_replace pattern replacement s')
       end.

Module Shim.

(** An entry of the array kept under the key [users]. *)
Module User.
Record t : Type := {
  id : string;
  email : string;
  password : string;
  name : string;
  createdAt : Time
}.
End User.

(** The object kept under [user:<id>:profile].  A field that is absent is
    the empty string, or [None] for a date. *)
Module Profile.
Record t : Type := {
  userId : string;
  email : string;
  gender : string;
  name : string;
  createdAt : option Time;
  updatedAt : option Time
}.
End Profile.

(** What [signUp], [signIn] and [verifySession] return; [verifySession]
    gives no token. *)
Module Session.
Record t : Type := {
  success : bool;
  userId : string;
  email : string;
  name : string;
  accessToken : option string
}.
End Session.

(** The part of [localStorage] the account functions use: the array of
    users ([getStorage('users') || []]) and the profiles under their full
    keys. *)
Record Storage : Type := {
  users : list User.t;
  profiles : gmap string Profile.t
}.

Definition profileKey (userId : string) : string :=
  "lucerna_db_" +:+ getUserKey userId "profile".

(** [profile?.name || user.name]. *)
Definition shownName (profile : option Profile.t) (user : User.t) : string :=
  match profile with
  | Some p => if String.eqb (Profile.name p) "" then User.name user else Profile.name p
  | None => User.name user
  end.

(** [api.signUp]; [Date.now()] gives [now], the two [new Date()] give
    [created] and [created']. *)
Definition signUp (now created created' : Time) (email password name : string)
  : Eff Storage Session.t :=
  fun st =>
    let users := users st in
    match List.find (fun u => String.eqb (User.email u) email) users with
    | Some _ => Throw "User already exists" st
    | None =>
        let userId := "user_" +:+ Number_toString now in
        let newUser :=
          {| User.id := userId;
             User.email := email;
             User.password := password;
             User.name := name;
             User.createdAt := created |} in
        let users := users ++ [newUser] in
        (* Create profile *)
        let profile :=
          {| Profile.userId := userId;
             Profile.email := email;
             Profile.gender := "";
             Profile.name := name;
             Profile.createdAt := Some created';
             Profile.updatedAt := None |} in
        Normal
          {| Session.success := true;
             Session.userId := userId;
             Session.email := email;
             Session.name := name;
             Session.accessToken := Some ("mock_token_" +:+ userId) |}
          {| Shim.users := users;
             profiles := <[profileKey userId := profile]> (profiles st) |}
    end.

(** [api.signIn]. *)
Definition signIn (email password : string) : Eff Storage Session.t :=
  fun st =>
    match List.find (fun u => String.eqb (User.email u) email
                              && String.eqb (User.password u) password) (users st) with
    | None => Throw "Invalid email or password" st
    | Some user =>
        (* Get profile to ensure we have the name *)
        let profile := profiles st !! profileKey (User.id user) in
        Normal
          {| Session.success := true;
             Session.userId := User.id user;
             Session.email := User.email user;
             Session.name := shownName profile user;
             Session.accessToken := Some ("mock_token_" +:+ User.id user) |}
          st
    end.

(** [api.verifySession]. *)
Definition verifySession (token : string) : Eff Storage Session.t :=
  fun st =>
    if String.eqb token "" || negb (String.prefix "mock_token_" token)
    then Throw "Invalid token" st
    else
      let userId := String_replace "mock_token_" "" token in
      match List.find (fun u => String.eqb (User.id u) userId) (users st) with
      | None => Throw "User not found" st
      | Some user =>
          let profile := profiles st !! profileKey userId in
          Normal
            {| Session.success := true;
               Session.userId := User.id user;
               Session.email := User.email user;
               Session.name := shownName profile user;
               Session.accessToken := None |}
            st
      end.

End Shim.

(* ===================================================================== *)
(** * Facts about numbers and dates *)
(* ===================================================================== *)

Lemma JSdiv_pos_eq (a : Z) (p : positive) : JSNumber.div a (Z.pos p) = (a # p)%Q.
Proof.
  unfold JSNumber.div, Qdiv, Qinv, Qmult, inject_Z; simpl.
  f_equal; lia.
Qed.

Lemma Math_floor_div (a b : Z) : 0 < b -> JSNumber.Math_floor (JSNumber.div a b) = a / b.
Proof.
  intros Hb. destruct b as [|p|p]; try lia.
  rewrite JSdiv_pos_eq. reflexivity.
Qed.

Lemma Math_round_div (a b : Z) :
  0 < b -> JSNumber.Math_round (JSNumber.div a b) = (2 * a + b) / (2 * b).
Proof.
  intros Hb. destruct b as [|p|p]; try lia.
  rewrite JSdiv_pos_eq. unfold JSNumber.Math_round, Qplus, Qfloor; simpl.
  f_equal; lia.
Qed.

(** ** The calendar functions are inverse to each other *)

Lemma days_from_civil_from_days (n : Z) :
  let '(y, m, d) := civil_from_days n in days_from_civil y m d = n.
Proof.
  unfold civil_from_days, days_from_civil.
  set (z := n + 719468).
  set (doe := z mod 146097).
  set (yoe := (doe - doe / 1460 + doe / 36524 - doe / 146096) / 365).
  set (doy := doe - (365 * yoe + yoe / 4 - yoe / 100)).
  set (mp := (5 * doy + 2) / 153).
  assert (Hdoe : 0 <= doe <= 146096) by (subst doe; lia).
  assert (Hyoe : 0 <= yoe <= 399) by (subst yoe; lia).
  assert (Hdoy : 0 <= doy <= 365) by (subst doy yoe; lia).
  assert (Hmp : 0 <= mp <= 11) by (subst mp; lia).
  destruct (mp <? 10) eqn:E10.
  - apply Z.ltb_lt in E10.
    replace (mp + 3 <=? 2) with false by (symmetry; apply Z.leb_gt; lia).
    replace (2 <? mp + 3) with true by (symmetry; apply Z.ltb_lt; lia).
    replace (mp + 3 - 3) with mp by lia.
    replace ((yoe + z / 146097 * 400 + 0) / 400) with (z / 146097) by lia.
    replace ((yoe + z / 146097 * 400 + 0) mod 400) with yoe by lia.
    subst doy doe. lia.
  - apply Z.ltb_ge in E10.
    replace (mp - 9 <=? 2) with true by (symmetry; apply Z.leb_le; lia).
    replace (2 <? mp - 9) with false by (symmetry; apply Z.ltb_ge; lia).
    replace (mp - 9 + 9) with mp by lia.
    replace ((yoe + z / 146097 * 400 + 1 - 1) / 400) with (z / 146097) by lia.
    replace ((yoe + z / 146097 * 400 + 1 - 1) mod 400) with yoe by lia.
    subst doy doe. lia.
Qed.

Lemma civil_month_range (n : Z) :
  let '(_, m, _) := civil_from_days n in 1 <= m <= 12.
Proof.
  unfold civil_from_days.
  set (z := n + 719468).
  set (doe := z mod 146097).
  set (yoe := (doe - doe / 1460 + doe / 36524 - doe / 146096) / 365).
  set (doy := doe - (365 * yoe + yoe / 4 - yoe / 100)).
  set (mp := (5 * doy + 2) / 153).
  assert (Hdoe : 0 <= doe <= 146096) by (subst doe; lia).
  assert (Hdoy : 0 <= doy <= 365) by (subst doy yoe; lia).
  assert (Hmp : 0 <= mp <= 11) by (subst mp; lia).
  destruct (mp <? 10) eqn:E10; [apply Z.ltb_lt in E10 | apply Z.ltb_ge in E10]; lia.
Qed.

Lemma days_from_civil_date (y m d : Z) :
  days_from_civil y m d = days_from_civil y m 1 + d - 1.
Proof. unfold days_from_civil. lia. Qed.

Lemma MakeDay_DateFromTime (t : Time) (k : Z) :
  MakeDay (YearFromTime t) (MonthFromTime t) (DateFromTime t + k) = Day t + k.
Proof.
  unfold MakeDay, YearFromTime, MonthFromTime, DateFromTime.
  pose proof (days_from_civil_from_days (Day t)) as Hrt.
  pose proof (civil_month_range (Day t)) as Hm.
  destruct (civil_from_days (Day t)) as [[y m] d]; simpl.
  replace ((m - 1) / 12) with 0 by lia.
  replace ((m - 1) mod 12 + 1) with m by lia.
  rewrite Z.add_0_r.
  rewrite (days_from_civil_date y m d) in Hrt. lia.
Qed.

(** ** The range of a [Date] and the local time *)

Lemma TimeClip_in_range (t : Z) : Z.abs t <= maxTime -> TimeClip t = Some t.
Proof.
  intros H. unfold TimeClip.
  now replace (Z.abs t <=? maxTime) with true by (symmetry; apply Z.leb_le; exact H).
Qed.

Lemma TimeClip_out_of_range (t : Z) : maxTime < Z.abs t -> TimeClip t = None.
Proof.
  intros H. unfold TimeClip.
  now replace (Z.abs t <=? maxTime) with false by (symmetry; apply Z.leb_gt; exact H).
Qed.

Lemma TimeClip_Some (t u : Z) : TimeClip t = Some u -> u = t /\ Z.abs t <= maxTime.
Proof.
  unfold TimeClip. destruct (Z.abs t <=? maxTime) eqn:E; [|discriminate].
  intros H. injection H as <-. apply Z.leb_le in E. now split.
Qed.

(** Moving the day of the month by [k] moves the local time by [k] days,
    across the ends of months and years; the result is read back in UTC
    and cut off at the ends of the range. *)
Lemma setDate_getDate_plus (LocalTZA : Z -> bool -> Z) (t : Time) (k : Z) :
  setDate LocalTZA (Some t) (JSNumber.add (getDate LocalTZA (Some t)) (Some k)) =
  TimeClip (UTC LocalTZA (LocalTime LocalTZA t + k * msPerDay)).
Proof.
  unfold setDate, getDate, JSNumber.add. rewrite MakeDay_DateFromTime.
  f_equal. f_equal. unfold MakeDate, Day, TimeWithinDay, msPerDay. lia.
Qed.

Lemma Day_Date_UTC (y m d : Z) : Day (Date_UTC y m d) = days_from_civil y m d.
Proof. unfold Day, Date_UTC, MakeDate, msPerDay. lia. Qed.

Lemma msPerDay_pos : 0 < msPerDay.
Proof. reflexivity. Qed.

Lemma Day_plus_days (t k : Z) : Day (t + k * msPerDay) = Day t + k.
Proof. unfold Day, msPerDay. lia. Qed.

Lemma checkinDate_midnight (now : Time) : checkinDate now = MakeDate (Day now) 0.
Proof.
  unfold checkinDate, Date_UTC.
  pose proof (days_from_civil_from_days (Day now)) as Hrt.
  destruct (civil_from_days (Day now)) as [[y m] d]. now rewrite Hrt.
Qed.

(* ===================================================================== *)
(** * The daily streak: proofs *)
(* ===================================================================== *)

Lemma diffDays_div (today last : Time) : diffDays today last = (today - last) / msPerDay.
Proof. unfold diffDays. now rewrite Math_floor_div. Qed.

(** Between two midnights the difference is the difference of the days. *)
Lemma diffDays_midnights (d1 d2 : Z) :
  diffDays (MakeDate d1 0) (MakeDate d2 0) = d1 - d2.
Proof. rewrite diffDays_div. unfold MakeDate, msPerDay. lia. Qed.

Lemma current_updateStreak_state (s : Streak) (date : Time) :
  current (updateStreak_state s date) =
  match lastDate s with
  | Some last =>
      if diffDays date last =? 1 then current s + 1
      else if 1 <? diffDays date last then 1 else current s
  | None => 1
  end.
Proof. reflexivity. Qed.

Lemma longest_updateStreak_state (s : Streak) (date : Time) :
  longest (updateStreak_state s date) =
  Z.max (longest s) (current (updateStreak_state s date)).
Proof. reflexivity. Qed.

Lemma lastDate_updateStreak_state (s : Streak) (date : Time) :
  lastDate (updateStreak_state s date) = Some date.
Proof. reflexivity. Qed.

Lemma Streak_eq (s1 s2 : Streak) :
  current s1 = current s2 -> longest s1 = longest s2 -> lastDate s1 = lastDate s2 ->
  s1 = s2.
Proof. destruct s1, s2; simpl; intros; subst; reflexivity. Qed.

(** The shim computes what the server computes, under its own keys. *)
Lemma api_updateStreak_state (localStorage : gmap string Streak) (userId : string)
    (date : Time) :
  snd (api_updateStreak localStorage userId date) =
  updateStreak_state
    (default noStreak (localStorage !! ("lucerna_db_" +:+ getUserKey userId "streak")))
    date.
Proof. reflexivity. Qed.

Lemma StreakInv_updateStreak_state (s : Streak) (date : Time) :
  StreakInv s -> StreakInv (updateStreak_state s date).
Proof.
  unfold StreakInv. intros [H0 Hle].
  rewrite longest_updateStreak_state, current_updateStreak_state.
  destruct (lastDate s) as [last|]; [|lia].
  destruct (diffDays date last =? 1); [lia|].
  destruct (1 <? diffDays date last); lia.
Qed.

Lemma updateStreak_state_twice (s : Streak) (date : Time) :
  updateStreak_state (updateStreak_state s date) date = updateStreak_state s date.
Proof.
  assert (Hc : current (updateStreak_state (updateStreak_state s date) date)
               = current (updateStreak_state s date)).
  { rewrite (current_updateStreak_state (updateStreak_state s date)).
    rewrite lastDate_updateStreak_state, diffDays_div.
    replace (date - date) with 0 by lia. reflexivity. }
  apply Streak_eq.
  - exact Hc.
  - rewrite (longest_updateStreak_state (updateStreak_state s date)), Hc.
    rewrite longest_updateStreak_state. lia.
  - reflexivity.
Qed.

(** The update that follows another one for the same user starts from the
    object the first one wrote. *)
Lemma updateStreak_next (kv : gmap string Streak) (userId : string) (d d' : Time) :
  snd (updateStreak (fst (updateStreak kv userId d)) userId d') =
  updateStreak_state (snd (updateStreak kv userId d)) d'.
Proof. unfold updateStreak. cbn [fst snd]. now rewrite lookup_insert_eq. Qed.

Lemma updateStreak_new (kv : gmap string Streak) (userId : string) (d : Time) :
  kv !! getUserKey userId "streak" = None ->
  snd (updateStreak kv userId d) = updateStreak_state noStreak d.
Proof. intros H. unfold updateStreak. cbn [snd]. now rewrite H. Qed.

Lemma five_days (s : Streak) (d0 : Z) :
  current s = 0 ->
  lastDate s = None \/ lastDate s = Some (MakeDate (d0 - 1) 0) ->
  let s5 :=
    foldl updateStreak_state s
      [MakeDate d0 0; MakeDate (d0 + 1) 0; MakeDate (d0 + 2) 0;
       MakeDate (d0 + 3) 0; MakeDate (d0 + 4) 0] in
  current s5 = 5 /\ longest s5 = Z.max (longest s) 5.
Proof.
  intros Hc Hl. cbn [foldl].
  set (s1 := updateStreak_state s (MakeDate d0 0)).
  assert (H1 : current s1 = 1).
  { subst s1. rewrite current_updateStreak_state.
    destruct Hl as [-> | ->]; [reflexivity|].
    rewrite diffDays_midnights. replace (d0 - (d0 - 1)) with 1 by lia.
    rewrite Hc. reflexivity. }
  assert (Hstep : forall (t : Streak) (d : Z),
             lastDate t = Some (MakeDate d 0) ->
             current (updateStreak_state t (MakeDate (d + 1) 0)) = current t + 1).
  { intros t d Ht. rewrite current_updateStreak_state, Ht, diffDays_midnights.
    replace (d + 1 - d) with 1 by lia. reflexivity. }
  set (s2 := updateStreak_state s1 (MakeDate (d0 + 1) 0)).
  assert (H2 : current s2 = 2).
  { subst s2. rewrite Hstep by reflexivity. lia. }
  set (s3 := updateStreak_state s2 (MakeDate (d0 + 2) 0)).
  assert (H3 : current s3 = 3).
  { subst s3. replace (d0 + 2) with (d0 + 1 + 1) by lia.
    rewrite Hstep by reflexivity. lia. }
  set (s4 := updateStreak_state s3 (MakeDate (d0 + 3) 0)).
  assert (H4 : current s4 = 4).
  { subst s4. replace (d0 + 3) with (d0 + 2 + 1) by lia.
    rewrite Hstep by reflexivity. lia. }
  set (s5 := updateStreak_state s4 (MakeDate (d0 + 4) 0)).
  assert (H5 : current s5 = 5).
  { subst s5. replace (d0 + 4) with (d0 + 3 + 1) by lia.
    rewrite Hstep by reflexivity. lia. }
  split; [exact H5|].
  pose proof (longest_updateStreak_state s (MakeDate d0 0)) as L1. fold s1 in L1.
  pose proof (longest_updateStreak_state s1 (MakeDate (d0 + 1) 0)) as L2. fold s2 in L2.
  pose proof (longest_updateStreak_state s2 (MakeDate (d0 + 2) 0)) as L3. fold s3 in L3.
  pose proof (longest_updateStreak_state s3 (MakeDate (d0 + 3) 0)) as L4. fold s4 in L4.
  pose proof (longest_updateStreak_state s4 (MakeDate (d0 + 4) 0)) as L5. fold s5 in L5.
  lia.
Qed.

(** C2: on a first event the run is 1, on the next day it grows by 1, after
    a gap of more than a day it restarts at 1 whatever it was; five updates
    on five days in a row, from a run of 0, give a run of 5 and a longest
    run of at least 5 (from any state without a last date or whose last
    date is the day before, and through the store for a new user who checks
    in on five days in a row). *)
Theorem updateStreak_rule :
  (forall (s : Streak) (date : Time),
      lastDate s = None -> current (updateStreak_state s date) = 1) /\
  (forall (s : Streak) (date last : Time),
      lastDate s = Some last -> diffDays date last = 1 ->
      current (updateStreak_state s date) = current s + 1) /\
  (forall (s : Streak) (date last : Time),
      lastDate s = Some last -> 1 < diffDays date last ->
      current (updateStreak_state s date) = 1) /\
  (forall (s : Streak) (d0 : Z),
      current s = 0 ->
      lastDate s = None \/ lastDate s = Some (MakeDate (d0 - 1) 0) ->
      let s5 :=
        foldl updateStreak_state s
          [MakeDate d0 0; MakeDate (d0 + 1) 0; MakeDate (d0 + 2) 0;
           MakeDate (d0 + 3) 0; MakeDate (d0 + 4) 0] in
      current s5 = 5 /\ 5 <= longest s5) /\
  (forall (kv : gmap string Streak) (userId : string) (now : Time),
      kv !! getUserKey userId "streak" = None ->
      let day (i : Z) := checkinDate (now + i * msPerDay) in
      let kv1 := fst (updateStreak kv userId (day 0)) in
      let kv2 := fst (updateStreak kv1 userId (day 1)) in
      let kv3 := fst (updateStreak kv2 userId (day 2)) in
      let kv4 := fst (updateStreak kv3 userId (day 3)) in
      let s5 := snd (updateStreak kv4 userId (day 4)) in
      current s5 = 5 /\ longest s5 = 5).
Proof.
  split; [|split; [|split; [|split]]].
  - intros s date H. rewrite current_updateStreak_state, H. reflexivity.
  - intros s date last H Hd. rewrite current_updateStreak_state, H, Hd. reflexivity.
  - intros s date last H Hd. rewrite current_updateStreak_state, H.
    destruct (diffDays date last =? 1) eqn:E1; [apply Z.eqb_eq in E1; lia|].
    destruct (1 <? diffDays date last) eqn:E2; [reflexivity|].
    apply Z.ltb_ge in E2. lia.
  - intros s d0 Hc Hl s5.
    destruct (five_days s d0 Hc Hl) as [H5 HL]. fold s5 in H5, HL. lia.
  - intros kv userId now Hnone day kv1 kv2 kv3 kv4 s5.
    assert (Hday : forall i, day i = MakeDate (Day now + i) 0).
    { intros i. unfold day. rewrite checkinDate_midnight, Day_plus_days. reflexivity. }
    assert (Hs5 : s5 =
              foldl updateStreak_state noStreak
                [MakeDate (Day now) 0; MakeDate (Day now + 1) 0; MakeDate (Day now + 2) 0;
                 MakeDate (Day now + 3) 0; MakeDate (Day now + 4) 0]).
    { subst s5 kv4 kv3 kv2 kv1. rewrite !updateStreak_next.
      rewrite (updateStreak_new kv userId _ Hnone), !Hday.
      replace (Day now + 0) with (Day now) by lia. reflexivity. }
    rewrite Hs5.
    destruct (five_days noStreak (Day now) eq_refl (or_introl eq_refl)) as [H5 HL].
    split; [exact H5|]. rewrite HL. reflexivity.
Qed.

Lemma updateStreak_rule_witness :
  current (updateStreak_state {| current := 9; longest := 12;
                                 lastDate := Some (Date_UTC 2024 5 1) |}
             (Date_UTC 2024 5 4)) = 1.
Proof.
  apply (proj1 (proj2 (proj2 updateStreak_rule)) _ (Date_UTC 2024 5 4) (Date_UTC 2024 5 1)).
  - reflexivity.
  - vm_compute. reflexivity.
Defined.

(** C6: the invariant holds for the object of a new user and every update
    keeps it, on the object and on the whole store, for the server and for
    the shim; the longest run after an update is the larger of the longest
    run before and the run after. *)
Theorem streak_invariant :
  StreakInv noStreak /\
  (forall (s : Streak) (date : Time),
      StreakInv s -> StreakInv (updateStreak_state s date)) /\
  (forall (s : Streak) (date : Time),
      longest (updateStreak_state s date) =
      Z.max (longest s) (current (updateStreak_state s date))) /\
  (forall (kv : gmap string Streak) (userId : string) (date : Time),
      map_Forall (fun _ s => StreakInv s) kv ->
      StreakInv (snd (updateStreak kv userId date)) /\
      map_Forall (fun _ s => StreakInv s) (fst (updateStreak kv userId date))) /\
  (forall (localStorage : gmap string Streak) (userId : string) (date : Time),
      map_Forall (fun _ s => StreakInv s) localStorage ->
      StreakInv (snd (api_updateStreak localStorage userId date)) /\
      map_Forall (fun _ s => StreakInv s) (fst (api_updateStreak localStorage userId date))).
Proof.
  assert (Hread : forall (m : gmap string Streak) (k : string),
             map_Forall (fun _ s => StreakInv s) m ->
             StreakInv (default noStreak (m !! k))).
  { intros m k Hm. destruct (m !! k) as [s|] eqn:E; cbn [default].
    - exact (Hm k s E).
    - unfold StreakInv, noStreak; simpl; lia. }
  split; [unfold StreakInv, noStreak; simpl; lia|].
  split; [exact StreakInv_updateStreak_state|].
  split; [exact longest_updateStreak_state|].
  split.
  - intros kv userId date Hkv.
    assert (Hs : StreakInv (snd (updateStreak kv userId date))).
    { cbn [updateStreak snd]. apply StreakInv_updateStreak_state, Hread, Hkv. }
    split; [exact Hs|].
    cbn [updateStreak fst]. apply map_Forall_insert_2; [exact Hs | exact Hkv].
  - intros ls userId date Hls.
    assert (Hs : StreakInv (snd (api_updateStreak ls userId date))).
    { rewrite api_updateStreak_state. apply StreakInv_updateStreak_state, Hread, Hls. }
    split; [exact Hs|].
    apply map_Forall_insert_2; [exact Hs | exact Hls].
Qed.

Lemma streak_invariant_witness :
  StreakInv (updateStreak_state noStreak (Date_UTC 2024 1 1)).
Proof.
  apply (proj1 (proj2 streak_invariant) noStreak (Date_UTC 2024 1 1)).
  unfold StreakInv, noStreak; simpl; lia.
Defined.

(** C7: a second update with the same date changes nothing, on the object
    and on the store; the difference in days it sees is 0. *)
Theorem updateStreak_idempotent :
  (forall (s : Streak) (date : Time),
      updateStreak_state (updateStreak_state s date) date = updateStreak_state s date) /\
  (forall date : Time, diffDays date date = 0) /\
  (forall (kv : gmap string Streak) (userId : string) (date : Time),
      updateStreak (fst (updateStreak kv userId date)) userId date =
      updateStreak kv userId date).
Proof.
  split; [exact updateStreak_state_twice|].
  split.
  - intros date. rewrite diffDays_div. replace (date - date) with 0 by lia. reflexivity.
  - intros kv userId date. unfold updateStreak. cbn [fst].
    rewrite lookup_insert_eq.
    change (default noStreak (Some ?x)) with x.
    rewrite updateStreak_state_twice, insert_insert_eq. reflexivity.
Qed.

(** C10: an update dated before the last recorded date leaves the run
    alone, leaves the longest run alone in a state that satisfies the
    invariant (it is the larger of the two in any state), and records the
    earlier date as the last one. *)
Theorem updateStreak_out_of_order (s : Streak) (date last : Time) :
  lastDate s = Some last ->
  date < last ->
  let s' := updateStreak_state s date in
  diffDays date last < 0 /\
  current s' = current s /\
  longest s' = Z.max (longest s) (current s) /\
  (current s <= longest s -> longest s' = longest s) /\
  lastDate s' = Some date.
Proof.
  intros Hl Hlt s'.
  assert (Hd : diffDays date last < 0).
  { rewrite diffDays_div. unfold msPerDay. lia. }
  assert (Hc : current s' = current s).
  { subst s'. rewrite current_updateStreak_state, Hl.
    destruct (diffDays date last =? 1) eqn:E1; [apply Z.eqb_eq in E1; lia|].
    destruct (1 <? diffDays date last) eqn:E2; [apply Z.ltb_lt in E2; lia|].
    reflexivity. }
  split; [exact Hd|]. split; [exact Hc|].
  pose proof (longest_updateStreak_state s date) as Hmax. fold s' in Hmax.
  split; [now rewrite Hmax, Hc|].
  split; [|reflexivity].
  intros Hinv. lia.
Qed.

Lemma updateStreak_out_of_order_witness :
  let s := {| current := 3; longest := 7; lastDate := Some (Date_UTC 2024 3 10) |} in
  let s' := updateStreak_state s (Date_UTC 2024 3 8) in
  current s' = 3 /\ longest s' = 7 /\ lastDate s' = Some (Date_UTC 2024 3 8).
Proof.
  intros s s'.
  destruct (updateStreak_out_of_order s (Date_UTC 2024 3 8) (Date_UTC 2024 3 10))
    as (_ & Hc & _ & Hl & Hd).
  - reflexivity.
  - vm_compute. reflexivity.
  - split; [exact Hc|]. split; [|exact Hd]. apply Hl. simpl. lia.
Defined.

(* ===================================================================== *)
(** * The cycle predictor: proofs *)
(* ===================================================================== *)

Section Sorting.

Context {A : Type} (cmp : A -> A -> option Z).

Lemma sort_insert_Permutation (x : A) (l : list A) :
  Permutation (sort_insert cmp x l) (x :: l).
Proof.
  induction l as [|y l IH]; simpl.
  - reflexivity.
  - destruct (default 0 (cmp x y) <=? 0).
    + reflexivity.
    + rewrite IH. apply perm_swap.
Qed.

Lemma Array_sort_Permutation (l : list A) : Permutation (Array_sort cmp l) l.
Proof.
  induction l as [|x l IH]; simpl.
  - reflexivity.
  - rewrite sort_insert_Permutation. now apply perm_skip.
Qed.

Lemma Array_sort_nil (l : list A) : Array_sort cmp l = [] -> l = [].
Proof.
  intros H. apply Permutation_nil. rewrite <- H.
  apply Array_sort_Permutation.
Qed.

End Sorting.

(** ** Start dates that are valid *)

Lemma startTime_valid (p : Period) : validStart p -> startTime p = Some (timeOf p).
Proof.
  unfold validStart, timeOf. intros [t Ht]. now rewrite Ht.
Qed.

Lemma Date_new_valid (p : Period) :
  validStart p -> Date_new (startDate p) = Some (timeOf p).
Proof. exact (startTime_valid p). Qed.

Lemma validStart_range (p : Period) : validStart p -> Z.abs (timeOf p) <= maxTime.
Proof.
  intros H. pose proof (startTime_valid p H) as E.
  unfold startTime, getTime, Date_new in E.
  destruct (startDate p) as [t|]; [|discriminate].
  apply TimeClip_Some in E. destruct E as [-> E]. exact E.
Qed.

Lemma validStart_startDate (a b : Period) :
  validStart a -> validStart b -> timeOf a = timeOf b -> startDate a = startDate b.
Proof.
  intros Ha Hb E.
  pose proof (startTime_valid a Ha) as Ea. pose proof (startTime_valid b Hb) as Eb.
  unfold startTime, getTime, Date_new in Ea, Eb.
  destruct (startDate a) as [ta|]; [|discriminate].
  destruct (startDate b) as [tb|]; [|discriminate].
  apply TimeClip_Some in Ea, Eb. destruct Ea as [Ea _], Eb as [Eb _]. congruence.
Qed.

Lemma invalid_start (p : Period) : ~ validStart p -> Date_new (startDate p) = None.
Proof.
  unfold validStart, startTime, getTime. intros H.
  destruct (Date_new (startDate p)) as [t|]; [|reflexivity].
  exfalso. apply H. now exists t.
Qed.

Lemma byStartDateDesc_valid (a b : Period) :
  validStart a -> validStart b -> byStartDateDesc a b = Some (timeOf b - timeOf a).
Proof.
  intros Ha Hb. unfold byStartDateDesc, getTime.
  now rewrite (Date_new_valid a Ha), (Date_new_valid b Hb).
Qed.

Lemma Forall_Array_sort {A : Type} (P : A -> Prop) (cmp : A -> A -> option Z)
    (l : list A) :
  Forall P l -> Forall P (Array_sort cmp l).
Proof.
  rewrite !Forall_forall. intros H x Hx. apply H.
  apply list_elem_of_In. apply list_elem_of_In in Hx.
  apply (Permutation_in _ (Array_sort_Permutation cmp l)), Hx.
Qed.

Lemma sort_insert_sorted (x : Period) (l : list Period) :
  validStart x -> Forall validStart l ->
  StronglySorted laterFirst l ->
  StronglySorted laterFirst (sort_insert byStartDateDesc x l).
Proof.
  intros Hx Hv. induction 1 as [|y l Hs IH Hall]; simpl.
  - constructor; constructor.
  - apply List.Forall_cons_iff in Hv. destruct Hv as [Hy Hv].
    rewrite (byStartDateDesc_valid x y Hx Hy).
    change (default 0 (Some ?v)) with v.
    destruct (timeOf y - timeOf x <=? 0) eqn:E.
    + apply Z.leb_le in E.
      constructor; [constructor; assumption|].
      constructor; [unfold laterFirst; lia|].
      eapply Forall_impl; [exact Hall|].
      unfold laterFirst. intros z Hz. lia.
    + apply Z.leb_gt in E.
      constructor; [exact (IH Hv)|].
      rewrite (sort_insert_Permutation byStartDateDesc x l).
      constructor; [unfold laterFirst; lia | exact Hall].
Qed.

Lemma Array_sort_sorted (l : list Period) :
  Forall validStart l ->
  StronglySorted laterFirst (Array_sort byStartDateDesc l).
Proof.
  induction l as [|x l IH]; simpl; intros Hv.
  - constructor.
  - apply List.Forall_cons_iff in Hv. destruct Hv as [Hx Hv].
    apply sort_insert_sorted; [exact Hx | now apply Forall_Array_sort | exact (IH Hv)].
Qed.

(** ** The loop *)

(** The loop, started at any index, adds up the included differences of
    the rest of the array. *)
Lemma cycleStep_at (pre : list Period) (x y : Period) (l : list Period) (acc : Z * Z) :
  validStart x -> validStart y ->
  cycleStep (pre ++ x :: y :: l) acc (length pre) =
  if (0 <? (timeOf x - timeOf y) / msPerDay)
     && ((timeOf x - timeOf y) / msPerDay <? 60)
  then (fst acc + (timeOf x - timeOf y) / msPerDay, snd acc + 1)
  else acc.
Proof.
  intros Hx Hy. unfold cycleStep.
  rewrite list_lookup_middle by reflexivity.
  rewrite lookup_app_r by lia.
  replace (length pre + 1 - length pre)%nat with 1%nat by lia.
  cbn [lookup list_lookup].
  rewrite (Date_new_valid x Hx), (Date_new_valid y Hy).
  unfold getTime, JSNumber.sub.
  rewrite Math_floor_div by reflexivity. reflexivity.
Qed.

Lemma includedDiffs_cons2 (a b : Time) (l : list Time) :
  includedDiffs (a :: b :: l) =
  if (0 <? (a - b) / msPerDay) && ((a - b) / msPerDay <? 60)
  then (a - b) / msPerDay :: includedDiffs (b :: l)
  else includedDiffs (b :: l).
Proof.
  unfold includedDiffs. cbn [adjacentDiffs]. rewrite filter_cons.
  destruct (decide (0 < (a - b) / msPerDay < 60)) as [H|H];
    destruct (0 <? (a - b) / msPerDay) eqn:E1;
    destruct ((a - b) / msPerDay <? 60) eqn:E2; simpl; try reflexivity;
    try (apply Z.ltb_lt in E1); try (apply Z.ltb_ge in E1);
    try (apply Z.ltb_lt in E2); try (apply Z.ltb_ge in E2); lia.
Qed.

Lemma sumZ_cons (d : Z) (l : list Z) : sumZ (d :: l) = d + sumZ l.
Proof. reflexivity. Qed.

Lemma cycleTotals_from (l pre : list Period) (acc : Z * Z) :
  Forall validStart l ->
  foldl (cycleStep (pre ++ l)) acc (seq (length pre) (length l - 1)) =
  (fst acc + sumZ (includedDiffs (map timeOf l)),
   snd acc + Z.of_nat (length (includedDiffs (map timeOf l)))).
Proof.
  revert pre acc. induction l as [|x l IH]; intros pre acc Hv.
  - change (includedDiffs (map timeOf [])) with (@nil Z).
    destruct acc; cbn. f_equal; lia.
  - destruct l as [|y l].
    + change (includedDiffs (map timeOf [x])) with (@nil Z).
      destruct acc; cbn. f_equal; lia.
    + apply List.Forall_cons_iff in Hv. destruct Hv as [Hx Hv].
      pose proof (proj1 (proj1 (List.Forall_cons_iff _ _ _) Hv)) as Hy.
      replace (length (x :: y :: l) - 1)%nat with (S (length (y :: l) - 1)) by (simpl; lia).
      cbn [seq foldl]. rewrite (cycleStep_at pre x y l acc Hx Hy).
      replace (pre ++ x :: y :: l) with ((pre ++ [x]) ++ y :: l)
        by (now rewrite <- app_assoc).
      replace (S (length pre)) with (length (pre ++ [x]))
        by (rewrite length_app; simpl; lia).
      rewrite (IH _ _ Hv).
      cbn [map]. rewrite includedDiffs_cons2.
      destruct ((0 <? (timeOf x - timeOf y) / msPerDay)
                && ((timeOf x - timeOf y) / msPerDay <? 60)).
      * rewrite sumZ_cons. cbn [fst snd length]. f_equal; lia.
      * reflexivity.
Qed.

Lemma cycleTotals_spec (periods : list Period) :
  Forall validStart periods ->
  cycleTotals periods =
  (sumZ (includedDiffs (map timeOf periods)),
   Z.of_nat (length (includedDiffs (map timeOf periods)))).
Proof.
  intros Hv. unfold cycleTotals.
  apply (cycleTotals_from periods [] (0, 0) Hv).
Qed.

(** Whatever the start dates, every difference the loop adds lies
    strictly between 0 and 60. *)
Lemma cycleStep_bounds (periods : list Period) (acc : Z * Z) (i : nat) :
  0 <= snd acc /\ snd acc <= fst acc <= 59 * snd acc ->
  0 <= snd (cycleStep periods acc i) /\
  snd (cycleStep periods acc i) <= fst (cycleStep periods acc i)
    <= 59 * snd (cycleStep periods acc i).
Proof.
  intros H. unfold cycleStep.
  destruct (periods !! i) as [current|]; [|exact H].
  destruct (periods !! (i + 1)%nat) as [previous|]; [|exact H].
  destruct (JSNumber.sub _ _) as [diffTime|]; [|exact H].
  set (diff := JSNumber.Math_floor _).
  destruct (0 <? diff) eqn:E1; [|exact H].
  destruct (diff <? 60) eqn:E2; [|exact H].
  apply Z.ltb_lt in E1, E2. cbn [andb fst snd]. lia.
Qed.

Lemma cycleTotals_bounds (periods : list Period) :
  0 <= snd (cycleTotals periods) /\
  snd (cycleTotals periods) <= fst (cycleTotals periods) <= 59 * snd (cycleTotals periods).
Proof.
  unfold cycleTotals.
  assert (H : forall (idx : list nat) (acc : Z * Z),
             0 <= snd acc /\ snd acc <= fst acc <= 59 * snd acc ->
             0 <= snd (foldl (cycleStep periods) acc idx) /\
             snd (foldl (cycleStep periods) acc idx)
               <= fst (foldl (cycleStep periods) acc idx)
               <= 59 * snd (foldl (cycleStep periods) acc idx)).
  { induction idx as [|i idx IH]; intros acc Hacc; [exact Hacc|].
    cbn [foldl]. apply IH, cycleStep_bounds, Hacc. }
  apply H. cbn [fst snd]. lia.
Qed.

(** [Math.round] of a mean of numbers from 1 to 59 is such a number. *)
Lemma rounded_mean_range (total count : Z) :
  0 < count -> count <= total <= 59 * count ->
  1 <= JSNumber.Math_round (JSNumber.div total count) <= 59.
Proof.
  intros Hc Ht. rewrite Math_round_div by exact Hc. split.
  - apply Z.div_le_lower_bound; lia.
  - apply Z.lt_succ_r. apply Z.div_lt_upper_bound; lia.
Qed.

Lemma included_range (starts : list Time) (d : Z) :
  In d (includedDiffs starts) -> 0 < d < 60.
Proof.
  unfold includedDiffs. intros H.
  apply list_elem_of_In, list_elem_of_filter in H. tauto.
Qed.

(** The average the handler computes is the one of the specification. *)
Lemma average_spec (starts : list Time) :
  (if 0 <? Z.of_nat (length (includedDiffs starts))
   then JSNumber.Math_round
          (JSNumber.div (sumZ (includedDiffs starts))
             (Z.of_nat (length (includedDiffs starts))))
   else 28) = spec_average starts.
Proof.
  unfold spec_average.
  destruct (includedDiffs starts) as [|d ds] eqn:E.
  - reflexivity.
  - replace (0 <? Z.of_nat (length (d :: ds))) with true
      by (symmetry; apply Z.ltb_lt; simpl; lia).
    rewrite Math_round_div by (simpl; lia). reflexivity.
Qed.

(** The rounded mean is the integer nearest to the mean, the upper one
    when the mean lies half way between two. *)
Lemma roundedMean_nearest (ds : list Z) :
  ds <> [] ->
  2 * sumZ ds - Z.of_nat (length ds)
    < 2 * Z.of_nat (length ds) * roundedMean ds
    <= 2 * sumZ ds + Z.of_nat (length ds).
Proof.
  intros Hne. unfold roundedMean.
  assert (Hn : 0 < Z.of_nat (length ds)) by (destruct ds; [congruence | simpl; lia]).
  set (n := Z.of_nat (length ds)) in *.
  pose proof (Z.div_mod (2 * sumZ ds + n) (2 * n) ltac:(lia)) as Hd.
  pose proof (Z.mod_pos_bound (2 * sumZ ds + n) (2 * n) ltac:(lia)) as Hm.
  nia.
Qed.

Lemma sumZ_bounds (ds : list Z) :
  (forall d, In d ds -> 0 < d < 60) ->
  Z.of_nat (length ds) <= sumZ ds <= 59 * Z.of_nat (length ds).
Proof.
  induction ds as [|d ds IH]; intros Hall.
  - cbn. lia.
  - rewrite sumZ_cons. cbn [length].
    pose proof (Hall d (or_introl eq_refl)).
    assert (Z.of_nat (length ds) <= sumZ ds <= 59 * Z.of_nat (length ds))
      by (apply IH; intros e He; apply Hall; now right).
    lia.
Qed.

Lemma spec_average_range (starts : list Time) : 1 <= spec_average starts <= 59.
Proof.
  rewrite <- average_spec.
  pose proof (sumZ_bounds (includedDiffs starts) (included_range starts)) as Hb.
  destruct (0 <? Z.of_nat (length (includedDiffs starts))) eqn:E; [|lia].
  apply Z.ltb_lt in E. now apply rounded_mean_range.
Qed.

(** ** The answer *)

(** For start dates that are valid the handler answers with the date that
    [setDate] gives for the latest start and the average of the
    specification, or with the error when that date is invalid. *)
Lemma predictNextCycle_sorted (LocalTZA : Z -> bool -> Z) (now : Time)
    (periods : list Period) :
  periods <> [] ->
  Forall validStart periods ->
  exists (lastPeriod : Period) (rest : list Period),
    Array_sort byStartDateDesc periods = lastPeriod :: rest /\
    predictNextCycle LocalTZA now periods =
    match TimeClip (UTC LocalTZA
                      (LocalTime LocalTZA (timeOf lastPeriod)
                       + spec_average (map timeOf (lastPeriod :: rest)) * msPerDay)) with
    | Some next =>
        Ok200 (lastPeriod :: rest)
          (Some {| nextPeriodDate := toISODate next;
                   averageCycleLength := spec_average (map timeOf (lastPeriod :: rest));
                   daysUntilNext := (next - now) / msPerDay |})
    | None => Error500 "Failed to get period data"
    end.
Proof.
  intros Hne Hv. unfold predictNextCycle.
  destruct periods as [|p0 ps]; [congruence|].
  cbn [length Nat.eqb].
  pose proof (Forall_Array_sort validStart byStartDateDesc (p0 :: ps) Hv) as Hvs.
  destruct (Array_sort byStartDateDesc (p0 :: ps)) as [|lastPeriod rest] eqn:Es.
  { apply Array_sort_nil in Es. congruence. }
  exists lastPeriod, rest. split; [reflexivity|].
  rewrite (cycleTotals_spec _ Hvs), average_spec.
  cbn [lookup list_lookup].
  pose proof (proj1 (proj1 (List.Forall_cons_iff _ _ _) Hvs)) as Hl.
  rewrite (Date_new_valid lastPeriod Hl).
  unfold getTime. cbn [Date_new].
  rewrite (TimeClip_in_range _ (validStart_range lastPeriod Hl)).
  rewrite setDate_getDate_plus.
  destruct (TimeClip _) as [next|]; [|reflexivity].
  cbn [Date_toISODate].
  rewrite Math_floor_div by reflexivity. reflexivity.
Qed.

(** In a zone with a fixed offset the date is the latest start and as many
    days as the average says; the answer is the error when it lies past
    the end of the range. *)
Lemma predictNextCycle_nonempty (LocalTZA : Z -> bool -> Z) (now : Time)
    (periods : list Period) :
  periods <> [] ->
  Forall validStart periods ->
  fixedOffset LocalTZA ->
  exists (lastPeriod : Period) (rest : list Period),
    Array_sort byStartDateDesc periods = lastPeriod :: rest /\
    predictNextCycle LocalTZA now periods =
    let average := spec_average (map timeOf (lastPeriod :: rest)) in
    let next := timeOf lastPeriod + average * msPerDay in
    if next <=? maxTime then
      Ok200 (lastPeriod :: rest)
        (Some {| nextPeriodDate := toISODate next;
                 averageCycleLength := average;
                 daysUntilNext := (next - now) / msPerDay |})
    else Error500 "Failed to get period data".
Proof.
  intros Hne Hv [offset Hz].
  destruct (predictNextCycle_sorted LocalTZA now periods Hne Hv)
    as (lastPeriod & rest & Es & Hp).
  exists lastPeriod, rest. split; [exact Es|]. rewrite Hp. cbv zeta.
  pose proof (Forall_Array_sort validStart byStartDateDesc periods Hv) as Hvs.
  rewrite Es in Hvs.
  pose proof (validStart_range lastPeriod
                (proj1 (proj1 (List.Forall_cons_iff _ _ _) Hvs))) as Hr.
  pose proof (spec_average_range (map timeOf (lastPeriod :: rest))) as Ha.
  set (average := spec_average (map timeOf (lastPeriod :: rest))) in *.
  unfold UTC, LocalTime. rewrite !Hz.
  replace (timeOf lastPeriod + offset + average * msPerDay - offset)
    with (timeOf lastPeriod + average * msPerDay) by lia.
  assert (Hlow : - maxTime <= timeOf lastPeriod + average * msPerDay)
    by (unfold msPerDay; lia).
  destruct (timeOf lastPeriod + average * msPerDay <=? maxTime) eqn:E.
  - apply Z.leb_le in E. rewrite TimeClip_in_range by lia. reflexivity.
  - apply Z.leb_gt in E. rewrite TimeClip_out_of_range by lia. reflexivity.
Qed.

(** The latest start is the first of the sorted array. *)
Lemma sorted_latest (periods : list Period) (lastPeriod : Period) (rest : list Period) :
  Forall validStart periods ->
  Array_sort byStartDateDesc periods = lastPeriod :: rest ->
  Permutation (lastPeriod :: rest) periods /\
  StronglySorted laterFirst (lastPeriod :: rest) /\
  (forall e : Period, In e periods -> timeOf e <= timeOf lastPeriod).
Proof.
  intros Hv Es.
  pose proof (Array_sort_Permutation byStartDateDesc periods) as Hperm.
  pose proof (Array_sort_sorted periods Hv) as Hsorted.
  rewrite Es in Hperm, Hsorted.
  split; [exact Hperm|]. split; [exact Hsorted|].
  intros e He.
  apply (Permutation_in _ (Permutation_sym Hperm)) in He.
  inversion Hsorted as [|? ? _ Hall]; subst.
  destruct He as [<- | He]; [lia|].
  rewrite Forall_forall in Hall. apply (Hall e), list_elem_of_In, He.
Qed.

Lemma predictedTime_sorted (periods : list Period) (lastPeriod : Period)
    (rest : list Period) :
  Array_sort byStartDateDesc periods = lastPeriod :: rest ->
  predictedTime periods =
  timeOf lastPeriod + spec_average (map timeOf (lastPeriod :: rest)) * msPerDay.
Proof.
  intros Es. unfold predictedTime, sortedStarts. now rewrite Es.
Qed.

(** In a zone with a fixed offset the answer is the one of UTC. *)
Lemma predictNextCycle_fixedOffset (LocalTZA : Z -> bool -> Z) (now : Time)
    (periods : list Period) :
  Forall validStart periods ->
  fixedOffset LocalTZA ->
  predictNextCycle LocalTZA now periods = predictNextCycle utc now periods.
Proof.
  intros Hv Hz. destruct periods as [|p0 ps]; [reflexivity|].
  assert (Hne : p0 :: ps <> []) by discriminate.
  assert (Hu : fixedOffset utc) by (now exists 0).
  destruct (predictNextCycle_nonempty LocalTZA now _ Hne Hv Hz) as (a & r & Es & ->).
  destruct (predictNextCycle_nonempty utc now _ Hne Hv Hu) as (a' & r' & Es' & ->).
  rewrite Es in Es'. now injection Es' as <- <-.
Qed.

Lemma threePeriods_valid : Forall validStart threePeriods.
Proof. repeat constructor; now eexists. Qed.

Lemma periodsWithGap_valid : Forall validStart periodsWithGap.
Proof. repeat constructor; now eexists. Qed.

(** C3: for a list of periods that is not empty and whose start dates are
    valid dates, in a zone with a fixed offset (the server runs in UTC),
    the handler sorts the periods by start date, latest first, takes as
    average the rounded mean of the differences of adjacent start dates
    that lie strictly between 0 and 60 days (28 when there is none; the
    rounded mean being the integer nearest to the mean) and as next date
    the latest start date plus that many days; it answers with these when
    the next date lies within the range of [Date], and with the error of
    its [catch] when it lies past the end.  A gap of 90 days does not
    enter the average; periods starting on 2024-01-01, 2024-01-29 and
    2024-02-26 give the average 28 and the date 2024-03-25. *)
Theorem predictNextCycle_rule :
  (forall (LocalTZA : Z -> bool -> Z) (now : Time) (periods : list Period),
      periods <> [] ->
      Forall validStart periods ->
      fixedOffset LocalTZA ->
      exists (lastPeriod : Period) (rest : list Period),
        Array_sort byStartDateDesc periods = lastPeriod :: rest /\
        Permutation (lastPeriod :: rest) periods /\
        StronglySorted laterFirst (lastPeriod :: rest) /\
        (forall e : Period, In e periods -> timeOf e <= timeOf lastPeriod) /\
        let average := spec_average (map timeOf (lastPeriod :: rest)) in
        let next := timeOf lastPeriod + average * msPerDay in
        (next <= maxTime ->
         predictNextCycle LocalTZA now periods =
           Ok200 (lastPeriod :: rest)
             (Some {| nextPeriodDate := toISODate next;
                      averageCycleLength := average;
                      daysUntilNext := (next - now) / msPerDay |}) /\
         toISODate next =
           formatDate (civil_from_days (Day (timeOf lastPeriod) + average))) /\
        (maxTime < next ->
         predictNextCycle LocalTZA now periods = Error500 "Failed to get period data")) /\
  (forall (starts : list Time) (d : Z), In d (includedDiffs starts) -> 0 < d < 60) /\
  (forall ds : list Z,
      ds <> [] ->
      2 * sumZ ds - Z.of_nat (length ds)
        < 2 * Z.of_nat (length ds) * roundedMean ds
        <= 2 * sumZ ds + Z.of_nat (length ds)) /\
  (forall (LocalTZA : Z -> bool -> Z) (now : Time),
      fixedOffset LocalTZA ->
      averageCycleLength <$> prediction (predictNextCycle LocalTZA now threePeriods)
        = Some 28 /\
      nextPeriodDate <$> prediction (predictNextCycle LocalTZA now threePeriods)
        = Some "2024-03-25") /\
  (forall (LocalTZA : Z -> bool -> Z) (now : Time),
      fixedOffset LocalTZA ->
      adjacentDiffs (sortedStarts periodsWithGap) = [90; 28] /\
      includedDiffs (sortedStarts periodsWithGap) = [28] /\
      averageCycleLength <$> prediction (predictNextCycle LocalTZA now periodsWithGap)
        = Some 28).
Proof.
  split; [|split; [exact included_range|split; [exact roundedMean_nearest|split]]].
  - intros LocalTZA now periods Hne Hv Hz.
    destruct (predictNextCycle_nonempty LocalTZA now periods Hne Hv Hz)
      as (lastPeriod & rest & Es & Hp).
    destruct (sorted_latest periods lastPeriod rest Hv Es) as (Hperm & Hsorted & Hmax).
    exists lastPeriod, rest. split; [exact Es|].
    split; [exact Hperm|]. split; [exact Hsorted|]. split; [exact Hmax|].
    cbv zeta in Hp |- *. split.
    + intros Hin. apply Z.leb_le in Hin. rewrite Hin in Hp. split; [exact Hp|].
      unfold toISODate. now rewrite Day_plus_days.
    + intros Hout. apply Z.leb_gt in Hout. now rewrite Hout in Hp.
  - intros LocalTZA now Hz.
    rewrite (predictNextCycle_fixedOffset LocalTZA now _ threePeriods_valid Hz).
    split; vm_compute; reflexivity.
  - intros LocalTZA now Hz.
    rewrite (predictNextCycle_fixedOffset LocalTZA now _ periodsWithGap_valid Hz).
    split; [|split]; vm_compute; reflexivity.
Qed.

Lemma predictNextCycle_rule_witness :
  exists (lastPeriod : Period) (rest : list Period),
    Array_sort byStartDateDesc [periodOn 2024 2 26; periodOn 2024 1 29]
      = lastPeriod :: rest /\
    predictNextCycle utc 0 [periodOn 2024 2 26; periodOn 2024 1 29] =
      Ok200 (lastPeriod :: rest)
        (Some {| nextPeriodDate := "2024-03-25";
                 averageCycleLength := 28;
                 daysUntilNext := 19807 |}).
Proof.
  destruct (proj1 predictNextCycle_rule utc 0 [periodOn 2024 2 26; periodOn 2024 1 29])
    as (lastPeriod & rest & Es & _ & _ & _ & Hin & _).
  - discriminate.
  - repeat constructor; now eexists.
  - now exists 0.
  - exists lastPeriod, rest. split; [exact Es|].
    vm_compute in Es. injection Es as <- <-.
    apply Hin. vm_compute. discriminate.
Defined.

(** The rule of the specification fails at the end of the range of
    [Date]: two periods 28 days apart, the later on the last day of the
    range, give the average 28, but no next date: the handler answers with
    the error. *)
Lemma predictNextCycle_rule_counterexample :
  periodsAtTheEnd <> [] /\
  Forall validStart periodsAtTheEnd /\
  sortedStarts periodsAtTheEnd = [Date_UTC 275760 9 13; Date_UTC 275760 8 16] /\
  spec_average (sortedStarts periodsAtTheEnd) = 28 /\
  predictNextCycle utc 0 periodsAtTheEnd = Error500 "Failed to get period data" /\
  prediction (predictNextCycle utc 0 periodsAtTheEnd) = None.
Proof.
  split; [discriminate|].
  split; [repeat constructor; now eexists|].
  repeat split; vm_compute; reflexivity.
Qed.

(** The date of the example depends on the zone: where summer time begins
    between the latest start and the next date, [setDate] keeps the local
    time of day and the date in UTC is the day before. *)
Remark prediction_in_a_zone_with_summer_time :
  nextPeriodDate <$> prediction (predictNextCycle zoneWithSummerTime 0 threePeriods)
  = Some "2024-03-24".
Proof. vm_compute. reflexivity. Qed.

(** C8: the prediction is [null] for the empty list and only for it.  For
    a list that is not empty and whose start dates are valid dates (in a
    zone with a fixed offset) the handler answers with a prediction when
    the predicted date lies within the range of [Date], and with the
    error of its [catch], without prediction, when it lies past the end;
    it answers with the error too when no start date is a valid date. *)
Theorem predictNextCycle_null (LocalTZA : Z -> bool -> Z) (now : Time)
    (periods : list Period) :
  (periods = [] -> predictNextCycle LocalTZA now periods = Ok200 [] None) /\
  (forall sorted : list Period,
      predictNextCycle LocalTZA now periods = Ok200 sorted None -> periods = []) /\
  (periods <> [] ->
   Forall validStart periods ->
   fixedOffset LocalTZA ->
   (predictedTime periods <= maxTime ->
    exists p : Prediction,
      predictNextCycle LocalTZA now periods =
      Ok200 (Array_sort byStartDateDesc periods) (Some p)) /\
   (maxTime < predictedTime periods ->
    predictNextCycle LocalTZA now periods = Error500 "Failed to get period data")) /\
  (periods <> [] ->
   Forall (fun p : Period => ~ validStart p) periods ->
   predictNextCycle LocalTZA now periods = Error500 "Failed to get period data").
Proof.
  split; [intros ->; reflexivity|]. split; [|split].
  - intros sorted H. destruct periods as [|p0 ps]; [reflexivity|]. exfalso.
    unfold predictNextCycle in H. cbn [length Nat.eqb] in H.
    destruct (cycleTotals _) as [total count].
    destruct (_ !! 0%nat) as [lastPeriod|]; [|discriminate].
    destruct (Date_toISODate _) as [isoDate|]; [|discriminate].
    destruct (getTime _) as [nextTime|]; discriminate.
  - intros Hne Hv Hz.
    destruct (predictNextCycle_nonempty LocalTZA now periods Hne Hv Hz)
      as (lastPeriod & rest & Es & Hp).
    rewrite (predictedTime_sorted periods lastPeriod rest Es), Es.
    cbv zeta in Hp. split.
    + intros Hin. apply Z.leb_le in Hin. rewrite Hin in Hp. eexists. exact Hp.
    + intros Hout. apply Z.leb_gt in Hout. now rewrite Hout in Hp.
  - intros Hne Hv. unfold predictNextCycle.
    destruct periods as [|p0 ps]; [congruence|]. cbn [length Nat.eqb].
    pose proof (Forall_Array_sort _ byStartDateDesc (p0 :: ps) Hv) as Hvs.
    destruct (Array_sort byStartDateDesc (p0 :: ps)) as [|lastPeriod rest] eqn:Es.
    { apply Array_sort_nil in Es. congruence. }
    destruct (cycleTotals _) as [total count]. cbn [lookup list_lookup].
    rewrite (invalid_start lastPeriod
               (proj1 (proj1 (List.Forall_cons_iff _ _ _) Hvs))).
    reflexivity.
Qed.

Lemma predictNextCycle_null_witness :
  predictNextCycle utc 0 [] = Ok200 [] None /\
  (exists p : Prediction,
     predictNextCycle utc 0 [periodOn 2024 1 1] = Ok200 [periodOn 2024 1 1] (Some p)) /\
  predictNextCycle utc 0 [periodWithoutDate] = Error500 "Failed to get period data".
Proof.
  split; [|split].
  - apply (proj1 (predictNextCycle_null utc 0 [])). reflexivity.
  - apply (proj1 (proj2 (proj2 (predictNextCycle_null utc 0 [periodOn 2024 1 1])))).
    + discriminate.
    + repeat constructor; now eexists.
    + now exists 0.
    + vm_compute. discriminate.
  - apply (proj2 (proj2 (proj2 (predictNextCycle_null utc 0 [periodWithoutDate])))).
    + discriminate.
    + repeat constructor. intros [t Ht]. discriminate.
Defined.

(** A list that is not empty and gets no prediction: one period on the
    last day of the range of [Date]. *)
Lemma predictNextCycle_null_counterexample :
  periodOnTheLastDay <> [] /\
  Forall validStart periodOnTheLastDay /\
  predictNextCycle utc 0 periodOnTheLastDay = Error500 "Failed to get period data" /\
  prediction (predictNextCycle utc 0 periodOnTheLastDay) = None.
Proof.
  split; [discriminate|].
  split; [repeat constructor; now eexists|].
  split; vm_compute; reflexivity.
Qed.

(* ===================================================================== *)
(** * The chat reply selector: proofs *)
(* ===================================================================== *)

(** ** [includes] is the occurrence of a substring *)

Lemma prefix_spec (keyword s : string) :
  String.prefix keyword s = true <-> exists after : string, s = keyword +:+ after.
Proof.
  revert s. induction keyword as [|c keyword IH]; intros s.
  - split; [intros _; exists s; reflexivity | intros _; destruct s; reflexivity].
  - destruct s as [|c' s]; simpl.
    + split; [discriminate | intros [after H]; discriminate].
    + destruct (Ascii.ascii_dec c c') as [->|Hne].
      * rewrite IH. split; intros [after H]; exists after.
        -- now rewrite H.
        -- now injection H.
      * split; [discriminate | intros [after H]; injection H; congruence].
Qed.

Lemma includes_spec (s keyword : string) :
  includes s keyword = true <-> substring keyword s.
Proof.
  unfold substring. induction s as [|c s IH]; cbn [includes].
  - rewrite orb_false_r, prefix_spec. split.
    + intros [after H]. exists EmptyString, after. exact H.
    + intros (before & after & H). destruct before as [|b before]; [|discriminate].
      exists after. exact H.
  - rewrite orb_true_iff, prefix_spec, IH. split.
    + intros [[after H] | (before & after & H)].
      * exists EmptyString, after. exact H.
      * exists (String c before), after. simpl. now rewrite H.
    + intros (before & after & H). destruct before as [|b before].
      * left. exists after. exact H.
      * right. exists before, after. simpl in H. now injection H.
Qed.

Lemma includesSome_spec (s : string) (words : list string) :
  includesSome s words = true <-> exists w : string, In w words /\ substring w s.
Proof.
  unfold includesSome. rewrite existsb_exists.
  split; intros (w & Hw & H); exists w; (split; [exact Hw|]); now apply includes_spec.
Qed.

(** ** The random index lies inside the array *)

Lemma randomIndex_lt (r : Rand) (len : nat) : (0 < len)%nat -> (randomIndex r len < len)%nat.
Proof.
  intros Hlen. unfold randomIndex, Rand_value, JSNumber.Math_floor, Qfloor, Qmult, inject_Z.
  cbn [Qnum Qden].
  set (d := match rnum r with N0 => rgap r | Npos p => (p + rgap r)%positive end).
  assert (Hlt : Z.of_N (rnum r) < Z.pos d).
  { subst d. destruct (rnum r); simpl; lia. }
  assert (Hq : 0 <= Z.of_N (rnum r) * Z.of_nat len / Z.pos (d * 1) < Z.of_nat len).
  { split.
    - apply Z.div_pos; lia.
    - apply Z.div_lt_upper_bound; nia. }
  lia.
Qed.

Lemma pick_from {S : Type} (rnd : Rand) (l : list string) (st : S) :
  l <> [] ->
  exists reply : string,
    l !! randomIndex rnd (length l) = Some reply /\
    pick rnd (Some l) st = Normal (Some reply) st /\
    In reply l.
Proof.
  intros Hne.
  assert (Hlen : (0 < length l)%nat) by (destruct l; [congruence | simpl; lia]).
  destruct (lookup_lt_is_Some_2 l _ (randomIndex_lt rnd _ Hlen)) as [reply Hr].
  exists reply. split; [exact Hr|]. split.
  - unfold pick, ret. now rewrite Hr.
  - apply list_elem_of_In. eapply list_elem_of_lookup_2. exact Hr.
Qed.

(** ** The properties of [responses] *)

Lemma responses_lookup :
  responses !! "crisis" = Some crisis_replies /\
  responses !! "breakfast" = Some breakfast_replies /\
  responses !! "lunch" = Some lunch_replies /\
  responses !! "dinner" = Some dinner_replies /\
  responses !! "nobreakfast" = Some nobreakfast_replies /\
  responses !! "nolunch" = Some nolunch_replies /\
  responses !! "nodinner" = Some nodinner_replies /\
  responses !! "mood" = None /\
  responses !! "nomood" = None.
Proof. repeat split; vm_compute; reflexivity. Qed.

Lemma responses_topics :
  responses !! "funfact" = Some funfact_replies /\
  responses !! "sad" = Some sad_replies /\
  responses !! "happy" = Some happy_replies /\
  responses !! "stressed" = Some stressed_replies /\
  responses !! "anxious" = Some anxious_replies /\
  responses !! "default" = Some default_replies.
Proof. repeat split; vm_compute; reflexivity. Qed.

(** No array is empty and no reply is the empty string. *)
Lemma replySets_filled :
  Forall (fun l : list string => l <> [] /\ Forall (fun r : string => r <> "") l) replySets.
Proof.
  unfold replySets.
  repeat (apply List.Forall_cons;
          [split; [discriminate
                  | repeat (apply List.Forall_cons; [discriminate|]); apply List.Forall_nil]
          |]).
  apply List.Forall_nil.
Qed.

Lemma replySet_filled (l : list string) :
  In l replySets -> l <> [] /\ forall r : string, In r l -> r <> "".
Proof.
  intros Hin. pose proof replySets_filled as H.
  rewrite Forall_forall in H. apply list_elem_of_In in Hin.
  destruct (H l Hin) as [Hne Hall]. split; [exact Hne|].
  intros r Hr. rewrite Forall_forall in Hall. apply Hall, list_elem_of_In, Hr.
Qed.

Lemma includesSome_false (s : string) (words : list string) :
  includesSome s words = false <-> ~ mentions s words.
Proof.
  unfold mentions. rewrite <- includesSome_spec.
  destruct (includesSome s words); split; congruence.
Qed.

Lemma includesSome_true (s : string) (words : list string) :
  includesSome s words = true <-> mentions s words.
Proof. apply includesSome_spec. Qed.

(** ** The shape of [getResponse] *)

Lemma getResponse_crisis (toLowerCase : string -> string) (rnd : Rand)
    (userMessage : string) (st : ChatState) :
  includesSome (toLowerCase userMessage) crisisKeywords = true ->
  getResponse toLowerCase rnd userMessage st =
  pick rnd (Some crisis_replies) (raiseEmergency st).
Proof.
  intros H. unfold getResponse. rewrite H.
  unfold bind, onEmergency. now rewrite (proj1 responses_lookup).
Qed.

Lemma getResponse_general (toLowerCase : string -> string) (rnd : Rand)
    (userMessage : string) (st : ChatState) :
  includesSome (toLowerCase userMessage) crisisKeywords = false ->
  lastQuestion st = none \/
  (includesSome (toLowerCase userMessage) affirmative = false /\
   includesSome (toLowerCase userMessage) negative = false) ->
  getResponse toLowerCase rnd userMessage st =
  generalResponse rnd (toLowerCase userMessage) st.
Proof.
  intros H Hq. unfold getResponse. rewrite H.
  unfold bind, readLastQuestion.
  destruct Hq as [-> | [Hy Hn]].
  - reflexivity.
  - unfold affirmative in Hy. unfold negative in Hn. rewrite Hy, Hn.
    destruct (negb (QuestionType_eqb (lastQuestion st) none)); reflexivity.
Qed.

Lemma getResponse_yes (toLowerCase : string -> string) (rnd : Rand)
    (userMessage : string) (st : ChatState) :
  includesSome (toLowerCase userMessage) crisisKeywords = false ->
  lastQuestion st <> none ->
  includesSome (toLowerCase userMessage) affirmative = true ->
  getResponse toLowerCase rnd userMessage st =
  match pick rnd (responses !! QuestionType_string (lastQuestion st)) st with
  | Normal response st' => Normal response (clearQuestion st')
  | Throw e st' => Throw e st'
  end.
Proof.
  intros H Hq Hy. unfold getResponse. rewrite H.
  unfold bind, readLastQuestion. unfold affirmative in Hy. rewrite Hy.
  destruct (lastQuestion st) eqn:E; try congruence; cbn [QuestionType_eqb negb];
    reflexivity.
Qed.

Lemma getResponse_no (toLowerCase : string -> string) (rnd : Rand)
    (userMessage : string) (st : ChatState) :
  includesSome (toLowerCase userMessage) crisisKeywords = false ->
  lastQuestion st <> none ->
  includesSome (toLowerCase userMessage) affirmative = false ->
  includesSome (toLowerCase userMessage) negative = true ->
  getResponse toLowerCase rnd userMessage st =
  match pick rnd (responses !! ("no" +:+ QuestionType_string (lastQuestion st))) st with
  | Normal response st' => Normal response (clearQuestion st')
  | Throw e st' => Throw e st'
  end.
Proof.
  intros H Hq Hy Hn. unfold getResponse. rewrite H.
  unfold bind, readLastQuestion.
  unfold affirmative in Hy. unfold negative in Hn. rewrite Hy, Hn.
  destruct (lastQuestion st) eqn:E; try congruence; cbn [QuestionType_eqb negb];
    reflexivity.
Qed.

Lemma firstTopic_topicTable (m : string) :
  firstTopic topicTable m =
  if includes m "fun fact" || includes m "fact" || includes m "tell me something"
  then funfact_replies
  else if includes m "sad" || includes m "down" || includes m "depressed"
  then sad_replies
  else if includes m "happy" || includes m "good" || includes m "great"
  then happy_replies
  else if includes m "stress" || includes m "overwhelm"
  then stressed_replies
  else if includes m "anxious" || includes m "anxiety" || includes m "worry"
  then anxious_replies
  else default_replies.
Proof.
  unfold topicTable, firstTopic, includesSome, existsb.
  rewrite !orb_false_r, !orb_assoc. reflexivity.
Qed.

(** The chain of [if]s picks from the first topic of the table that
    matches. *)
Lemma generalResponse_firstTopic (rnd : Rand) (m : string) :
  generalResponse rnd m = pick rnd (Some (firstTopic topicTable m)).
Proof.
  rewrite firstTopic_topicTable. unfold generalResponse.
  destruct responses_topics as (-> & -> & -> & -> & -> & ->).
  repeat match goal with
         | |- context [if ?b then _ else _] => destruct b
         end; reflexivity.
Qed.

Lemma firstTopic_in_replySets (table : list (list string * list string)) (m : string) :
  (forall t, In t table -> In (snd t) replySets) ->
  In (firstTopic table m) replySets.
Proof.
  induction table as [|[keywords replies] table IH]; intros Hall; cbn [firstTopic].
  - unfold replySets. simpl. tauto.
  - destruct (includesSome m keywords).
    + apply (Hall (keywords, replies)). now left.
    + apply IH. intros t Ht. apply Hall. now right.
Qed.

Lemma firstTopic_default (table : list (list string * list string)) (m : string) :
  (forall t, In t table -> includesSome m (fst t) = false) ->
  firstTopic table m = default_replies.
Proof.
  induction table as [|[keywords replies] table IH]; intros Hall; cbn [firstTopic].
  - reflexivity.
  - pose proof (Hall (keywords, replies) (or_introl eq_refl)) as H0.
    cbn [fst] in H0. rewrite H0.
    apply IH. intros t Ht. apply Hall. now right.
Qed.

(** The first entry whose keywords match supplies the replies. *)
Lemma firstTopic_first (before after : list (list string * list string))
    (keywords replies : list string) (m : string) :
  (forall t, In t before -> includesSome m (fst t) = false) ->
  includesSome m keywords = true ->
  firstTopic (before ++ (keywords, replies) :: after) m = replies.
Proof.
  induction before as [|[k r] before IH]; intros Hall Hm; cbn [app firstTopic].
  - now rewrite Hm.
  - pose proof (Hall (k, r) (or_introl eq_refl)) as H0.
    cbn [fst] in H0. rewrite H0.
    apply IH; [|exact Hm]. intros t Ht. apply Hall. now right.
Qed.

Lemma topicTable_in_replySets (m : string) : In (firstTopic topicTable m) replySets.
Proof.
  apply firstTopic_in_replySets. unfold topicTable, replySets. simpl.
  intros t Ht. repeat (destruct Ht as [<- | Ht]; [simpl; tauto|]). destruct Ht.
Qed.

Lemma pick_replySet {S : Type} (rnd : Rand) (l : list string) (st : S) :
  In l replySets ->
  exists reply : string,
    pick rnd (Some l) st = Normal (Some reply) st /\ In reply l /\ reply <> "".
Proof.
  intros Hl. destruct (replySet_filled l Hl) as [Hne Hall].
  destruct (pick_from rnd l st Hne) as (reply & _ & Hp & Hin).
  exists reply. split; [exact Hp|]. split; [exact Hin|]. now apply Hall.
Qed.

Ltac in_replySets := unfold replySets; simpl; tauto.

Lemma general_reply (toLowerCase : string -> string) (rnd : Rand)
    (userMessage : string) (st : ChatState) :
  includesSome (toLowerCase userMessage) crisisKeywords = false ->
  lastQuestion st = none \/
  (includesSome (toLowerCase userMessage) affirmative = false /\
   includesSome (toLowerCase userMessage) negative = false) ->
  exists reply : string,
    getResponse toLowerCase rnd userMessage st = Normal (Some reply) st /\
    In reply (firstTopic topicTable (toLowerCase userMessage)) /\ reply <> "".
Proof.
  intros Hc Hq. rewrite (getResponse_general _ _ _ _ Hc Hq), generalResponse_firstTopic.
  apply pick_replySet, topicTable_in_replySets.
Qed.

Lemma acknowledged_reply (toLowerCase : string -> string) (rnd : Rand)
    (userMessage : string) (st : ChatState) :
  includesSome (toLowerCase userMessage) crisisKeywords = false ->
  lastQuestion st = breakfast \/ lastQuestion st = lunch \/ lastQuestion st = dinner ->
  includesSome (toLowerCase userMessage) affirmative = true ->
  exists reply : string,
    getResponse toLowerCase rnd userMessage st = Normal (Some reply) (clearQuestion st) /\
    In reply (acknowledged (lastQuestion st)) /\ reply <> "".
Proof.
  intros Hc Hq Hy.
  rewrite (getResponse_yes _ _ _ _ Hc) by (try exact Hy; destruct Hq as [E | [E | E]]; congruence).
  destruct responses_lookup as (_ & Hb & Hl & Hd & _).
  destruct Hq as [E|[E|E]]; rewrite E; cbn [QuestionType_string acknowledged].
  - rewrite Hb. destruct (pick_replySet rnd breakfast_replies st) as (r & Hp & Hin & Hne);
      [in_replySets | rewrite Hp; now exists r].
  - rewrite Hl. destruct (pick_replySet rnd lunch_replies st) as (r & Hp & Hin & Hne);
      [in_replySets | rewrite Hp; now exists r].
  - rewrite Hd. destruct (pick_replySet rnd dinner_replies st) as (r & Hp & Hin & Hne);
      [in_replySets | rewrite Hp; now exists r].
Qed.

Lemma missed_reply (toLowerCase : string -> string) (rnd : Rand)
    (userMessage : string) (st : ChatState) :
  includesSome (toLowerCase userMessage) crisisKeywords = false ->
  lastQuestion st = breakfast \/ lastQuestion st = lunch \/ lastQuestion st = dinner ->
  includesSome (toLowerCase userMessage) affirmative = false ->
  includesSome (toLowerCase userMessage) negative = true ->
  exists reply : string,
    getResponse toLowerCase rnd userMessage st = Normal (Some reply) (clearQuestion st) /\
    In reply (missed (lastQuestion st)) /\ reply <> "".
Proof.
  intros Hc Hq Hy Hn.
  rewrite (getResponse_no _ _ _ _ Hc) by (try assumption; destruct Hq as [E | [E | E]]; congruence).
  destruct responses_lookup as (_ & _ & _ & _ & Hb & Hl & Hd & _).
  destruct Hq as [E|[E|E]]; rewrite E; cbn [QuestionType_string missed].
  - change ("no" +:+ "breakfast") with "nobreakfast". rewrite Hb. destruct (pick_replySet rnd nobreakfast_replies st) as (r & Hp & Hin & Hne);
      [in_replySets | rewrite Hp; now exists r].
  - change ("no" +:+ "lunch") with "nolunch".
    rewrite Hl. destruct (pick_replySet rnd nolunch_replies st) as (r & Hp & Hin & Hne);
      [in_replySets | rewrite Hp; now exists r].
  - change ("no" +:+ "dinner") with "nodinner".
    rewrite Hd. destruct (pick_replySet rnd nodinner_replies st) as (r & Hp & Hin & Hne);
      [in_replySets | rewrite Hp; now exists r].
Qed.

Lemma crisis_reply (toLowerCase : string -> string) (rnd : Rand)
    (userMessage : string) (st : ChatState) :
  includesSome (toLowerCase userMessage) crisisKeywords = true ->
  exists reply : string,
    getResponse toLowerCase rnd userMessage st = Normal (Some reply) (raiseEmergency st) /\
    crisis_replies !! randomIndex rnd (length crisis_replies) = Some reply /\
    In reply crisis_replies /\ reply <> "".
Proof.
  intros Hc. rewrite (getResponse_crisis _ _ _ _ Hc).
  assert (Hs : In crisis_replies replySets) by in_replySets.
  destruct (replySet_filled _ Hs) as [Hne Hall].
  destruct (pick_from rnd crisis_replies (raiseEmergency st) Hne) as (r & Hr & Hp & Hin).
  exists r. repeat split; try assumption. now apply Hall.
Qed.

Lemma greeting_question (toLowerCase : string -> string) (hour : Z)
    (currentMood soulNoteContent : option string) :
  let q := snd (greeting toLowerCase hour currentMood soulNoteContent) in
  q = breakfast \/ q = lunch \/ q = dinner.
Proof.
  unfold greeting.
  destruct (hour <? 12); [|destruct (hour <? 18)]; cbn [snd]; tauto.
Qed.

(** ** The crisis branch of [handleSend] in FINAL-PROJECT *)

Lemma FinalProject_responses_crisis :
  FinalProject.responses !! "crisis" = Some FinalProject.crisis_replies.
Proof. vm_compute. reflexivity. Qed.

Lemma handleSend_crisis (toLowerCase trim : string -> string)
    (gemini : FinalProject.Awaited) (rnd rnd' : Rand) (st : FinalProject.BotState) :
  trim (FinalProject.input st) <> "" ->
  includesSome (toLowerCase (FinalProject.input st)) FinalProject.crisisKeywords = true ->
  exists reply : string,
    In reply FinalProject.crisis_replies /\
    FinalProject.handleSend toLowerCase trim gemini rnd rnd' st =
    Normal tt
      {| FinalProject.messages :=
           FinalProject.messages st ++
           [{| FinalProject.text := Some (FinalProject.input st);
               FinalProject.isBot := false |};
            {| FinalProject.text := Some reply; FinalProject.isBot := true |}];
         FinalProject.input := "";
         FinalProject.lastQuestion := FinalProject.lastQuestion st;
         FinalProject.isTyping := false;
         FinalProject.emergencyCalls := S (FinalProject.emergencyCalls st) |}.
Proof.
  intros Ht Hc. unfold FinalProject.handleSend.
  apply String.eqb_neq in Ht. rewrite Ht, Hc.
  rewrite FinalProject_responses_crisis.
  unfold bind, FinalProject.setMessages, FinalProject.setInput, FinalProject.setIsTyping,
    FinalProject.onEmergency.
  cbn [FinalProject.messages FinalProject.input FinalProject.lastQuestion
         FinalProject.isTyping FinalProject.emergencyCalls].
  match goal with
  | |- context [pick rnd (Some FinalProject.crisis_replies) ?s] =>
      destruct (pick_from rnd FinalProject.crisis_replies s) as (r & _ & Hp & Hin);
        [discriminate | rewrite Hp]
  end.
  exists r. split; [exact Hin|].
  cbn [FinalProject.messages FinalProject.input FinalProject.lastQuestion
         FinalProject.isTyping FinalProject.emergencyCalls].
  now rewrite <- app_assoc.
Qed.

(** C1: a message whose lower-cased text contains a crisis keyword calls
    [onEmergency] once and gets a crisis reply, whatever the pending
    question, which is left as it was: the reply is the crisis reply at the
    random index and no other rule has a say.  The keywords named by the
    specification are in the list.  With breakfast pending, "no, I want to
    die" gets a crisis reply and not one for a missed breakfast.  In
    FINAL-PROJECT [handleSend] does the same before it asks the backend or
    the fallback rules: the state it leaves does not depend on either. *)
Theorem crisis_preempts :
  (forall (toLowerCase : string -> string) (rnd : Rand) (userMessage : string)
          (st : ChatState),
      mentions (toLowerCase userMessage) crisisKeywords ->
      exists reply : string,
        getResponse toLowerCase rnd userMessage st
          = Normal (Some reply) (raiseEmergency st) /\
        crisis_replies !! randomIndex rnd (length crisis_replies) = Some reply /\
        In reply crisis_replies) /\
  (forall k : string,
      In k ["suicide"; "kill myself"; "want to die"; "die"; "death"; "dead"; "end it all"] ->
      In k crisisKeywords) /\
  (forall (rnd : Rand) (n : nat),
      exists reply : string,
        getResponse ascii_toLowerCase rnd "no, I want to die"
          {| lastQuestion := breakfast; emergencyCalls := n |}
          = Normal (Some reply) {| lastQuestion := breakfast; emergencyCalls := S n |} /\
        In reply crisis_replies /\
        ~ In reply nobreakfast_replies) /\
  FinalProject.crisisKeywords = crisisKeywords /\
  (forall (toLowerCase trim : string -> string) (gemini : FinalProject.Awaited)
          (rnd rnd' : Rand) (st : FinalProject.BotState),
      trim (FinalProject.input st) <> "" ->
      mentions (toLowerCase (FinalProject.input st)) FinalProject.crisisKeywords ->
      exists reply : string,
        In reply FinalProject.crisis_replies /\
        FinalProject.handleSend toLowerCase trim gemini rnd rnd' st =
        Normal tt
          {| FinalProject.messages :=
               FinalProject.messages st ++
               [{| FinalProject.text := Some (FinalProject.input st);
                   FinalProject.isBot := false |};
                {| FinalProject.text := Some reply; FinalProject.isBot := true |}];
             FinalProject.input := "";
             FinalProject.lastQuestion := FinalProject.lastQuestion st;
             FinalProject.isTyping := false;
             FinalProject.emergencyCalls := S (FinalProject.emergencyCalls st) |}).
Proof.
  split; [|split; [|split; [|split]]].
  - intros toLowerCase rnd userMessage st Hm.
    apply includesSome_true in Hm.
    destruct (crisis_reply toLowerCase rnd userMessage st Hm) as (r & Hr & Hi & Hin & _).
    now exists r.
  - intros k Hk. unfold crisisKeywords. simpl in Hk |- *.
    repeat (destruct Hk as [<- | Hk]; [tauto|]). destruct Hk.
  - intros rnd n.
    destruct (crisis_reply ascii_toLowerCase rnd "no, I want to die"
                {| lastQuestion := breakfast; emergencyCalls := n |})
      as (r & Hr & _ & Hin & _); [vm_compute; reflexivity|].
    exists r. split; [exact Hr|]. split; [exact Hin|].
    intros Hb. unfold crisis_replies in Hin. unfold nobreakfast_replies in Hb.
    destruct Hin as [<- | [<- | []]]; destruct Hb as [Hb | [Hb | []]]; discriminate Hb.
  - reflexivity.
  - intros toLowerCase trim gemini rnd rnd' st Ht Hm.
    apply includesSome_true in Hm.
    exact (handleSend_crisis toLowerCase trim gemini rnd rnd' st Ht Hm).
Qed.

Lemma crisis_preempts_witness :
  exists reply : string,
    getResponse ascii_toLowerCase {| rnum := 1; rgap := 1 |} "I feel DEAD inside"
      {| lastQuestion := lunch; emergencyCalls := 0 |}
      = Normal (Some reply) {| lastQuestion := lunch; emergencyCalls := 1 |} /\
    In reply crisis_replies.
Proof.
  destruct (proj1 crisis_preempts ascii_toLowerCase {| rnum := 1; rgap := 1 |}
              "I feel DEAD inside" {| lastQuestion := lunch; emergencyCalls := 0 |})
    as (r & Hr & _ & Hin).
  - exists "dead". split; [simpl; tauto|].
    exists "i feel ", " inside". reflexivity.
  - exists r. split; [exact Hr | exact Hin].
Defined.

(** The member ['mood'] of [QuestionType] has no replies: were it ever
    pending, an affirmative answer would throw.  The component never sets
    it. *)
Remark mood_has_no_replies (rnd : Rand) (n : nat) :
  getResponse ascii_toLowerCase rnd "yes"
    {| lastQuestion := mood; emergencyCalls := n |}
  = Throw "TypeError" {| lastQuestion := mood; emergencyCalls := n |}.
Proof. reflexivity. Qed.

(** C4: in every context of the specification and for every message the
    call returns, with a reply that is a string and not the empty one, and
    leaves a context of the specification; a message that matches no rule
    gets one of the default replies; the empty message and a message that
    is not plain ASCII are such messages; the greeting leaves a meal
    question pending, so the contexts of a session are those of the
    specification. *)
Theorem getResponse_total :
  (forall (toLowerCase : string -> string) (rnd : Rand) (userMessage : string)
          (st : ChatState),
      specContext (lastQuestion st) ->
      exists (reply : string) (st' : ChatState),
        getResponse toLowerCase rnd userMessage st = Normal (Some reply) st' /\
        reply <> "" /\
        specContext (lastQuestion st')) /\
  (forall (toLowerCase : string -> string) (rnd : Rand) (userMessage : string)
          (st : ChatState),
      ~ mentions (toLowerCase userMessage) crisisKeywords ->
      lastQuestion st = none \/
      (~ mentions (toLowerCase userMessage) affirmative /\
       ~ mentions (toLowerCase userMessage) negative) ->
      (forall t, In t topicTable -> ~ mentions (toLowerCase userMessage) (fst t)) ->
      exists reply : string,
        getResponse toLowerCase rnd userMessage st = Normal (Some reply) st /\
        In reply default_replies /\ reply <> "") /\
  (forall (rnd : Rand) (st : ChatState) (userMessage : string),
      userMessage = "" \/ userMessage = nonAsciiMessage ->
      exists reply : string,
        getResponse ascii_toLowerCase rnd userMessage st = Normal (Some reply) st /\
        In reply default_replies /\ reply <> "") /\
  (forall (toLowerCase : string -> string) (hour : Z)
          (currentMood soulNoteContent : option string),
      specContext (snd (greeting toLowerCase hour currentMood soulNoteContent))).
Proof.
  assert (Hdefault :
            forall (toLowerCase : string -> string) (rnd : Rand) (userMessage : string)
                   (st : ChatState),
              includesSome (toLowerCase userMessage) crisisKeywords = false ->
              lastQuestion st = none \/
              (includesSome (toLowerCase userMessage) affirmative = false /\
               includesSome (toLowerCase userMessage) negative = false) ->
              (forall t, In t topicTable ->
                         includesSome (toLowerCase userMessage) (fst t) = false) ->
              exists reply : string,
                getResponse toLowerCase rnd userMessage st = Normal (Some reply) st /\
                In reply default_replies /\ reply <> "").
  { intros toLowerCase rnd userMessage st Hc Hq Ht.
    destruct (general_reply toLowerCase rnd userMessage st Hc Hq) as (r & Hr & Hin & Hne).
    exists r. split; [exact Hr|]. split; [|exact Hne].
    now rewrite (firstTopic_default _ _ Ht) in Hin. }
  split; [|split; [|split]].
  - intros toLowerCase rnd userMessage st Hq.
    destruct (includesSome (toLowerCase userMessage) crisisKeywords) eqn:Hc.
    { destruct (crisis_reply toLowerCase rnd userMessage st Hc) as (r & Hr & _ & _ & Hne).
      exists r, (raiseEmergency st). now repeat split. }
    assert (Hgen : lastQuestion st = none \/
                   (includesSome (toLowerCase userMessage) affirmative = false /\
                    includesSome (toLowerCase userMessage) negative = false) ->
                   exists (reply : string) (st' : ChatState),
                     getResponse toLowerCase rnd userMessage st = Normal (Some reply) st' /\
                     reply <> "" /\ specContext (lastQuestion st')).
    { intros Hg.
      destruct (general_reply toLowerCase rnd userMessage st Hc Hg) as (r & Hr & _ & Hne).
      exists r, st. now repeat split. }
    destruct Hq as [Hq | [Hq | [Hq | Hq]]]; [| | |now apply Hgen; left].
    all: destruct (includesSome (toLowerCase userMessage) affirmative) eqn:Hy;
      [ destruct (acknowledged_reply toLowerCase rnd userMessage st Hc) as (r & Hr & _ & Hne);
        [tauto | exact Hy |];
        exists r, (clearQuestion st); repeat split; try assumption;
        unfold specContext; simpl; tauto
      | destruct (includesSome (toLowerCase userMessage) negative) eqn:Hn;
        [ destruct (missed_reply toLowerCase rnd userMessage st Hc) as (r & Hr & _ & Hne);
          [tauto | exact Hy | exact Hn |];
          exists r, (clearQuestion st); repeat split; try assumption;
          unfold specContext; simpl; tauto
        | apply Hgen; right; split; reflexivity ] ].
  - intros toLowerCase rnd userMessage st Hc Hq Ht.
    apply Hdefault.
    + now apply includesSome_false.
    + destruct Hq as [Hq | [Hy Hn]]; [now left | right].
      split; now apply includesSome_false.
    + intros t Hin. apply includesSome_false. now apply Ht.
  - intros rnd st userMessage Hm.
    apply Hdefault.
    + destruct Hm as [-> | ->]; vm_compute; reflexivity.
    + right. destruct Hm as [-> | ->]; split; vm_compute; reflexivity.
    + intros t Hin. unfold topicTable in Hin. simpl in Hin.
      repeat (destruct Hin as [<- | Hin];
              [destruct Hm as [-> | ->]; vm_compute; reflexivity|]).
      destruct Hin.
  - intros toLowerCase hour currentMood soulNoteContent.
    pose proof (greeting_question toLowerCase hour currentMood soulNoteContent) as H.
    unfold specContext. cbv zeta in H. tauto.
Qed.

Lemma getResponse_total_witness :
  exists (reply : string) (st' : ChatState),
    getResponse ascii_toLowerCase {| rnum := 2; rgap := 5 |} "nope, not today"
      {| lastQuestion := dinner; emergencyCalls := 0 |} = Normal (Some reply) st' /\
    reply <> "".
Proof.
  destruct (proj1 getResponse_total ascii_toLowerCase {| rnum := 2; rgap := 5 |}
              "nope, not today" {| lastQuestion := dinner; emergencyCalls := 0 |})
    as (r & st' & Hr & Hne & _).
  - unfold specContext. simpl. tauto.
  - exists r, st'. split; [exact Hr | exact Hne].
Defined.

(** C5: with a meal question pending and a message without crisis keyword,
    an affirmative word gets a reply that acknowledges the meal and clears
    the question; otherwise a negative word gets a reply for the missed
    meal and clears the question; with neither, the general keyword
    matching answers and the question stays pending.  With lunch pending,
    "yeah I did" gets a reply that acknowledges lunch and the question is
    cleared. *)
Theorem yes_no_resolution :
  (forall (toLowerCase : string -> string) (rnd : Rand) (userMessage : string)
          (st : ChatState),
      lastQuestion st = breakfast \/ lastQuestion st = lunch \/ lastQuestion st = dinner ->
      ~ mentions (toLowerCase userMessage) crisisKeywords ->
      (mentions (toLowerCase userMessage) affirmative ->
       exists reply : string,
         getResponse toLowerCase rnd userMessage st
           = Normal (Some reply) (clearQuestion st) /\
         In reply (acknowledged (lastQuestion st))) /\
      (~ mentions (toLowerCase userMessage) affirmative ->
       mentions (toLowerCase userMessage) negative ->
       exists reply : string,
         getResponse toLowerCase rnd userMessage st
           = Normal (Some reply) (clearQuestion st) /\
         In reply (missed (lastQuestion st))) /\
      (~ mentions (toLowerCase userMessage) affirmative ->
       ~ mentions (toLowerCase userMessage) negative ->
       getResponse toLowerCase rnd userMessage st
         = generalResponse rnd (toLowerCase userMessage) st /\
       exists reply : string,
         getResponse toLowerCase rnd userMessage st = Normal (Some reply) st /\
         In reply (firstTopic topicTable (toLowerCase userMessage)))) /\
  (forall st : ChatState, lastQuestion (clearQuestion st) = none) /\
  (forall (rnd : Rand) (n : nat),
      exists reply : string,
        getResponse ascii_toLowerCase rnd "yeah I did"
          {| lastQuestion := lunch; emergencyCalls := n |}
          = Normal (Some reply) {| lastQuestion := none; emergencyCalls := n |} /\
        In reply lunch_replies).
Proof.
  split; [|split].
  - intros toLowerCase rnd userMessage st Hq Hc.
    apply includesSome_false in Hc.
    split; [|split].
    + intros Hy. apply includesSome_true in Hy.
      destruct (acknowledged_reply toLowerCase rnd userMessage st Hc Hq Hy)
        as (r & Hr & Hin & _).
      now exists r.
    + intros Hy Hn. apply includesSome_false in Hy. apply includesSome_true in Hn.
      destruct (missed_reply toLowerCase rnd userMessage st Hc Hq Hy Hn)
        as (r & Hr & Hin & _).
      now exists r.
    + intros Hy Hn. apply includesSome_false in Hy. apply includesSome_false in Hn.
      split.
      * apply getResponse_general; [exact Hc | right; now split].
      * destruct (general_reply toLowerCase rnd userMessage st Hc) as (r & Hr & Hin & _);
          [right; now split|].
        now exists r.
  - reflexivity.
  - intros rnd n.
    destruct (acknowledged_reply ascii_toLowerCase rnd "yeah I did"
                {| lastQuestion := lunch; emergencyCalls := n |})
      as (r & Hr & Hin & _);
      [vm_compute; reflexivity | simpl; tauto | vm_compute; reflexivity |].
    now exists r.
Qed.

Lemma yes_no_resolution_witness :
  exists reply : string,
    getResponse ascii_toLowerCase {| rnum := 0; rgap := 1 |} "Nah, I forgot"
      {| lastQuestion := breakfast; emergencyCalls := 0 |}
      = Normal (Some reply) {| lastQuestion := none; emergencyCalls := 0 |} /\
    In reply nobreakfast_replies.
Proof.
  destruct (proj1 yes_no_resolution ascii_toLowerCase {| rnum := 0; rgap := 1 |}
              "Nah, I forgot" {| lastQuestion := breakfast; emergencyCalls := 0 |})
    as (_ & Hno & _).
  - simpl. tauto.
  - apply includesSome_false. vm_compute. reflexivity.
  - destruct Hno as (r & Hr & Hin).
    + apply includesSome_false. vm_compute. reflexivity.
    + apply includesSome_true. vm_compute. reflexivity.
    + exists r. split; [exact Hr | exact Hin].
Defined.

(** C9: when the general keyword matching is reached (no crisis keyword,
    and no pending question or neither an affirmative nor a negative word),
    the reply comes from the first topic of the table, in the order fun
    fact, sad, happy, stressed, anxious, whose keyword occurs in the
    lower-cased message, from the default replies when there is none; two
    messages that differ in the case of their letters get the same answer;
    "tell me a fun fact" gets a fun fact when no question is pending, and
    also with the question the greeting leaves pending at any hour. *)
Theorem general_keyword_matching :
  (forall (toLowerCase : string -> string) (rnd : Rand) (userMessage : string)
          (st : ChatState),
      ~ mentions (toLowerCase userMessage) crisisKeywords ->
      lastQuestion st = none \/
      (~ mentions (toLowerCase userMessage) affirmative /\
       ~ mentions (toLowerCase userMessage) negative) ->
      exists reply : string,
        getResponse toLowerCase rnd userMessage st = Normal (Some reply) st /\
        In reply (firstTopic topicTable (toLowerCase userMessage))) /\
  map snd topicTable
    = [funfact_replies; sad_replies; happy_replies; stressed_replies; anxious_replies] /\
  (forall (before after : list (list string * list string))
          (keywords replies : list string) (m : string),
      topicTable = before ++ (keywords, replies) :: after ->
      (forall t, In t before -> ~ mentions m (fst t)) ->
      mentions m keywords ->
      firstTopic topicTable m = replies) /\
  (forall m : string,
      (forall t, In t topicTable -> ~ mentions m (fst t)) ->
      firstTopic topicTable m = default_replies) /\
  (forall (rnd : Rand) (m1 m2 : string) (st : ChatState),
      ascii_toLowerCase m1 = ascii_toLowerCase m2 ->
      getResponse ascii_toLowerCase rnd m1 st = getResponse ascii_toLowerCase rnd m2 st) /\
  (forall (rnd : Rand) (n : nat),
      exists reply : string,
        getResponse ascii_toLowerCase rnd "tell me a fun fact"
          {| lastQuestion := none; emergencyCalls := n |}
          = Normal (Some reply) {| lastQuestion := none; emergencyCalls := n |} /\
        In reply funfact_replies) /\
  (forall (rnd : Rand) (n : nat) (hour : Z) (currentMood soulNoteContent : option string),
      let st := {| lastQuestion :=
                     snd (greeting ascii_toLowerCase hour currentMood soulNoteContent);
                   emergencyCalls := n |} in
      exists reply : string,
        getResponse ascii_toLowerCase rnd "tell me a fun fact" st
          = Normal (Some reply) st /\
        In reply funfact_replies).
Proof.
  assert (Hfun : forall (rnd : Rand) (st : ChatState),
             exists reply : string,
               getResponse ascii_toLowerCase rnd "tell me a fun fact" st
                 = Normal (Some reply) st /\
               In reply funfact_replies).
  { intros rnd st.
    destruct (general_reply ascii_toLowerCase rnd "tell me a fun fact" st)
      as (r & Hr & Hin & _);
      [vm_compute; reflexivity | right; split; vm_compute; reflexivity |].
    now exists r. }
  split; [|split; [|split; [|split; [|split; [|split]]]]].
  - intros toLowerCase rnd userMessage st Hc Hq.
    destruct (general_reply toLowerCase rnd userMessage st) as (r & Hr & Hin & _).
    + now apply includesSome_false.
    + destruct Hq as [Hq | [Hy Hn]]; [now left | right].
      split; now apply includesSome_false.
    + now exists r.
  - reflexivity.
  - intros before after keywords replies m -> Hb Hk.
    apply firstTopic_first.
    + intros t Ht. apply includesSome_false. now apply Hb.
    + now apply includesSome_true.
  - intros m Hall. apply firstTopic_default.
    intros t Ht. apply includesSome_false. now apply Hall.
  - intros rnd m1 m2 st E. unfold getResponse. now rewrite E.
  - intros rnd n. apply Hfun.
  - intros rnd n hour currentMood soulNoteContent st. apply Hfun.
Qed.

Lemma general_keyword_matching_witness :
  exists reply : string,
    getResponse ascii_toLowerCase {| rnum := 1; rgap := 2 |} "So much STRESS and worry"
      {| lastQuestion := none; emergencyCalls := 0 |}
      = Normal (Some reply) {| lastQuestion := none; emergencyCalls := 0 |} /\
    In reply stressed_replies.
Proof.
  destruct (proj1 general_keyword_matching ascii_toLowerCase {| rnum := 1; rgap := 2 |}
              "So much STRESS and worry" {| lastQuestion := none; emergencyCalls := 0 |})
    as (r & Hr & Hin).
  - apply includesSome_false. vm_compute. reflexivity.
  - left. reflexivity.
  - exists r. split; [exact Hr|].
    replace (firstTopic topicTable (ascii_toLowerCase "So much STRESS and worry"))
      with stressed_replies in Hin by (vm_compute; reflexivity).
    exact Hin.
Defined.

(* ===================================================================== *)
(** * More on the chat component *)
(* ===================================================================== *)

Lemma string_app_nil_r (s : string) : (s +:+ "" = s)%string.
Proof.
  induction s as [|c s IH]; [reflexivity|].
  change (String c s +:+ "") with (String c (s +:+ "")). now rewrite IH.
Qed.

Lemma substring_refl (s : string) : substring s s.
Proof. exists EmptyString, EmptyString. now rewrite string_app_nil_r. Qed.

Lemma string_app_assoc (a b c : string) : ((a +:+ b) +:+ c = a +:+ (b +:+ c))%string.
Proof.
  induction a as [|x a IH]; [reflexivity|].
  change (String x ((a +:+ b) +:+ c) = String x (a +:+ (b +:+ c))). now rewrite IH.
Qed.

Lemma substring_app_left (keyword before s : string) :
  substring keyword s -> substring keyword (before +:+ s).
Proof.
  intros (b & a & ->). exists (before +:+ b), a. now rewrite string_app_assoc.
Qed.

(** [pick] leaves the state alone. *)
Lemma pick_state {S : Type} (rnd : Rand) (arr : option (list string)) (st : S) :
  finalState (pick rnd arr st) = st.
Proof. destruct arr; reflexivity. Qed.

Lemma pick_Normal {S : Type} (rnd : Rand) (arr : option (list string)) (st st' : S)
    (reply : string) :
  pick rnd arr st = Normal (Some reply) st' ->
  st' = st /\ exists l : list string, arr = Some l /\ In reply l.
Proof.
  destruct arr as [l|]; [|discriminate].
  unfold pick, ret. intros H. injection H as Hl Hst.
  split; [now symmetry|]. exists l. split; [reflexivity|].
  apply list_elem_of_In. eapply list_elem_of_lookup_2. exact Hl.
Qed.

Lemma generalResponse_state (rnd : Rand) (m : string) (st : ChatState) :
  finalState (generalResponse rnd m st) = st.
Proof. rewrite generalResponse_firstTopic. apply pick_state. Qed.

(** X1: [onEmergency] is called once when the lower-cased message contains
    a crisis keyword and is not called otherwise, for every pending
    question and also when the call ends with an exception. *)
Theorem emergency_exactly_on_crisis (toLowerCase : string -> string) (rnd : Rand)
    (userMessage : string) (st : ChatState) :
  emergencyCalls (finalState (getResponse toLowerCase rnd userMessage st)) =
  (emergencyCalls st
   + if includesSome (toLowerCase userMessage) crisisKeywords then 1 else 0)%nat.
Proof.
  destruct (includesSome (toLowerCase userMessage) crisisKeywords) eqn:Hc.
  - rewrite (getResponse_crisis _ _ _ _ Hc), pick_state. simpl. lia.
  - rewrite Nat.add_0_r. unfold getResponse. rewrite Hc.
    unfold bind, readLastQuestion.
    destruct (negb (QuestionType_eqb (lastQuestion st) none));
      [|now rewrite generalResponse_state].
    destruct (includesSome (toLowerCase userMessage) ["yes"; "yeah"; "yep"; "sure"]).
    { pose proof (pick_state rnd (responses !! QuestionType_string (lastQuestion st)) st) as Hp.
      destruct (pick rnd (responses !! QuestionType_string (lastQuestion st)) st);
        simpl in Hp |- *; now subst. }
    destruct (includesSome (toLowerCase userMessage) ["no"; "nah"; "nope"]).
    { pose proof (pick_state rnd
                    (responses !! ("no" +:+ QuestionType_string (lastQuestion st))) st) as Hp.
      destruct (pick rnd (responses !! ("no" +:+ QuestionType_string (lastQuestion st))) st);
        simpl in Hp |- *; now subst. }
    now rewrite generalResponse_state.
Qed.

Lemma firstTopic_used (m : string) : In (firstTopic topicTable m) usedReplySets.
Proof.
  rewrite firstTopic_topicTable. unfold usedReplySets.
  repeat match goal with
         | |- context [if ?b then _ else _] => destruct b
         end; simpl; tauto.
Qed.

(** Where a reply comes from. *)
Lemma getResponse_reply_source (toLowerCase : string -> string) (rnd : Rand)
    (userMessage : string) (st st' : ChatState) (reply : string) :
  getResponse toLowerCase rnd userMessage st = Normal (Some reply) st' ->
  exists l : list string, In l usedReplySets /\ In reply l.
Proof.
  intros H.
  destruct (includesSome (toLowerCase userMessage) crisisKeywords) eqn:Hc.
  { rewrite (getResponse_crisis _ _ _ _ Hc) in H.
    apply pick_Normal in H. destruct H as (_ & l & Hl & Hin).
    injection Hl as <-. exists crisis_replies. split; [simpl; tauto | exact Hin]. }
  assert (Hgen : getResponse toLowerCase rnd userMessage st
                 = generalResponse rnd (toLowerCase userMessage) st ->
                 exists l : list string, In l usedReplySets /\ In reply l).
  { intros Hg. rewrite Hg, generalResponse_firstTopic in H.
    apply pick_Normal in H. destruct H as (_ & l & Hl & Hin).
    injection Hl as <-. eexists. split; [apply firstTopic_used | exact Hin]. }
  destruct (lastQuestion st) eqn:Hq.
  5: { apply Hgen, getResponse_general; [exact Hc | now left]. }
  all: destruct (includesSome (toLowerCase userMessage) affirmative) eqn:Hy.
  all: try (rewrite (getResponse_yes _ _ _ _ Hc) in H by (congruence || exact Hy);
            rewrite Hq in H; cbn [QuestionType_string] in H).
  all: try (destruct (includesSome (toLowerCase userMessage) negative) eqn:Hn;
            [ rewrite (getResponse_no _ _ _ _ Hc) in H by (congruence || assumption);
              rewrite Hq in H; cbn [QuestionType_string] in H
            | apply Hgen, getResponse_general; [exact Hc | now right] ]).
  all: try change ("no" +:+ "breakfast") with "nobreakfast" in H.
  all: try change ("no" +:+ "lunch") with "nolunch" in H.
  all: try change ("no" +:+ "dinner") with "nodinner" in H.
  all: try change ("no" +:+ "mood") with "nomood" in H.
  all: destruct responses_lookup as (_ & Hb & Hl & Hd & Hnb & Hnl & Hnd & Hm & Hnm).
  all: rewrite ?Hb, ?Hl, ?Hd, ?Hnb, ?Hnl, ?Hnd, ?Hm, ?Hnm in H.
  all: try discriminate H.
  all: match type of H with
       | match pick _ (Some ?l) _ with _ => _ end = _ =>
           exists l; split; [simpl; tauto|];
           unfold pick, ret in H; injection H as Hr _;
           apply list_elem_of_In; eapply list_elem_of_lookup_2; exact Hr
       end.
Qed.

Lemma overlap_In (l1 l2 : list string) (x : string) :
  In x l1 -> In x l2 -> overlap l1 l2 = true.
Proof.
  intros H1 H2. unfold overlap. apply existsb_exists. exists x. split; [exact H1|].
  apply existsb_exists. exists x. split; [exact H2 | apply String.eqb_refl].
Qed.

(** X2: no reply ever comes from the arrays [yes] and [no] of [responses]:
    whatever the message, the pending question and the random value, a
    reply of [getResponse] is in neither. *)
Theorem yes_no_replies_unused (toLowerCase : string -> string) (rnd : Rand)
    (userMessage : string) (st st' : ChatState) (reply : string) :
  getResponse toLowerCase rnd userMessage st = Normal (Some reply) st' ->
  ~ In reply yes_replies /\ ~ In reply no_replies.
Proof.
  intros H.
  destruct (getResponse_reply_source _ _ _ _ _ _ H) as (l & Hl & Hin).
  assert (Hy : forallb (fun l' => negb (overlap yes_replies l')) usedReplySets = true)
    by (vm_compute; reflexivity).
  assert (Hn : forallb (fun l' => negb (overlap no_replies l')) usedReplySets = true)
    by (vm_compute; reflexivity).
  rewrite forallb_forall in Hy, Hn.
  specialize (Hy l Hl). specialize (Hn l Hl).
  split; intros Hr.
  - rewrite (overlap_In yes_replies l reply Hr Hin) in Hy. discriminate.
  - rewrite (overlap_In no_replies l reply Hr Hin) in Hn. discriminate.
Qed.

Lemma yes_no_replies_unused_witness :
  ~ In "Great! A good breakfast fuels your day. What did you have? 😊" yes_replies.
Proof.
  apply (yes_no_replies_unused ascii_toLowerCase {| rnum := 0; rgap := 1 |} "yes"
           {| lastQuestion := breakfast; emergencyCalls := 0 |}
           {| lastQuestion := none; emergencyCalls := 0 |}).
  vm_compute. reflexivity.
Defined.

(** In the contexts of the specification the call returns a reply. *)
Lemma getResponse_returns (toLowerCase : string -> string) (rnd : Rand)
    (userMessage : string) (st : ChatState) :
  specContext (lastQuestion st) ->
  exists (reply : string) (st' : ChatState),
    getResponse toLowerCase rnd userMessage st = Normal (Some reply) st' /\
    reply <> "" /\
    (st' = raiseEmergency st \/ st' = clearQuestion st \/ st' = st).
Proof.
  intros Hq.
  destruct (includesSome (toLowerCase userMessage) crisisKeywords) eqn:Hc.
  { destruct (crisis_reply toLowerCase rnd userMessage st Hc) as (r & Hr & _ & _ & Hne).
    exists r, (raiseEmergency st). split; [exact Hr|]. split; [exact Hne | now left]. }
  assert (Hgen : lastQuestion st = none \/
                 (includesSome (toLowerCase userMessage) affirmative = false /\
                  includesSome (toLowerCase userMessage) negative = false) ->
                 exists (reply : string) (st' : ChatState),
                   getResponse toLowerCase rnd userMessage st = Normal (Some reply) st' /\
                   reply <> "" /\
                   (st' = raiseEmergency st \/ st' = clearQuestion st \/ st' = st)).
  { intros Hg.
    destruct (general_reply toLowerCase rnd userMessage st Hc Hg) as (r & Hr & _ & Hne).
    exists r, st. split; [exact Hr|]. split; [exact Hne | now right; right]. }
  assert (Hmeal : lastQuestion st = breakfast \/ lastQuestion st = lunch \/
                  lastQuestion st = dinner ->
                  exists (reply : string) (st' : ChatState),
                    getResponse toLowerCase rnd userMessage st = Normal (Some reply) st' /\
                    reply <> "" /\
                    (st' = raiseEmergency st \/ st' = clearQuestion st \/ st' = st)).
  { intros Hm.
    destruct (includesSome (toLowerCase userMessage) affirmative) eqn:Hy.
    { destruct (acknowledged_reply toLowerCase rnd userMessage st Hc Hm Hy)
        as (r & Hr & _ & Hne).
      exists r, (clearQuestion st). split; [exact Hr|]. split; [exact Hne | now right; left]. }
    destruct (includesSome (toLowerCase userMessage) negative) eqn:Hn.
    { destruct (missed_reply toLowerCase rnd userMessage st Hc Hm Hy Hn)
        as (r & Hr & _ & Hne).
      exists r, (clearQuestion st). split; [exact Hr|]. split; [exact Hne | now right; left]. }
    apply Hgen. now right. }
  destruct Hq as [Hq | [Hq | [Hq | Hq]]]; [apply Hmeal; tauto.. | apply Hgen; now left].
Qed.

(** X3: [handleSend] ignores an input that is blank after trimming;
    otherwise, in the contexts of the specification, it appends the text
    of the user and then one reply of [getResponse] that is not empty,
    keeps the messages that were there, and empties the input field. *)
Theorem handleSend_appends (toLowerCase trim : string -> string) (rnd : Rand)
    (st : BotState) :
  (trim (input st) = "" -> handleSend toLowerCase trim rnd st = Normal tt st) /\
  (trim (input st) <> "" ->
   specContext (lastQuestion (chat st)) ->
   exists (reply : string) (chat' : ChatState),
     getResponse toLowerCase rnd (input st) (chat st) = Normal (Some reply) chat' /\
     reply <> "" /\
     handleSend toLowerCase trim rnd st =
     Normal tt
       {| messages :=
            messages st ++ [{| text := Some (input st); isBot := false |};
                            {| text := Some reply; isBot := true |}];
          input := "";
          chat := chat' |}).
Proof.
  split.
  - intros Ht. unfold handleSend. now rewrite Ht.
  - intros Ht Hq.
    destruct (getResponse_returns toLowerCase rnd (input st) (chat st) Hq)
      as (reply & chat' & Hr & Hne & _).
    exists reply, chat'. split; [exact Hr|]. split; [exact Hne|].
    unfold handleSend. apply String.eqb_neq in Ht. rewrite Ht.
    unfold bind, setMessages, setInput, inComponent.
    cbn [messages input chat]. rewrite Hr. cbn [messages input chat].
    now rewrite <- app_assoc.
Qed.

Lemma handleSend_appends_witness :
  exists reply : string,
    handleSend ascii_toLowerCase (fun s => s) {| rnum := 0; rgap := 1 |}
      {| messages := []; input := "I feel sad";
         chat := {| lastQuestion := none; emergencyCalls := 0 |} |}
    = Normal tt
        {| messages := [{| text := Some "I feel sad"; isBot := false |};
                        {| text := Some reply; isBot := true |}];
           input := "";
           chat := {| lastQuestion := none; emergencyCalls := 0 |} |}.
Proof.
  destruct (proj2 (handleSend_appends ascii_toLowerCase (fun s => s)
                     {| rnum := 0; rgap := 1 |}
                     {| messages := []; input := "I feel sad";
                        chat := {| lastQuestion := none; emergencyCalls := 0 |} |}))
    as (reply & chat' & Hr & _ & Hs).
  - discriminate.
  - unfold specContext. simpl. tauto.
  - exists reply. rewrite Hs. vm_compute in Hr. injection Hr as _ <-. reflexivity.
Defined.

(** ** The component over time *)

Lemma QuestionType_eqb_refl (q : QuestionType) : QuestionType_eqb q q = true.
Proof. destruct q; reflexivity. Qed.

(** In the render that is current [getResponse] is the one that reads the
    state. *)
Lemma getResponse_current (toLowerCase : string -> string) (rnd : Rand)
    (userMessage : string) (st : ChatState) :
  getResponse toLowerCase rnd userMessage st =
  getResponse_of_render toLowerCase (lastQuestion st) rnd userMessage st.
Proof.
  unfold getResponse, getResponse_of_render.
  destruct (includesSome (toLowerCase userMessage) crisisKeywords); reflexivity.
Qed.

(** What [getResponse] of an earlier render does to the component is what
    it does to the state of its own render, but for the question, which it
    leaves as the component has it unless it clears it. *)
Lemma getResponse_of_render_state (toLowerCase : string -> string)
    (asked : QuestionType) (rnd : Rand) (userMessage : string) (st : ChatState) :
  let back (c : ChatState) :=
    {| lastQuestion :=
         if QuestionType_eqb (lastQuestion c) asked then lastQuestion st
         else lastQuestion c;
       emergencyCalls := emergencyCalls c |} in
  getResponse_of_render toLowerCase asked rnd userMessage st =
  match getResponse toLowerCase rnd userMessage
          {| lastQuestion := asked; emergencyCalls := emergencyCalls st |} with
  | Normal reply c => Normal reply (back c)
  | Throw e c => Throw e (back c)
  end.
Proof.
  intros back. rewrite getResponse_current. cbn [lastQuestion].
  unfold getResponse_of_render, back.
  destruct (includesSome (toLowerCase userMessage) crisisKeywords).
  { unfold bind, onEmergency. destruct (responses !! "crisis"); cbn;
      rewrite QuestionType_eqb_refl; destruct st; reflexivity. }
  rewrite !generalResponse_firstTopic.
  assert (Hg : forall l : list string,
             pick rnd (Some l) st =
             match pick rnd (Some l)
                     {| lastQuestion := asked; emergencyCalls := emergencyCalls st |} with
             | Normal reply c =>
                 Normal reply
                   {| lastQuestion :=
                        if QuestionType_eqb (lastQuestion c) asked then lastQuestion st
                        else lastQuestion c;
                      emergencyCalls := emergencyCalls c |}
             | Throw e c =>
                 Throw e
                   {| lastQuestion :=
                        if QuestionType_eqb (lastQuestion c) asked then lastQuestion st
                        else lastQuestion c;
                      emergencyCalls := emergencyCalls c |}
             end).
  { intros l. cbn. rewrite QuestionType_eqb_refl. destruct st; reflexivity. }
  destruct (negb (QuestionType_eqb asked none)) eqn:Eq; [|apply Hg].
  destruct (includesSome (toLowerCase userMessage) ["yes"; "yeah"; "yep"; "sure"]).
  { unfold bind, setLastQuestion, ret.
    destruct (responses !! QuestionType_string asked); cbn.
    - destruct asked; try discriminate Eq; reflexivity.
    - rewrite QuestionType_eqb_refl. destruct st; reflexivity. }
  destruct (includesSome (toLowerCase userMessage) ["no"; "nah"; "nope"]); [|apply Hg].
  unfold bind, setLastQuestion, ret.
  destruct (responses !! ("no" +:+ QuestionType_string asked)); cbn.
  - destruct asked; try discriminate Eq; reflexivity.
  - rewrite QuestionType_eqb_refl. destruct st; reflexivity.
Qed.

(** The reply of a timer in a context of the specification. *)
Lemma timer_reply (toLowerCase : string -> string) (asked : QuestionType)
    (rnd : Rand) (userMessage : string) (st : ChatState) :
  specContext asked ->
  exists (reply : string) (st' : ChatState),
    getResponse_of_render toLowerCase asked rnd userMessage st
      = Normal (Some reply) st' /\
    reply <> "" /\
    emergencyCalls st' =
      (emergencyCalls st + if alarming toLowerCase userMessage then 1 else 0)%nat /\
    (lastQuestion st' = lastQuestion st \/ lastQuestion st' = none) /\
    (alarming toLowerCase userMessage = false ->
     asked <> none ->
     includesSome (toLowerCase userMessage) affirmative = true ->
     In reply (acknowledged asked) /\ lastQuestion st' = none) /\
    (alarming toLowerCase userMessage = false ->
     asked = none ->
     In reply (firstTopic topicTable (toLowerCase userMessage)) /\
     lastQuestion st' = lastQuestion st).
Proof.
  intros Hq. rewrite getResponse_of_render_state. cbv zeta.
  set (render := {| lastQuestion := asked; emergencyCalls := emergencyCalls st |}).
  unfold alarming.
  destruct (includesSome (toLowerCase userMessage) crisisKeywords) eqn:Hc.
  { destruct (crisis_reply toLowerCase rnd userMessage render Hc) as (r & -> & _ & _ & Hne).
    exists r. eexists. split; [reflexivity|]. cbn [lastQuestion emergencyCalls raiseEmergency render].
    rewrite QuestionType_eqb_refl.
    split; [exact Hne|]. split; [lia|]. split; [now left|]. split; discriminate. }
  assert (Hgen : asked = none \/
                 (includesSome (toLowerCase userMessage) affirmative = false /\
                  includesSome (toLowerCase userMessage) negative = false) ->
                 exists r : string,
                   getResponse toLowerCase rnd userMessage render = Normal (Some r) render /\
                   In r (firstTopic topicTable (toLowerCase userMessage)) /\ r <> "").
  { intros Hg. apply general_reply; [exact Hc | exact Hg]. }
  assert (Hmeal : asked = breakfast \/ asked = lunch \/ asked = dinner ->
                  asked <> none /\ QuestionType_eqb none asked = false).
  { intros [-> | [-> | ->]]; split; (discriminate || reflexivity). }
  destruct Hq as [Hq | [Hq | [Hq | Hq]]].
  4: { destruct (Hgen (or_introl Hq)) as (r & -> & Hin & Hne).
       exists r. eexists. split; [reflexivity|].
       cbn [lastQuestion emergencyCalls render]. rewrite QuestionType_eqb_refl.
       split; [exact Hne|]. split; [lia|]. split; [now left|].
       split; [congruence|]. intros _ _. now split. }
  all: assert (Hm : asked = breakfast \/ asked = lunch \/ asked = dinner) by tauto;
    destruct (Hmeal Hm) as [Hnn Heq];
    destruct (includesSome (toLowerCase userMessage) affirmative) eqn:Hy;
    [ destruct (acknowledged_reply toLowerCase rnd userMessage render Hc Hm Hy)
        as (r & -> & Hin & Hne);
      exists r; eexists; split; [reflexivity|];
      cbn [lastQuestion emergencyCalls render clearQuestion]; rewrite Heq;
      split; [exact Hne|]; split; [lia|]; split; [now right|];
      split; [intros _ _ _; now split | congruence]
    | destruct (includesSome (toLowerCase userMessage) negative) eqn:Hn;
      [ destruct (missed_reply toLowerCase rnd userMessage render Hc Hm Hy Hn)
          as (r & -> & Hin & Hne);
        exists r; eexists; split; [reflexivity|];
        cbn [lastQuestion emergencyCalls render clearQuestion]; rewrite Heq;
        split; [exact Hne|]; split; [lia|]; split; [now right|];
        split; [discriminate | congruence]
      | destruct (Hgen (or_intror (conj eq_refl eq_refl))) as (r & -> & Hin & Hne);
        exists r; eexists; split; [reflexivity|];
        cbn [lastQuestion emergencyCalls render]; rewrite QuestionType_eqb_refl;
        split; [exact Hne|]; split; [lia|]; split; [now left|];
        split; [discriminate | congruence] ] ].
Qed.

(** A send whose timer fires before anything else happens is [handleSend]
    with the callback of its timer run right after it. *)
Lemma send_then_fire (toLowerCase trim : string -> string) (rnd : Rand) (st : BotState) :
  (send trim ;;; fire toLowerCase rnd) {| view := st; timers := [] |} =
  inView (handleSend toLowerCase trim rnd) {| view := st; timers := [] |}.
Proof.
  unfold send, handleSend, fire, inView, bind, setMessages, setInput, setTimeout,
    timerCallback, inComponent.
  cbn [view timers messages input chat].
  destruct (String.eqb (trim (input st)) "") eqn:E; [reflexivity|].
  unfold bind, setMessages, setInput, inComponent.
  cbn [view timers messages input chat app asked typed].
  rewrite getResponse_current.
  destruct (getResponse_of_render _ _ _ _ _); reflexivity.
Qed.

Lemma alarms_app (toLowerCase : string -> string) (l1 l2 : list string) :
  alarms toLowerCase (l1 ++ l2) = (alarms toLowerCase l1 + alarms toLowerCase l2)%nat.
Proof. unfold alarms. now rewrite List.filter_app, length_app. Qed.

Lemma alarms_cons (toLowerCase : string -> string) (t : string) (l : list string) :
  alarms toLowerCase (t :: l) =
  ((if alarming toLowerCase t then 1 else 0) + alarms toLowerCase l)%nat.
Proof. unfold alarms. cbn [List.filter]. now destruct (alarming toLowerCase t). Qed.

(** One event in a context of the specification. *)
Lemma step_spec (toLowerCase trim : string -> string) (e : Event) (s : Session) :
  specSession s ->
  exists s' : Session,
    step toLowerCase trim e s = Normal tt s' /\
    specSession s' /\
    (forall rest : list Event,
        sentTexts trim (e :: rest) (input (view s)) =
        sentNow trim e (input (view s)) ++ sentTexts trim rest (input (view s'))) /\
    (emergencyCalls (chat (view s')) + alarms toLowerCase (map typed (timers s')) =
     emergencyCalls (chat (view s)) + alarms toLowerCase (map typed (timers s))
     + alarms toLowerCase (sentNow trim e (input (view s))))%nat /\
    ((forall hour currentMood soulNoteContent,
         e <> Greets hour currentMood soulNoteContent) ->
     (exists added : list Message, messages (view s') = messages (view s) ++ added) /\
     (length (messages (view s')) + length (timers s') =
      length (messages (view s)) + length (timers s)
      + 2 * length (sentNow trim e (input (view s))))%nat /\
     (lastQuestion (chat (view s')) = lastQuestion (chat (view s)) \/
      lastQuestion (chat (view s')) = none)).
Proof.
  intros [Hq Ht]. destruct s as [[msgs inp c] ts]. cbn [view timers chat] in Hq, Ht.
  destruct e as [typedText| |rnd|hour currentMood soulNoteContent].
  - (* the user types *)
    eexists. split; [reflexivity|]. cbn [view timers messages input chat sentNow].
    split; [now split|]. split; [reflexivity|].
    split; [cbn [alarms List.filter length]; lia|].
    intros _. split; [exists []; now rewrite app_nil_r|].
    split; [cbn [length]; lia | now left].
  - (* the user sends *)
    cbn [step]. unfold send. cbn [view input messages chat sentNow sentTexts].
    destruct (String.eqb (trim inp) "") eqn:E.
    + eexists. split; [reflexivity|]. cbn [view timers messages input chat].
      split; [now split|]. split; [reflexivity|].
      split; [cbn [alarms List.filter length]; lia|].
      intros _. split; [exists []; now rewrite app_nil_r|].
      split; [cbn [length]; lia | now left].
    + eexists. split; [reflexivity|]. cbn [view timers messages input chat].
      split.
      { split; [exact Hq|]. apply Forall_app. split; [exact Ht|].
        constructor; [exact Hq | constructor]. }
      split; [reflexivity|].
      split.
      { rewrite map_app, alarms_app. cbn [map typed]. lia. }
      intros _. split; [eexists; reflexivity|].
      split; [rewrite !length_app; cbn [length]; lia | now left].
  - (* the oldest timer fires *)
    cbn [step]. unfold fire. cbn [timers view sentNow].
    destruct ts as [|[typedText q] rest].
    + eexists. split; [reflexivity|]. cbn [view timers messages input chat].
      split; [now split|]. split; [reflexivity|].
      split; [cbn [alarms List.filter length]; lia|].
      intros _. split; [exists []; now rewrite app_nil_r|].
      split; [cbn [length]; lia | now left].
    + apply List.Forall_cons_iff in Ht. destruct Ht as [Hqt Ht]. cbn [asked] in Hqt.
      destruct (timer_reply toLowerCase q rnd typedText c Hqt)
        as (reply & c' & Hr & _ & He & Hl & _).
      unfold inView, timerCallback, bind, inComponent, setMessages.
      cbn [view timers messages input chat asked typed]. rewrite Hr.
      eexists. split; [reflexivity|]. cbn [view timers messages input chat].
      split.
      { split; cbn [view timers chat]; [|exact Ht].
        destruct Hl as [-> | ->]; [exact Hq|]. unfold specContext. tauto. }
      split; [reflexivity|].
      split.
      { cbn [map typed]. rewrite alarms_cons, He. cbn [alarms List.filter length]. lia. }
      intros _. split; [eexists; reflexivity|].
      split; [rewrite !length_app; cbn [length]; lia | exact Hl].
  - (* the greeting runs again *)
    cbn [step]. unfold inView, greet.
    pose proof (greeting_question toLowerCase hour currentMood soulNoteContent) as Hg.
    destruct (greeting toLowerCase hour currentMood soulNoteContent) as [g question].
    cbn [snd] in Hg.
    eexists. split; [reflexivity|]. cbn [view timers messages input chat lastQuestion sentNow].
    split; [split; [unfold specContext; tauto | exact Ht]|].
    split; [reflexivity|].
    split; [cbn [emergencyCalls alarms List.filter length]; lia|].
    intros Hno. exfalso. now apply (Hno hour currentMood soulNoteContent).
Qed.

(** X4: over every sequence of events of the component (the user types,
    the user sends, the oldest timer fires, the greeting runs again), sends
    that overlap within the 1000 ms included, from a context of the
    specification: no callback throws and the session stays in such a
    context; [onEmergency] has been called once for each text with a crisis
    keyword whose timer has fired, and never otherwise; and as long as the
    greeting does not run again, the earlier messages are kept, every text
    sent adds one message at once and one when its timer fires, and the
    pending question is the one of the start or has been cleared. *)
Theorem conversation_invariants (toLowerCase trim : string -> string)
    (events : list Event) (s : Session) :
  specSession s ->
  let s' := snd (run toLowerCase trim events s) in
  let sent := sentTexts trim events (input (view s)) in
  fst (run toLowerCase trim events s) = 0%nat /\
  specSession s' /\
  (emergencyCalls (chat (view s')) + alarms toLowerCase (map typed (timers s')) =
   emergencyCalls (chat (view s)) + alarms toLowerCase (map typed (timers s))
   + alarms toLowerCase sent)%nat /\
  (noGreeting events ->
   (exists added : list Message, messages (view s') = messages (view s) ++ added) /\
   (length (messages (view s')) + length (timers s') =
    length (messages (view s)) + length (timers s) + 2 * length sent)%nat /\
   (lastQuestion (chat (view s')) = lastQuestion (chat (view s)) \/
    lastQuestion (chat (view s')) = none)).
Proof.
  revert s. induction events as [|e events IH]; intros s Hs; cbv zeta.
  - cbn [run sentTexts fst snd alarms List.filter length].
    split; [reflexivity|]. split; [exact Hs|]. split; [lia|].
    intros _. split; [exists []; now rewrite app_nil_r|]. split; [lia | now left].
  - destruct (step_spec toLowerCase trim e s Hs) as (s1 & H1 & Hs1 & Hsent & He1 & Hm1).
    specialize (IH s1 Hs1). cbv zeta in IH.
    destruct IH as (Hn & Hs2 & He2 & Hm2).
    cbn [run]. rewrite H1, Hsent.
    split; [exact Hn|]. split; [exact Hs2|].
    split; [rewrite alarms_app; lia|].
    intros Hno.
    destruct Hm1 as ((added1 & Ha1) & Hl1 & Hq1).
    { intros hour currentMood soulNoteContent ->.
      apply (Hno hour currentMood soulNoteContent). now left. }
    destruct Hm2 as ((added2 & Ha2) & Hl2 & Hq2).
    { intros hour currentMood soulNoteContent Hin.
      apply (Hno hour currentMood soulNoteContent). now right. }
    split; [exists (added1 ++ added2); now rewrite Ha2, Ha1, app_assoc|].
    split; [rewrite length_app; lia|].
    destruct Hq2 as [Hq2 | Hq2]; [|now right].
    rewrite Hq2. exact Hq1.
Qed.

Lemma conversation_invariants_witness :
  let events :=
    [Types "yes"; Sends; Types "I want to DIE"; Sends; Sends;
     TimerFires {| rnum := 0; rgap := 1 |}; TimerFires {| rnum := 1; rgap := 1 |}] in
  let s' :=
    snd (run ascii_toLowerCase (fun s => s) events
           {| view := openSession ascii_toLowerCase 9 None None; timers := [] |}) in
  emergencyCalls (chat (view s')) = 1%nat /\
  length (messages (view s')) = 5%nat /\
  timers s' = [].
Proof.
  destruct (conversation_invariants ascii_toLowerCase (fun s => s)
              [Types "yes"; Sends; Types "I want to DIE"; Sends; Sends;
               TimerFires {| rnum := 0; rgap := 1 |};
               TimerFires {| rnum := 1; rgap := 1 |}]
              {| view := openSession ascii_toLowerCase 9 None None; timers := [] |})
    as (_ & _ & He & Hm).
  - split; [unfold specContext; simpl; tauto | constructor].
  - cbv zeta.
    assert (Ht : timers
                   (snd (run ascii_toLowerCase (fun s => s)
                           [Types "yes"; Sends; Types "I want to DIE"; Sends; Sends;
                            TimerFires {| rnum := 0; rgap := 1 |};
                            TimerFires {| rnum := 1; rgap := 1 |}]
                           {| view := openSession ascii_toLowerCase 9 None None;
                              timers := [] |})) = [])
      by (vm_compute; reflexivity).
    destruct Hm as (_ & Hl & _).
    { intros hour currentMood soulNoteContent Hin.
      repeat (destruct Hin as [Hin | Hin]; [discriminate Hin|]). destruct Hin. }
    rewrite Ht in He, Hl. split; [|split; [|exact Ht]].
    + etransitivity; [|etransitivity; [exact He|]]; [cbn; lia | vm_compute; reflexivity].
    + etransitivity; [|etransitivity; [exact Hl|]]; [cbn; lia | vm_compute; reflexivity].
Defined.

(** A timer set while a meal question was pending acknowledges the meal,
    whatever has become of the question since; one set when no question
    was pending answers by topic. *)
Lemma timer_acknowledges (toLowerCase : string -> string) (asked : QuestionType)
    (rnd : Rand) (userMessage : string) (st : ChatState) :
  asked = breakfast \/ asked = lunch \/ asked = dinner ->
  alarming toLowerCase userMessage = false ->
  includesSome (toLowerCase userMessage) affirmative = true ->
  exists reply : string,
    In reply (acknowledged asked) /\
    getResponse_of_render toLowerCase asked rnd userMessage st
      = Normal (Some reply) (clearQuestion st).
Proof.
  intros Hq Ha Hy.
  destruct (timer_reply toLowerCase asked rnd userMessage st)
    as (reply & st' & Hr & _ & He & _ & Hack & _); [unfold specContext; tauto|].
  destruct Hack as [Hin Hn]; [exact Ha | destruct Hq as [-> | [-> | ->]]; discriminate | exact Hy |].
  exists reply. split; [exact Hin|]. rewrite Hr. f_equal.
  rewrite Ha in He. destruct st' as [q' n']. cbn [lastQuestion emergencyCalls] in Hn, He.
  unfold clearQuestion. f_equal; [exact Hn | lia].
Qed.

Lemma timer_answers_by_topic (toLowerCase : string -> string) (rnd : Rand)
    (userMessage : string) (st : ChatState) :
  alarming toLowerCase userMessage = false ->
  exists reply : string,
    In reply (firstTopic topicTable (toLowerCase userMessage)) /\
    getResponse_of_render toLowerCase none rnd userMessage st = Normal (Some reply) st.
Proof.
  intros Ha.
  destruct (timer_reply toLowerCase none rnd userMessage st)
    as (reply & st' & Hr & _ & He & _ & _ & Hgen); [unfold specContext; tauto|].
  destruct (Hgen Ha eq_refl) as [Hin Hq].
  exists reply. split; [exact Hin|]. rewrite Hr. f_equal.
  rewrite Ha in He. destruct st' as [q' n'], st as [q n].
  cbn [lastQuestion emergencyCalls] in Hq, He. f_equal; [exact Hq | lia].
Qed.

(** X23: two texts that say yes, sent one after the other while a meal
    question is pending.  When the second is sent before the timer of the
    first has fired, both timers have kept the question and both replies
    acknowledge the meal, after the two texts of the user; when the first
    timer fires before the second text is sent, the second reply is one
    by topic. *)
Theorem overlapping_sends_keep_their_question (toLowerCase trim : string -> string)
    (rnd1 rnd2 : Rand) (text1 text2 : string) (st : BotState) :
  let q := lastQuestion (chat st) in
  q = breakfast \/ q = lunch \/ q = dinner ->
  trim text1 <> "" -> trim text2 <> "" ->
  alarming toLowerCase text1 = false -> alarming toLowerCase text2 = false ->
  includesSome (toLowerCase text1) affirmative = true ->
  includesSome (toLowerCase text2) affirmative = true ->
  (exists reply1 reply2 : string,
      In reply1 (acknowledged q) /\ In reply2 (acknowledged q) /\
      run toLowerCase trim
        [Types text1; Sends; Types text2; Sends; TimerFires rnd1; TimerFires rnd2]
        {| view := st; timers := [] |}
      = (0%nat,
         {| view :=
              {| messages :=
                   messages st ++ [fromUser text1; fromUser text2;
                                   fromBot reply1; fromBot reply2];
                 input := "";
                 chat := clearQuestion (chat st) |};
            timers := [] |})) /\
  (exists reply1 reply2 : string,
      In reply1 (acknowledged q) /\
      In reply2 (firstTopic topicTable (toLowerCase text2)) /\
      run toLowerCase trim
        [Types text1; Sends; TimerFires rnd1; Types text2; Sends; TimerFires rnd2]
        {| view := st; timers := [] |}
      = (0%nat,
         {| view :=
              {| messages :=
                   messages st ++ [fromUser text1; fromBot reply1;
                                   fromUser text2; fromBot reply2];
                 input := "";
                 chat := clearQuestion (chat st) |};
            timers := [] |})).
Proof.
  intros q Hq Ht1 Ht2 Ha1 Ha2 Hy1 Hy2.
  apply String.eqb_neq in Ht1, Ht2.
  destruct st as [msgs inp c]. cbn [chat] in q.
  destruct (timer_acknowledges toLowerCase q rnd1 text1 c Hq Ha1 Hy1) as (r1 & Hin1 & Hr1).
  split.
  - destruct (timer_acknowledges toLowerCase q rnd2 text2 (clearQuestion c) Hq Ha2 Hy2)
      as (r2 & Hin2 & Hr2).
    exists r1, r2. split; [exact Hin1|]. split; [exact Hin2|].
    cbn [run step]. unfold inView at 1, setInput at 1. cbn [view timers messages input chat].
    unfold send at 1. cbn [view timers messages input chat]. rewrite Ht1.
    unfold bind, inView, setMessages, setInput, setTimeout.
    cbn [view timers messages input chat app].
    unfold send at 1. cbn [view timers messages input chat]. rewrite Ht2.
    unfold bind, inView, setMessages, setInput, setTimeout.
    cbn [view timers messages input chat app].
    unfold fire at 1. cbn [view timers]. unfold inView, timerCallback, bind, inComponent, setMessages.
    cbn [view timers messages input chat asked typed]. fold q. rewrite Hr1.
    cbn [view timers messages input chat].
    unfold fire at 1. cbn [view timers]. unfold inView, timerCallback, bind, inComponent, setMessages.
    cbn [view timers messages input chat asked typed]. fold q. rewrite Hr2.
    cbn [view timers messages input chat]. unfold clearQuestion at 1. cbn [emergencyCalls].
    unfold fromUser, fromBot, clearQuestion. rewrite <- !app_assoc. reflexivity.
  - destruct (timer_answers_by_topic toLowerCase rnd2 text2 (clearQuestion c) Ha2)
      as (r2 & Hin2 & Hr2).
    exists r1, r2. split; [exact Hin1|]. split; [exact Hin2|].
    cbn [run step]. unfold inView at 1, setInput at 1. cbn [view timers messages input chat].
    unfold send at 1. cbn [view timers messages input chat]. rewrite Ht1.
    unfold bind, inView, setMessages, setInput, setTimeout.
    cbn [view timers messages input chat app].
    unfold fire at 1. cbn [view timers]. unfold inView, timerCallback, bind, inComponent, setMessages.
    cbn [view timers messages input chat asked typed]. fold q. rewrite Hr1.
    cbn [view timers messages input chat].
    unfold send at 1. cbn [view timers messages input chat]. rewrite Ht2.
    unfold bind, inView, setMessages, setInput, setTimeout.
    cbn [view timers messages input chat app lastQuestion clearQuestion].
    unfold fire at 1. cbn [view timers]. unfold inView, timerCallback, bind, inComponent, setMessages.
    cbn [view timers messages input chat asked typed].
    change {| lastQuestion := none; emergencyCalls := emergencyCalls c |}
      with (clearQuestion c).
    rewrite Hr2.
    cbn [view timers messages input chat].
    unfold fromUser, fromBot. rewrite <- !app_assoc. reflexivity.
Qed.

Lemma overlapping_sends_keep_their_question_witness :
  exists reply1 reply2 : string,
    In reply1 breakfast_replies /\ In reply2 breakfast_replies /\
    snd (run ascii_toLowerCase (fun s => s)
           [Types "yes"; Sends; Types "yes, I did"; Sends;
            TimerFires {| rnum := 0; rgap := 1 |}; TimerFires {| rnum := 1; rgap := 1 |}]
           {| view := openSession ascii_toLowerCase 9 None None; timers := [] |})
    = {| view :=
           {| messages :=
                messages (openSession ascii_toLowerCase 9 None None)
                ++ [fromUser "yes"; fromUser "yes, I did";
                    fromBot reply1; fromBot reply2];
              input := "";
              chat := {| lastQuestion := none; emergencyCalls := 0 |} |};
         timers := [] |}.
Proof.
  destruct (overlapping_sends_keep_their_question ascii_toLowerCase (fun s => s)
              {| rnum := 0; rgap := 1 |} {| rnum := 1; rgap := 1 |} "yes" "yes, I did"
              (openSession ascii_toLowerCase 9 None None))
    as [(r1 & r2 & H1 & H2 & Hrun) _];
    try (vm_compute; reflexivity); try discriminate.
  - left. reflexivity.
  - exists r1, r2. split; [exact H1|]. split; [exact H2|]. rewrite Hrun. reflexivity.
Defined.

(** X5: the greeting asks the question it leaves pending: breakfast before
    12, lunch before 18, dinner from then on, whatever the mood and the
    journal; and what it puts in front of the meal question does not hide
    it. *)
Theorem greeting_asks_pending_question (toLowerCase : string -> string) (hour : Z)
    (currentMood soulNoteContent : option string) :
  let g := fst (greeting toLowerCase hour currentMood soulNoteContent) in
  let q := snd (greeting toLowerCase hour currentMood soulNoteContent) in
  q = (if hour <? 12 then breakfast else if hour <? 18 then lunch else dinner) /\
  substring (questionText q) g /\
  substring "Hi there, honey!" g /\
  lastQuestion (chat (openSession toLowerCase hour currentMood soulNoteContent)) = q /\
  messages (openSession toLowerCase hour currentMood soulNoteContent)
    = [{| text := Some g; isBot := true |}].
Proof.
  cbv zeta. unfold openSession, greeting.
  assert (Hpre : forall (kw base : string),
             substring kw base ->
             substring kw
               (match soulNoteContent with
                | Some n =>
                    if negb (String.eqb n "")
                    then "I see you've been writing in your journal. It's good to let those thoughts out. 📔 "
                         +:+ match currentMood with
                             | Some m =>
                                 if negb (String.eqb m "")
                                    && existsb (String.eqb m)
                                         ["Sad"; "Tired"; "Stressed"; "Anxious"]
                                 then "I noticed you're feeling " +:+ toLowerCase m
                                      +:+ " today, my dear. 💙 I'm here for you. " +:+ base
                                 else base
                             | None => base
                             end
                    else match currentMood with
                         | Some m =>
                             if negb (String.eqb m "")
                                && existsb (String.eqb m)
                                     ["Sad"; "Tired"; "Stressed"; "Anxious"]
                             then "I noticed you're feeling " +:+ toLowerCase m
                                  +:+ " today, my dear. 💙 I'm here for you. " +:+ base
                             else base
                         | None => base
                         end
                | None => match currentMood with
                          | Some m =>
                              if negb (String.eqb m "")
                                 && existsb (String.eqb m)
                                      ["Sad"; "Tired"; "Stressed"; "Anxious"]
                              then "I noticed you're feeling " +:+ toLowerCase m
                                   +:+ " today, my dear. 💙 I'm here for you. " +:+ base
                              else base
                          | None => base
                          end
                end)).
  { intros kw base Hb.
    assert (Hmood : substring kw
                      (match currentMood with
                       | Some m =>
                           if negb (String.eqb m "")
                              && existsb (String.eqb m)
                                   ["Sad"; "Tired"; "Stressed"; "Anxious"]
                           then "I noticed you're feeling " +:+ toLowerCase m
                                +:+ " today, my dear. 💙 I'm here for you. " +:+ base
                           else base
                       | None => base
                       end)).
    { destruct currentMood as [m|]; [|exact Hb].
      destruct (negb (String.eqb m "") && existsb (String.eqb m) _); [|exact Hb].
      now repeat apply substring_app_left. }
    destruct soulNoteContent as [n|]; [|exact Hmood].
    destruct (negb (String.eqb n "")); [|exact Hmood].
    now apply substring_app_left. }
  destruct (hour <? 12); [|destruct (hour <? 18)]; cbn [fst snd questionText chat lastQuestion messages];
    (split; [reflexivity|]); (split; [|split; [|split; reflexivity]]);
    apply Hpre.
  - exists "Hi there, honey! 👋 I'm here to support you. Good morning! ", " 🍳". reflexivity.
  - exists "", " 👋 I'm here to support you. Good morning! Did you have breakfast today? 🍳". reflexivity.
  - exists "Hi there, honey! 👋 I'm here to support you. Good afternoon! ", " 🍽️". reflexivity.
  - exists "", " 👋 I'm here to support you. Good afternoon! Have you had lunch yet? 🍽️". reflexivity.
  - exists "Hi there, honey! 👋 I'm here to support you. Good evening! ", " 🌙". reflexivity.
  - exists "", " 👋 I'm here to support you. Good evening! Did you have dinner? 🌙". reflexivity.
Qed.
(* ===================================================================== *)
(** * More on the component of FINAL-PROJECT *)
(* ===================================================================== *)

Lemma FP_responses_meals :
  FinalProject.responses !! "breakfast" = Some FinalProject.breakfast_replies /\
  FinalProject.responses !! "lunch" = Some FinalProject.lunch_replies /\
  FinalProject.responses !! "dinner" = Some FinalProject.dinner_replies /\
  FinalProject.responses !! "nobreakfast" = Some FinalProject.nobreakfast_replies /\
  FinalProject.responses !! "nolunch" = Some FinalProject.nolunch_replies /\
  FinalProject.responses !! "nodinner" = Some FinalProject.nodinner_replies /\
  FinalProject.responses !! "mood" = None /\
  FinalProject.responses !! "nomood" = None.
Proof. repeat split; vm_compute; reflexivity. Qed.

Lemma FP_responses_topics :
  FinalProject.responses !! "love" = Some FinalProject.love_replies /\
  FinalProject.responses !! "advice" = Some FinalProject.advice_replies /\
  FinalProject.responses !! "sad" = Some FinalProject.sad_replies /\
  FinalProject.responses !! "happy" = Some FinalProject.happy_replies /\
  FinalProject.responses !! "stressed" = Some FinalProject.stressed_replies /\
  FinalProject.responses !! "anxious" = Some FinalProject.anxious_replies /\
  FinalProject.responses !! "default" = Some FinalProject.default_replies.
Proof. repeat split; vm_compute; reflexivity. Qed.

Lemma FP_replySets_filled :
  Forall (fun l : list string => l <> [] /\ Forall (fun r : string => r <> "") l)
    FP_replySets.
Proof.
  unfold FP_replySets.
  repeat (apply List.Forall_cons;
          [split; [discriminate
                  | repeat (apply List.Forall_cons; [discriminate|]); apply List.Forall_nil]
          |]).
  apply List.Forall_nil.
Qed.

Lemma FP_pick_replySet {S : Type} (rnd : Rand) (l : list string) (st : S) :
  In l FP_replySets ->
  exists reply : string,
    pick rnd (Some l) st = Normal (Some reply) st /\ In reply l /\ reply <> "".
Proof.
  intros Hl. pose proof FP_replySets_filled as H.
  rewrite Forall_forall in H. destruct (H l (proj2 (list_elem_of_In _ _) Hl)) as [Hne Hall].
  destruct (pick_from rnd l st Hne) as (reply & _ & Hp & Hin).
  exists reply. split; [exact Hp|]. split; [exact Hin|].
  rewrite Forall_forall in Hall. apply Hall, list_elem_of_In, Hin.
Qed.

(** The chain of [if]s of the fallback picks from one of the arrays. *)
Lemma FP_generalResponse_pick (rnd : Rand) (m : string) :
  exists l : list string,
    In l FP_replySets /\ FinalProject.generalResponse rnd m = pick rnd (Some l).
Proof.
  unfold FinalProject.generalResponse.
  destruct FP_responses_topics as (-> & -> & -> & -> & -> & -> & ->).
  repeat match goal with
         | |- context [if ?b then _ else _] => destruct b
         end; eexists; (split; [|reflexivity]); unfold FP_replySets; simpl; tauto.
Qed.

Ltac eval_question_eqb :=
  match goal with
  | |- context [QuestionType_eqb ?a ?b] =>
      let v := eval vm_compute in (QuestionType_eqb a b) in
      change (QuestionType_eqb a b) with v
  end.

Lemma substring_weaken (short rest s : string) :
  substring (short +:+ rest) s -> substring short s.
Proof.
  intros (b & a & ->). exists b, (rest +:+ a). now rewrite string_app_assoc.
Qed.

(** X6: in the fallback rules of FINAL-PROJECT a message that contains
    "i didn't" contains the affirmative "i did", which is tested first:
    with a meal question pending it is answered as if the meal had been
    eaten, and the question is cleared. *)
Theorem didnt_is_read_as_did (toLowerCase : string -> string) (rnd : Rand)
    (userMessage : string) (st : FinalProject.BotState) :
  FinalProject.lastQuestion st = breakfast \/ FinalProject.lastQuestion st = lunch \/
  FinalProject.lastQuestion st = dinner ->
  substring "i didn't" (toLowerCase userMessage) ->
  exists reply : string,
    FinalProject.getFallbackResponse toLowerCase rnd userMessage st
      = Normal (Some reply) (FP_clearQuestion st) /\
    In reply (FP_acknowledged (FinalProject.lastQuestion st)) /\
    ~ In reply (FP_missed (FinalProject.lastQuestion st)).
Proof.
  intros Hq Hs.
  assert (Hy : includesSome (toLowerCase userMessage) ["yes"; "yeah"; "yep"; "sure"; "i did"]
               = true).
  { apply includesSome_spec. exists "i did". split; [simpl; tauto|].
    apply (substring_weaken "i did" "n't"). exact Hs. }
  unfold FinalProject.getFallbackResponse, bind, FinalProject.readLastQuestion.
  rewrite Hy.
  destruct FP_responses_meals as (Hb & Hl & Hd & _).
  destruct Hq as [E | [E | E]]; rewrite E; eval_question_eqb;
    cbn [QuestionType_string negb FP_acknowledged FP_missed];
    rewrite ?Hb, ?Hl, ?Hd;
    match goal with
    | |- context [pick rnd (Some ?l) st] =>
        destruct (FP_pick_replySet rnd l st) as (r & Hp & Hin & _);
          [unfold FP_replySets; simpl; tauto | rewrite Hp]
    end;
    exists r; (split; [reflexivity|]); (split; [exact Hin|]);
    intros Hm; simpl in Hin, Hm;
    destruct Hin as [<- | [<- | []]]; destruct Hm as [Hm | [Hm | []]]; discriminate Hm.
Qed.

Lemma didnt_is_read_as_did_witness :
  exists reply : string,
    FinalProject.getFallbackResponse ascii_toLowerCase {| rnum := 0; rgap := 1 |}
      "No, I didn't eat"
      {| FinalProject.messages := []; FinalProject.input := "";
         FinalProject.lastQuestion := lunch; FinalProject.isTyping := true;
         FinalProject.emergencyCalls := 0 |}
    = Normal (Some reply)
        {| FinalProject.messages := []; FinalProject.input := "";
           FinalProject.lastQuestion := none; FinalProject.isTyping := true;
           FinalProject.emergencyCalls := 0 |} /\
    In reply FinalProject.lunch_replies.
Proof.
  destruct (didnt_is_read_as_did ascii_toLowerCase {| rnum := 0; rgap := 1 |}
              "No, I didn't eat"
              {| FinalProject.messages := []; FinalProject.input := "";
                 FinalProject.lastQuestion := lunch; FinalProject.isTyping := true;
                 FinalProject.emergencyCalls := 0 |})
    as (reply & Hr & Hin & _).
  - simpl. tauto.
  - exists "no, ", " eat". reflexivity.
  - exists reply. split; [exact Hr | exact Hin].
Defined.

(** X7: when the message has no crisis keyword and the backend answers
    with a text that is not empty, [handleSend] shows that text as it is,
    never consults the fallback rules, leaves the pending question pending
    and does not call [onEmergency]. *)
Theorem backend_answer_is_shown (toLowerCase trim : string -> string)
    (answer : string) (rnd rnd' : Rand) (st : FinalProject.BotState) :
  trim (FinalProject.input st) <> "" ->
  ~ mentions (toLowerCase (FinalProject.input st)) FinalProject.crisisKeywords ->
  answer <> "" ->
  FinalProject.handleSend toLowerCase trim (FinalProject.Resolved answer) rnd rnd' st
  = Normal tt (FP_answered st (Some answer) (FinalProject.lastQuestion st)).
Proof.
  intros Ht Hc Ha. apply includesSome_false in Hc.
  unfold FinalProject.handleSend.
  apply String.eqb_neq in Ht. apply String.eqb_neq in Ha.
  rewrite Ht, Hc.
  unfold bind, tryFinally, tryCatch, FinalProject.await, ret,
    FinalProject.setMessages, FinalProject.setInput, FinalProject.setIsTyping.
  rewrite Ha.
  cbn [negb FinalProject.messages FinalProject.input FinalProject.lastQuestion
         FinalProject.isTyping FinalProject.emergencyCalls].
  unfold FP_answered. now rewrite <- app_assoc.
Qed.

Lemma backend_answer_is_shown_witness :
  FinalProject.handleSend ascii_toLowerCase (fun s => s) (FinalProject.Resolved "Hello, dear")
    {| rnum := 0; rgap := 1 |} {| rnum := 0; rgap := 1 |}
    {| FinalProject.messages := []; FinalProject.input := "yes";
       FinalProject.lastQuestion := dinner; FinalProject.isTyping := false;
       FinalProject.emergencyCalls := 0 |}
  = Normal tt
      {| FinalProject.messages :=
           [{| FinalProject.text := Some "yes"; FinalProject.isBot := false |};
            {| FinalProject.text := Some "Hello, dear"; FinalProject.isBot := true |}];
         FinalProject.input := "";
         FinalProject.lastQuestion := dinner; FinalProject.isTyping := false;
         FinalProject.emergencyCalls := 0 |}.
Proof.
  apply (backend_answer_is_shown ascii_toLowerCase (fun s => s) "Hello, dear").
  - discriminate.
  - apply includesSome_false. vm_compute. reflexivity.
  - discriminate.
Defined.

(** In the contexts of the specification the fallback returns a reply. *)
Lemma FP_fallback_returns (toLowerCase : string -> string) (rnd : Rand)
    (userMessage : string) (st : FinalProject.BotState) :
  specContext (FinalProject.lastQuestion st) ->
  exists (reply : string) (st' : FinalProject.BotState),
    FinalProject.getFallbackResponse toLowerCase rnd userMessage st
      = Normal (Some reply) st' /\
    reply <> "" /\ (st' = st \/ st' = FP_clearQuestion st).
Proof.
  intros Hq.
  unfold FinalProject.getFallbackResponse, bind, FinalProject.readLastQuestion.
  destruct (FP_generalResponse_pick rnd (toLowerCase userMessage)) as (lg & Hlg & Eg).
  assert (Hgen : exists (reply : string) (st' : FinalProject.BotState),
             FinalProject.generalResponse rnd (toLowerCase userMessage) st
               = Normal (Some reply) st' /\
             reply <> "" /\ (st' = st \/ st' = FP_clearQuestion st)).
  { rewrite Eg. destruct (FP_pick_replySet rnd lg st Hlg) as (r & Hp & _ & Hne).
    exists r, st. split; [exact Hp|]. split; [exact Hne | now left]. }
  destruct FP_responses_meals as (Hb & Hl & Hd & Hnb & Hnl & Hnd & _).
  destruct Hq as [E | [E | [E | E]]]; rewrite E; eval_question_eqb;
    cbn [QuestionType_string negb]; [| | |exact Hgen].
  all: destruct (includesSome (toLowerCase userMessage)
                   ["yes"; "yeah"; "yep"; "sure"; "i did"]);
    [|destruct (includesSome (toLowerCase userMessage)
                  ["no"; "nah"; "nope"; "not yet"; "i didn't"]); [|exact Hgen]].
  all: try change ("no" +:+ "breakfast") with "nobreakfast".
  all: try change ("no" +:+ "lunch") with "nolunch".
  all: try change ("no" +:+ "dinner") with "nodinner".
  all: rewrite ?Hb, ?Hl, ?Hd, ?Hnb, ?Hnl, ?Hnd.
  all: match goal with
       | |- context [pick _ (Some ?l) _] =>
           destruct (FP_pick_replySet rnd l st) as (r & Hp & _ & Hne);
             [unfold FP_replySets; simpl; tauto | rewrite Hp]
       end.
  all: exists r, (FP_clearQuestion st); split; [reflexivity|]; split; [exact Hne | now right].
Qed.

(** X8: when the message has no crisis keyword and the backend gives the
    empty text or fails, [handleSend] shows a reply of the fallback rules
    (with the first random value in the first case, the second in the
    other), in every context of the specification: it does not throw, the
    reply is not empty, the typing mark is off and [onEmergency] is not
    called. *)
Theorem fallback_answer_is_shown (toLowerCase trim : string -> string)
    (gemini : FinalProject.Awaited) (rnd rnd' : Rand) (st : FinalProject.BotState) :
  trim (FinalProject.input st) <> "" ->
  ~ mentions (toLowerCase (FinalProject.input st)) FinalProject.crisisKeywords ->
  gemini = FinalProject.Resolved "" \/ gemini = FinalProject.Rejected ->
  specContext (FinalProject.lastQuestion st) ->
  exists (reply : string) (q : QuestionType),
    FinalProject.handleSend toLowerCase trim gemini rnd rnd' st
      = Normal tt (FP_answered st (Some reply) q) /\
    reply <> "" /\
    (q = FinalProject.lastQuestion st \/ q = none) /\
    exists st0 st1 : FinalProject.BotState,
      FinalProject.lastQuestion st0 = FinalProject.lastQuestion st /\
      FinalProject.getFallbackResponse toLowerCase
        (match gemini with FinalProject.Rejected => rnd' | _ => rnd end)
        (FinalProject.input st) st0 = Normal (Some reply) st1.
Proof.
  intros Ht Hc Hg Hq. apply includesSome_false in Hc.
  unfold FinalProject.handleSend.
  apply String.eqb_neq in Ht. rewrite Ht, Hc.
  unfold bind at 1 2 3. unfold FinalProject.setMessages at 1, FinalProject.setInput at 1,
    FinalProject.setIsTyping at 1.
  cbn [FinalProject.messages FinalProject.input FinalProject.lastQuestion
         FinalProject.isTyping FinalProject.emergencyCalls].
  set (st0 := {| FinalProject.messages := _; FinalProject.input := "";
                 FinalProject.lastQuestion := FinalProject.lastQuestion st;
                 FinalProject.isTyping := true;
                 FinalProject.emergencyCalls := FinalProject.emergencyCalls st |}).
  assert (Hq0 : specContext (FinalProject.lastQuestion st0)) by exact Hq.
  destruct Hg as [-> | ->].
  - destruct (FP_fallback_returns toLowerCase rnd (FinalProject.input st) st0 Hq0)
      as (reply & st1 & Hr & Hne & Hst).
    exists reply, (FinalProject.lastQuestion st1).
    split.
    { unfold tryFinally, tryCatch, bind, FinalProject.await, ret. cbn [String.eqb negb].
      rewrite Hr. unfold FinalProject.setMessages, FinalProject.setIsTyping.
      destruct Hst as [-> | ->]; subst st0; unfold FP_answered, FP_clearQuestion;
        cbn [FinalProject.messages FinalProject.input FinalProject.lastQuestion
               FinalProject.isTyping FinalProject.emergencyCalls];
        now rewrite <- app_assoc. }
    split; [exact Hne|]. split.
    { destruct Hst as [-> | ->]; [now left | now right]. }
    exists st0, st1. split; [reflexivity | exact Hr].
  - destruct (FP_fallback_returns toLowerCase rnd' (FinalProject.input st) st0 Hq0)
      as (reply & st1 & Hr & Hne & Hst).
    exists reply, (FinalProject.lastQuestion st1).
    split.
    { unfold tryFinally, tryCatch, bind, FinalProject.await, throw.
      rewrite Hr. unfold FinalProject.setMessages, FinalProject.setIsTyping.
      destruct Hst as [-> | ->]; subst st0; unfold FP_answered, FP_clearQuestion;
        cbn [FinalProject.messages FinalProject.input FinalProject.lastQuestion
               FinalProject.isTyping FinalProject.emergencyCalls];
        now rewrite <- app_assoc. }
    split; [exact Hne|]. split.
    { destruct Hst as [-> | ->]; [now left | now right]. }
    exists st0, st1. split; [reflexivity | exact Hr].
Qed.

Lemma fallback_answer_is_shown_witness :
  exists (reply : string) (q : QuestionType),
    FinalProject.handleSend ascii_toLowerCase (fun s => s) FinalProject.Rejected
      {| rnum := 0; rgap := 1 |} {| rnum := 1; rgap := 1 |}
      {| FinalProject.messages := []; FinalProject.input := "not yet";
         FinalProject.lastQuestion := dinner; FinalProject.isTyping := false;
         FinalProject.emergencyCalls := 0 |}
    = Normal tt
        (FP_answered
           {| FinalProject.messages := []; FinalProject.input := "not yet";
              FinalProject.lastQuestion := dinner; FinalProject.isTyping := false;
              FinalProject.emergencyCalls := 0 |} (Some reply) q) /\
    reply <> "".
Proof.
  destruct (fallback_answer_is_shown ascii_toLowerCase (fun s => s) FinalProject.Rejected
              {| rnum := 0; rgap := 1 |} {| rnum := 1; rgap := 1 |}
              {| FinalProject.messages := []; FinalProject.input := "not yet";
                 FinalProject.lastQuestion := dinner; FinalProject.isTyping := false;
                 FinalProject.emergencyCalls := 0 |})
    as (reply & q & Hs & Hne & _).
  - discriminate.
  - apply includesSome_false. vm_compute. reflexivity.
  - now right.
  - unfold specContext. simpl. tauto.
  - exists reply, q. split; [exact Hs | exact Hne].
Defined.




(* ===================================================================== *)
(** * The other handlers of the server: proofs *)
(* ===================================================================== *)

(** ** Keys *)

Lemma list_ascii_of_string_app (a b : string) :
  String.list_ascii_of_string (a +:+ b)
  = String.list_ascii_of_string a ++ String.list_ascii_of_string b.
Proof.
  induction a as [|x a IH]; [reflexivity|].
  change (String x a +:+ b) with (String x (a +:+ b)). simpl. now rewrite IH.
Qed.

Lemma list_ascii_of_string_inj (a b : string) :
  String.list_ascii_of_string a = String.list_ascii_of_string b -> a = b.
Proof.
  intros H. rewrite <- (String.string_of_list_ascii_of_string a), H.
  apply String.string_of_list_ascii_of_string.
Qed.

Lemma string_app_inv_tail (a b c : string) : (a +:+ c = b +:+ c)%string -> a = b.
Proof.
  intros H. apply list_ascii_of_string_inj.
  apply (app_inv_tail (String.list_ascii_of_string c)).
  now rewrite <- !list_ascii_of_string_app, H.
Qed.

Lemma string_app_inv_head (a b c : string) : (a +:+ b = a +:+ c)%string -> b = c.
Proof.
  intros H. apply list_ascii_of_string_inj.
  apply (app_inv_head (String.list_ascii_of_string a)).
  now rewrite <- !list_ascii_of_string_app, H.
Qed.

(** Two users never share a key of the same kind. *)
Lemma getUserKey_inj (u u' type : string) :
  getUserKey u type = getUserKey u' type -> u = u'.
Proof.
  unfold getUserKey. intros H.
  apply string_app_inv_head in H.
  apply (string_app_inv_tail u u' (":" +:+ type)). exact H.
Qed.


(** ** Accounts *)

(** X10: a signup with a user id, a name and a password that are not
    empty, for a user id without profile and a name nobody has, creates the
    profile with these values; a login with that password and the name in
    any spelling with the same lower-case form then returns this profile,
    and so does the request for the profile of the user id. *)
Theorem login_after_signup (toLowerCase : string -> string) (now : Time)
    (kv : Accounts.Store) (userId gender name password name' : string) :
  userId <> "" -> name <> "" -> password <> "" ->
  Accounts.usernames kv !! Accounts.getUsernameKey toLowerCase name = None ->
  Accounts.profiles kv !! getUserKey userId "profile" = None ->
  name' <> "" -> toLowerCase name' = toLowerCase name ->
  let profile :=
    {| Accounts.userId := userId;
       Accounts.gender := if String.eqb gender "" then "not-specified" else gender;
       Accounts.name := name;
       Accounts.password := password;
       Accounts.createdAt := now |} in
  let kv' := fst (Accounts.signup toLowerCase now kv userId gender name password) in
  snd (Accounts.signup toLowerCase now kv userId gender name password) = Ok profile /\
  Accounts.login toLowerCase kv' name' password = Ok profile /\
  Accounts.getProfile kv' userId = Ok profile.
Proof.
  intros Hu Hn Hp Hfree Hnew Hn' Hlow profile kv'.
  apply String.eqb_neq in Hu, Hn, Hp, Hn'.
  assert (Hs : Accounts.signup toLowerCase now kv userId gender name password =
               ({| Accounts.usernames :=
                     <[Accounts.getUsernameKey toLowerCase name := userId]>
                       (Accounts.usernames kv);
                   Accounts.profiles :=
                     <[getUserKey userId "profile" := profile]> (Accounts.profiles kv) |},
                Ok profile)).
  { unfold Accounts.signup. rewrite Hu, Hfree, Hnew, Hn. cbn [negb andb]. reflexivity. }
  subst kv'. rewrite Hs. cbn [fst snd].
  split; [reflexivity|]. split.
  - unfold Accounts.login. rewrite Hn', Hp. cbn [orb].
    cbn [Accounts.usernames Accounts.profiles].
    unfold Accounts.getUsernameKey. rewrite Hlow.
    rewrite lookup_insert_eq, Hu, lookup_insert_eq.
    cbn [Accounts.password profile]. now rewrite String.eqb_refl.
  - unfold Accounts.getProfile. cbn [Accounts.profiles]. now rewrite lookup_insert_eq.
Qed.

Lemma login_after_signup_witness :
  Accounts.login ascii_toLowerCase
    (fst (Accounts.signup ascii_toLowerCase 0 Accounts.noAccounts "u1" "" "Ada" "pw"))
    "ADA" "pw"
  = Ok {| Accounts.userId := "u1"; Accounts.gender := "not-specified";
          Accounts.name := "Ada"; Accounts.password := "pw"; Accounts.createdAt := 0 |}.
Proof.
  apply (login_after_signup ascii_toLowerCase 0 Accounts.noAccounts "u1" "" "Ada" "pw" "ADA");
    try discriminate; reflexivity.
Defined.

(** X11: a signup never replaces what is there: every profile of the
    store is the same afterwards (so signing up again cannot change a
    password), and every username keeps its user id. *)
Theorem signup_never_overwrites (toLowerCase : string -> string) (now : Time)
    (kv : Accounts.Store) (userId gender name password : string) :
  let kv' := fst (Accounts.signup toLowerCase now kv userId gender name password) in
  (forall (k : string) (p : Accounts.Profile),
      Accounts.profiles kv !! k = Some p -> Accounts.profiles kv' !! k = Some p) /\
  (forall (k u : string),
      Accounts.usernames kv !! k = Some u -> u <> "" ->
      Accounts.usernames kv' !! k = Some u).
Proof.
  cbv zeta. unfold Accounts.signup.
  destruct (String.eqb userId ""); [cbn; tauto|].
  destruct (negb (String.eqb name "")) eqn:Hn; cbn [andb].
  - destruct (Accounts.usernames kv !! Accounts.getUsernameKey toLowerCase name)
      as [existing|] eqn:Hex.
    + destruct (negb (String.eqb existing "") && negb (String.eqb existing userId)) eqn:Ht;
        [cbn; tauto|].
      destruct (Accounts.profiles kv !! getUserKey userId "profile") eqn:Hp; [cbn; tauto|].
      cbn [fst Accounts.profiles Accounts.usernames]. split.
      * intros k p Hk. rewrite lookup_insert_ne; [exact Hk | congruence].
      * intros k u Hk Hne.
        destruct (decide (Accounts.getUsernameKey toLowerCase name = k)) as [<-|Hd];
          [|now rewrite lookup_insert_ne].
        rewrite lookup_insert_eq. rewrite Hex in Hk. injection Hk as ->.
        apply String.eqb_neq in Hne. rewrite Hne in Ht. cbn [negb andb] in Ht.
        apply negb_false_iff, String.eqb_eq in Ht. now subst.
    + destruct (Accounts.profiles kv !! getUserKey userId "profile") eqn:Hp; [cbn; tauto|].
      cbn [fst Accounts.profiles Accounts.usernames]. split.
      * intros k p Hk. rewrite lookup_insert_ne; [exact Hk | congruence].
      * intros k u Hk Hne. rewrite lookup_insert_ne; [exact Hk | congruence].
  - destruct (Accounts.profiles kv !! getUserKey userId "profile") eqn:Hp; [cbn; tauto|].
    cbn [fst Accounts.profiles Accounts.usernames]. split; [|tauto].
    intros k p Hk. rewrite lookup_insert_ne; [exact Hk | congruence].
Qed.

Lemma signup_never_overwrites_witness :
  let kv1 := fst (Accounts.signup ascii_toLowerCase 0 Accounts.noAccounts "u1" "" "Ada" "pw") in
  let kv2 := fst (Accounts.signup ascii_toLowerCase 5 kv1 "u1" "female" "Eve" "other") in
  Accounts.login ascii_toLowerCase kv2 "ada" "pw"
  = Ok {| Accounts.userId := "u1"; Accounts.gender := "not-specified";
          Accounts.name := "Ada"; Accounts.password := "pw"; Accounts.createdAt := 0 |}.
Proof.
  intros kv1 kv2.
  pose proof (proj1 (signup_never_overwrites ascii_toLowerCase 5 kv1 "u1" "female" "Eve" "other")
                (getUserKey "u1" "profile")
                {| Accounts.userId := "u1"; Accounts.gender := "not-specified";
                   Accounts.name := "Ada"; Accounts.password := "pw";
                   Accounts.createdAt := 0 |}) as Hp.
  pose proof (proj2 (signup_never_overwrites ascii_toLowerCase 5 kv1 "u1" "female" "Eve" "other")
                (Accounts.getUsernameKey ascii_toLowerCase "Ada") "u1") as Hu.
  fold kv2 in Hp, Hu.
  unfold Accounts.login. cbn [String.eqb orb Ascii.eqb Bool.eqb].
  change (Accounts.getUsernameKey ascii_toLowerCase "ada")
    with (Accounts.getUsernameKey ascii_toLowerCase "Ada").
  rewrite Hu; [|vm_compute; reflexivity|discriminate].
  cbn [String.eqb Ascii.eqb Bool.eqb].
  rewrite Hp; [reflexivity | vm_compute; reflexivity].
Defined.

(** X12: the store without accounts has the property that every username
    leads to a user id with a profile, every signup keeps it, and a store
    with it never makes a login answer "Profile not found". *)
Theorem registered_usernames_have_profiles (toLowerCase : string -> string) :
  Accounts.Registered Accounts.noAccounts /\
  (forall (now : Time) (kv : Accounts.Store) (userId gender name password : string),
      Accounts.Registered kv ->
      Accounts.Registered
        (fst (Accounts.signup toLowerCase now kv userId gender name password))) /\
  (forall (kv : Accounts.Store) (name password : string),
      Accounts.Registered kv ->
      Accounts.login toLowerCase kv name password <> Error 404 "Profile not found").
Proof.
  split; [|split].
  - intros k u H. cbn in H. now rewrite lookup_empty in H.
  - intros now kv userId gender name password Hreg.
    unfold Accounts.signup.
    destruct (String.eqb userId "") eqn:Hu; [exact Hreg|].
    match goal with |- context [if ?b then (kv, Error 409 _) else _] => destruct b end;
      [exact Hreg|].
    destruct (Accounts.profiles kv !! getUserKey userId "profile") eqn:Hp; [exact Hreg|].
    cbn [fst]. intros k u Hk. cbn [Accounts.usernames Accounts.profiles] in Hk |- *.
    assert (Hold : Accounts.usernames kv !! k = Some u ->
                   u <> "" /\
                   is_Some (<[getUserKey userId "profile" :=
                                {| Accounts.userId := userId;
                                   Accounts.gender :=
                                     if String.eqb gender "" then "not-specified" else gender;
                                   Accounts.name := if String.eqb name "" then "User" else name;
                                   Accounts.password := password;
                                   Accounts.createdAt := now |}]>
                              (Accounts.profiles kv) !! getUserKey u "profile")).
    { intros Hk'. destruct (Hreg k u Hk') as [Hne Hsome]. split; [exact Hne|].
      rewrite lookup_insert. destruct (decide _); [eauto | exact Hsome]. }
    destruct (negb (String.eqb name "")); [|now apply Hold].
    rewrite lookup_insert in Hk. destruct (decide _) as [_|_]; [|now apply Hold].
    injection Hk as <-. split; [now apply String.eqb_neq|].
    rewrite lookup_insert_eq. eauto.
  - intros kv name password Hreg. unfold Accounts.login.
    destruct (String.eqb name "" || String.eqb password ""); [discriminate|].
    destruct (Accounts.usernames kv !! Accounts.getUsernameKey toLowerCase name)
      as [u|] eqn:Hu; [|discriminate].
    destruct (String.eqb u ""); [discriminate|].
    destruct (Hreg _ _ Hu) as [_ [p Hp]]. rewrite Hp.
    destruct (negb (String.eqb (Accounts.password p) password)); discriminate.
Qed.

Lemma registered_usernames_have_profiles_witness :
  Accounts.Registered
    (fst (Accounts.signup ascii_toLowerCase 0 Accounts.noAccounts "u1" "" "Ada" "pw")).
Proof.
  apply (proj1 (proj2 (registered_usernames_have_profiles ascii_toLowerCase))).
  apply (proj1 (registered_usernames_have_profiles ascii_toLowerCase)).
Defined.

(** X13: the signup accepts an empty password, but nobody can log in to
    the account it creates: a login with the name of that account fails
    for every password. *)
Theorem no_login_without_password (toLowerCase : string -> string) (now : Time)
    (kv : Accounts.Store) (userId gender name name' attempt : string) :
  userId <> "" -> name <> "" ->
  Accounts.usernames kv !! Accounts.getUsernameKey toLowerCase name = None ->
  Accounts.profiles kv !! getUserKey userId "profile" = None ->
  toLowerCase name' = toLowerCase name ->
  let kv' := fst (Accounts.signup toLowerCase now kv userId gender name "") in
  (exists p : Accounts.Profile,
      snd (Accounts.signup toLowerCase now kv userId gender name "") = Ok p /\
      Accounts.getProfile kv' userId = Ok p) /\
  Accounts.login toLowerCase kv' name' attempt
  = (if String.eqb name' "" || String.eqb attempt ""
     then Error 400 "Name and password are required"
     else Error 401 "Invalid password").
Proof.
  intros Hu Hn Hfree Hnew Hlow kv'.
  apply String.eqb_neq in Hu, Hn.
  assert (Hs : Accounts.signup toLowerCase now kv userId gender name "" =
               ({| Accounts.usernames :=
                     <[Accounts.getUsernameKey toLowerCase name := userId]>
                       (Accounts.usernames kv);
                   Accounts.profiles :=
                     <[getUserKey userId "profile" :=
                         {| Accounts.userId := userId;
                            Accounts.gender :=
                              if String.eqb gender "" then "not-specified" else gender;
                            Accounts.name := name;
                            Accounts.password := "";
                            Accounts.createdAt := now |}]> (Accounts.profiles kv) |},
                Ok {| Accounts.userId := userId;
                      Accounts.gender :=
                        if String.eqb gender "" then "not-specified" else gender;
                      Accounts.name := name;
                      Accounts.password := "";
                      Accounts.createdAt := now |})).
  { unfold Accounts.signup. rewrite Hu, Hfree, Hnew, Hn. cbn [negb andb]. reflexivity. }
  subst kv'. rewrite Hs. cbn [fst snd]. split.
  - eexists. split; [reflexivity|].
    unfold Accounts.getProfile. cbn [Accounts.profiles]. now rewrite lookup_insert_eq.
  - unfold Accounts.login.
    destruct (String.eqb name' "" || String.eqb attempt "") eqn:Hb; [reflexivity|].
    apply orb_false_iff in Hb. destruct Hb as [_ Ha].
    cbn [Accounts.usernames Accounts.profiles].
    unfold Accounts.getUsernameKey. rewrite Hlow.
    rewrite lookup_insert_eq, Hu, lookup_insert_eq.
    cbn [Accounts.password]. rewrite String.eqb_sym, Ha. reflexivity.
Qed.

Lemma no_login_without_password_witness :
  Accounts.login ascii_toLowerCase
    (fst (Accounts.signup ascii_toLowerCase 0 Accounts.noAccounts "u1" "" "Ada" ""))
    "Ada" "guess"
  = Error 401 "Invalid password".
Proof.
  apply (no_login_without_password ascii_toLowerCase 0 Accounts.noAccounts "u1" "" "Ada"
           "Ada" "guess"); try discriminate; reflexivity.
Defined.

(** ** Check-ins and streaks *)

Lemma toISODate_same_day (t1 t2 : Time) : Day t1 = Day t2 -> toISODate t1 = toISODate t2.
Proof. unfold toISODate. now intros ->. Qed.

Lemma checkinDate_same_day (t1 t2 : Time) : Day t1 = Day t2 -> checkinDate t1 = checkinDate t2.
Proof. rewrite !checkinDate_midnight. now intros ->. Qed.

Lemma updateStreak_twice_store (kv : gmap string Streak) (userId : string) (date : Time) :
  fst (updateStreak (fst (updateStreak kv userId date)) userId date)
  = fst (updateStreak kv userId date).
Proof.
  unfold updateStreak. cbn [fst]. rewrite lookup_insert_eq.
  change (default noStreak (Some ?x)) with x.
  now rewrite updateStreak_state_twice, insert_insert_eq.
Qed.

(** X14: a second check-in of a user on the same day replaces the record
    of the first under the same key and leaves every streak as the first
    check-in left it. *)
Theorem second_checkin_same_day (now1 now1' now2 now2' : Time) (kv : Daily.Store)
    (userId mood1 emoji1 mood2 emoji2 : string)
    (answers1 answers2 : option (gmap string string)) :
  userId <> "" -> mood1 <> "" -> mood2 <> "" ->
  Day now1 = Day now2 ->
  let first := Daily.checkin now1 now1' kv userId mood1 emoji1 answers1 in
  let second := Daily.checkin now2 now2' (fst first) userId mood2 emoji2 answers2 in
  Daily.streaks (fst second) = Daily.streaks (fst first) /\
  exists c2 : Daily.Checkin,
    snd second = Ok c2 /\
    Daily.mood c2 = mood2 /\ Daily.timestamp c2 = now2' /\
    Daily.checkins (fst second)
    = <[getUserKey userId ("checkin:" +:+ toISODate now1) := c2]> (Daily.checkins kv).
Proof.
  intros Hu Hm1 Hm2 Hday first second. subst second first.
  apply String.eqb_neq in Hu, Hm1, Hm2.
  unfold Daily.checkin. rewrite Hu, Hm1, Hm2. cbn [orb fst snd Daily.streaks Daily.checkins].
  rewrite <- (toISODate_same_day now1 now2 Hday), <- (checkinDate_same_day now1 now2 Hday).
  split; [apply updateStreak_twice_store|].
  eexists. split; [reflexivity|]. cbn [Daily.mood Daily.timestamp].
  split; [reflexivity|]. split; [reflexivity|].
  now rewrite insert_insert_eq.
Qed.

Lemma second_checkin_same_day_witness :
  let kv0 := {| Daily.checkins := ∅; Daily.streaks := ∅ |} in
  let first := Daily.checkin (Date_UTC 2024 5 1 + 100) 0 kv0 "u1" "Happy" "" None in
  let second := Daily.checkin (Date_UTC 2024 5 1 + 9000) 1 (fst first) "u1" "Sad" "" None in
  Daily.streaks (fst second) = Daily.streaks (fst first).
Proof.
  intros kv0 first second.
  apply (second_checkin_same_day (Date_UTC 2024 5 1 + 100) 0 (Date_UTC 2024 5 1 + 9000) 1
           kv0 "u1" "Happy" "" "Sad" "" None None); try discriminate.
  vm_compute. reflexivity.
Defined.

(** X15: the streak the server reports for a user is the one the last
    update for that user returned, an update for one user leaves what is
    reported for every other user as it was, and a user without streak
    object gets the streak of zeros. *)
Theorem streak_read_back (kv : gmap string Streak) (userId other : string) (date : Time) :
  Daily.getStreak (fst (updateStreak kv userId date)) userId
    = snd (updateStreak kv userId date) /\
  (other <> userId ->
   Daily.getStreak (fst (updateStreak kv userId date)) other = Daily.getStreak kv other) /\
  (kv !! getUserKey other "streak" = None -> Daily.getStreak kv other = noStreak).
Proof.
  unfold Daily.getStreak, updateStreak. cbn [fst snd]. split; [|split].
  - now rewrite lookup_insert_eq.
  - intros Hne. rewrite lookup_insert_ne; [reflexivity|].
    intros E. apply getUserKey_inj in E. congruence.
  - now intros ->.
Qed.

Lemma streak_read_back_witness :
  Daily.getStreak (fst (updateStreak ∅ "u1" (Date_UTC 2024 5 1))) "u1:x" = noStreak.
Proof.
  rewrite (proj1 (proj2 (streak_read_back ∅ "u1" "u1:x" (Date_UTC 2024 5 1))))
    by discriminate.
  apply (proj2 (proj2 (streak_read_back ∅ "u1" "u1:x" (Date_UTC 2024 5 1)))).
  reflexivity.
Defined.

Lemma updateStreak_state_step (s : Streak) (date : Time) :
  longest s <= longest (updateStreak_state s date) /\
  (0 <= current s -> current (updateStreak_state s date) <= current s + 1) /\
  (0 <= current s ->
   (lastDate s <> None -> 1 <= current s) ->
   1 <= current (updateStreak_state s date)).
Proof.
  rewrite longest_updateStreak_state, current_updateStreak_state.
  destruct (lastDate s) as [last|].
  - destruct (diffDays date last =? 1); [|destruct (1 <? diffDays date last)];
      repeat split; intros; try lia.
    assert (1 <= current s) by (apply H0; discriminate). lia.
  - repeat split; intros; lia.
Qed.

Lemma streak_history (dates : list Time) (s : Streak) :
  StreakInv s ->
  (lastDate s <> None -> 1 <= current s) ->
  let s' := foldl updateStreak_state s dates in
  StreakInv s' /\
  (lastDate s' <> None -> 1 <= current s') /\
  longest s <= longest s' /\
  current s' <= current s + Z.of_nat (length dates) /\
  longest s' <= Z.max (longest s) (current s + Z.of_nat (length dates)) /\
  lastDate s' = match last dates with Some d => Some d | None => lastDate s end.
Proof.
  revert s. induction dates as [|d dates IH]; intros s Hinv Hone.
  - cbn. repeat split; try tauto; try lia; apply Hinv.
  - cbn [foldl].
    destruct (updateStreak_state_step s d) as (Hl & Hc & H1).
    destruct Hinv as [H0 Hle].
    specialize (IH (updateStreak_state s d)
                  (StreakInv_updateStreak_state s d (conj H0 Hle))
                  (fun _ => H1 H0 Hone)).
    cbv zeta in IH. destruct IH as (Hi & Ho & Hlo & Hcu & Hlg & Hla).
    pose proof (longest_updateStreak_state s d) as Hmax.
    specialize (Hc H0).
    split; [exact Hi|]. split; [exact Ho|].
    split; [lia|]. split; [cbn [length]; lia|]. split; [cbn [length]; lia|].
    rewrite Hla, lastDate_updateStreak_state, last_cons.
    destruct (last dates); reflexivity.
Qed.

(** X16: after any history of check-ins of a new user that is not empty,
    the run is at least 1 and at most the longest run, the longest run is
    at most the number of check-ins, and the last date is the date of the
    last check-in (not the latest date); an update never lowers the
    longest run. *)
Theorem streak_history_bounds :
  (forall dates : list Time,
      dates <> [] ->
      let s := foldl updateStreak_state noStreak dates in
      1 <= current s <= longest s /\
      longest s <= Z.of_nat (length dates) /\
      lastDate s = last dates) /\
  (forall (s : Streak) (date : Time), longest s <= longest (updateStreak_state s date)).
Proof.
  split.
  - intros dates Hne s.
    assert (Hinv : StreakInv noStreak) by (unfold StreakInv, noStreak; simpl; lia).
    destruct (streak_history dates noStreak Hinv) as (Hi & Ho & _ & _ & Hlg & Hla).
    { intros H. now contradiction H. }
    fold s in Hi, Ho, Hlg, Hla.
    assert (Hlast : lastDate s = last dates).
    { rewrite Hla. destruct (last dates); reflexivity. }
    assert (Hsome : lastDate s <> None).
    { rewrite Hlast. intros E. apply last_None in E. congruence. }
    destruct Hi as [_ Hle]. cbn [current longest noStreak] in Hlg.
    specialize (Ho Hsome). repeat split; try assumption; lia.
  - intros s date. apply updateStreak_state_step.
Qed.

Lemma streak_history_bounds_witness :
  let s := foldl updateStreak_state noStreak
             [Date_UTC 2024 5 2; Date_UTC 2024 5 3; Date_UTC 2024 5 1] in
  longest s <= 3 /\ lastDate s = Some (Date_UTC 2024 5 1).
Proof.
  intros s.
  destruct (proj1 streak_history_bounds
              [Date_UTC 2024 5 2; Date_UTC 2024 5 3; Date_UTC 2024 5 1])
    as (_ & Hl & Hd); [discriminate|].
  split; [exact Hl | exact Hd].
Defined.

(** ** Periods *)


(* ===================================================================== *)
(** * The accounts of the shim: proofs *)
(* ===================================================================== *)

Lemma skip_app (a s : string) : skip (String.length a) (a +:+ s) = s.
Proof.
  induction a as [|c a IH]; [reflexivity|].
  change (String c a +:+ s) with (String c (a +:+ s)). exact IH.
Qed.

(** Taking a prefix away. *)
Lemma String_replace_prefix (pattern s : string) :
  String_replace pattern "" (pattern +:+ s) = s.
Proof.
  assert (Hp : String.prefix pattern (pattern +:+ s) = true)
    by (apply prefix_spec; now exists s).
  assert (Hunfold : forall t : string,
             String.prefix pattern t = true ->
             String_replace pattern "" t = skip (String.length pattern) t).
  { intros t Ht. destruct t; cbn [String_replace]; now rewrite Ht. }
  rewrite (Hunfold _ Hp). apply skip_app.
Qed.

Lemma find_none_app {A : Type} (f : A -> bool) (l : list A) (x : A) :
  (forall y, In y l -> f y = false) -> f x = true -> List.find f (l ++ [x]) = Some x.
Proof.
  intros Hl Hx. induction l as [|y l IH]; cbn [app List.find].
  - now rewrite Hx.
  - rewrite (Hl y) by now left. apply IH. intros z Hz. apply Hl. now right.
Qed.

Lemma find_none {A : Type} (f : A -> bool) (l : list A) :
  (forall y, In y l -> f y = false) -> List.find f l = None.
Proof.
  intros Hl. induction l as [|y l IH]; [reflexivity|]. cbn [List.find].
  rewrite (Hl y) by now left. apply IH. intros z Hz. apply Hl. now right.
Qed.

(** X18: a sign-up with an email nobody has succeeds; the sign-in with the
    same email and password then returns the same user id, email, name and
    token; and when no earlier user has the same id, the token verifies to
    the same user. *)
Theorem signUp_then_signIn (now created created' : Time) (email password name : string)
    (st : Shim.Storage) :
  (forall u, In u (Shim.users st) -> Shim.User.email u <> email) ->
  exists (session : Shim.Session.t) (st' : Shim.Storage),
    Shim.signUp now created created' email password name st = Normal session st' /\
    Shim.Session.userId session = "user_" +:+ Number_toString now /\
    Shim.Session.email session = email /\
    Shim.Session.name session = name /\
    Shim.Session.accessToken session
      = Some ("mock_token_" +:+ "user_" +:+ Number_toString now) /\
    Shim.signIn email password st' = Normal session st' /\
    ((forall u, In u (Shim.users st) ->
                Shim.User.id u <> "user_" +:+ Number_toString now) ->
     Shim.verifySession ("mock_token_" +:+ "user_" +:+ Number_toString now) st'
     = Normal
         {| Shim.Session.success := true;
            Shim.Session.userId := Shim.Session.userId session;
            Shim.Session.email := email;
            Shim.Session.name := name;
            Shim.Session.accessToken := None |}
         st').
Proof.
  intros Hemail.
  assert (Hfind : List.find (fun u => String.eqb (Shim.User.email u) email) (Shim.users st)
                  = None).
  { apply find_none. intros u Hu. apply String.eqb_neq. now apply Hemail. }
  unfold Shim.signUp. rewrite Hfind.
  eexists _, _. split; [reflexivity|].
  cbn [Shim.Session.userId Shim.Session.email Shim.Session.name Shim.Session.accessToken].
  do 4 (split; [reflexivity|]).
  assert (Hname : forall n : string, (if String.eqb n "" then n else n) = n)
    by (intros n; now destruct (String.eqb n "")).
  split.
  - unfold Shim.signIn. cbn [Shim.users Shim.profiles].
    rewrite find_none_app.
    + cbn [Shim.User.id Shim.User.email Shim.User.name]. rewrite lookup_insert_eq.
      unfold Shim.shownName. cbn [Shim.Profile.name Shim.User.name].
      destruct (String.eqb name ""); reflexivity.
    + intros u Hu. apply andb_false_iff. left. apply String.eqb_neq. now apply Hemail.
    + cbn [Shim.User.email Shim.User.password]. now rewrite !String.eqb_refl.
  - intros Hid. unfold Shim.verifySession.
    assert (Hp : String.prefix "mock_token_" ("mock_token_" +:+ "user_" +:+ Number_toString now)
                 = true) by (apply prefix_spec; eexists; reflexivity).
    rewrite Hp. cbn [negb orb String.eqb].
    change (String.eqb ("mock_token_" +:+ "user_" +:+ Number_toString now) "") with false.
    cbn [orb]. rewrite String_replace_prefix.
    cbn [Shim.users Shim.profiles]. rewrite find_none_app.
    + cbn [Shim.User.id Shim.User.email Shim.User.name]. rewrite lookup_insert_eq.
      unfold Shim.shownName. cbn [Shim.Profile.name Shim.User.name].
      destruct (String.eqb name ""); reflexivity.
    + intros u Hu. apply String.eqb_neq. now apply Hid.
    + cbn [Shim.User.id]. apply String.eqb_refl.
Qed.

Lemma signUp_then_signIn_witness :
  exists (session : Shim.Session.t) (st' : Shim.Storage),
    Shim.signUp 1700000000000 0 0 "a@b.c" "pw" "Ada"
      {| Shim.users := []; Shim.profiles := ∅ |} = Normal session st' /\
    Shim.signIn "a@b.c" "pw" st' = Normal session st'.
Proof.
  destruct (signUp_then_signIn 1700000000000 0 0 "a@b.c" "pw" "Ada"
              {| Shim.users := []; Shim.profiles := ∅ |})
    as (session & st' & Hs & _ & _ & _ & _ & Hi & _).
  - intros u [].
  - exists session, st'. split; [exact Hs | exact Hi].
Defined.

(** X19: a sign-up with an email that a user already has throws
    "User already exists" and leaves the storage as it was; no sign-up ever
    makes two users share an email. *)
Theorem emails_stay_unique (now created created' : Time) (email password name : string)
    (st : Shim.Storage) :
  (In email (map Shim.User.email (Shim.users st)) ->
   Shim.signUp now created created' email password name st
   = Throw "User already exists" st) /\
  (NoDup (map Shim.User.email (Shim.users st)) ->
   NoDup (map Shim.User.email
            (Shim.users (finalState
                           (Shim.signUp now created created' email password name st))))).
Proof.
  unfold Shim.signUp.
  destruct (List.find (fun u => String.eqb (Shim.User.email u) email) (Shim.users st))
    as [u|] eqn:Hf.
  - split; [reflexivity | tauto].
  - split.
    + intros Hin. apply in_map_iff in Hin. destruct Hin as (u & Hu & Hin).
      pose proof (List.find_none _ _ Hf u Hin) as Hn. cbn in Hn.
      apply String.eqb_neq in Hn. congruence.
    + intros Hnd. cbn [finalState Shim.users].
      rewrite map_app. cbn [map Shim.User.email].
      apply NoDup_app. split; [exact Hnd|]. split; [|apply NoDup_singleton].
      intros e He Hs. apply list_elem_of_singleton in Hs. subst e.
      apply list_elem_of_In, in_map_iff in He. destruct He as (u & Hu & Hin).
      pose proof (List.find_none _ _ Hf u Hin) as Hn. cbn in Hn.
      apply String.eqb_neq in Hn. congruence.
Qed.

Lemma emails_stay_unique_witness :
  Shim.signUp 5 0 0 "a@b.c" "other" "Eve"
    {| Shim.users := [{| Shim.User.id := "user_1"; Shim.User.email := "a@b.c";
                         Shim.User.password := "pw"; Shim.User.name := "Ada";
                         Shim.User.createdAt := 0 |}];
       Shim.profiles := ∅ |}
  = Throw "User already exists"
      {| Shim.users := [{| Shim.User.id := "user_1"; Shim.User.email := "a@b.c";
                           Shim.User.password := "pw"; Shim.User.name := "Ada";
                           Shim.User.createdAt := 0 |}];
         Shim.profiles := ∅ |}.
Proof.
  apply (proj1 (emails_stay_unique 5 0 0 "a@b.c" "other" "Eve"
                  {| Shim.users := [{| Shim.User.id := "user_1"; Shim.User.email := "a@b.c";
                                       Shim.User.password := "pw"; Shim.User.name := "Ada";
                                       Shim.User.createdAt := 0 |}];
                     Shim.profiles := ∅ |})).
  simpl. tauto.
Defined.

(** X20: the user id comes from the clock alone: two sign-ups with
    different emails in the same millisecond get the same user id and the
    same token, and that token verifies to the email of the first with the
    name of the second (a name that is not empty, as the form requires). *)
Theorem same_millisecond_sign_ups (now c1 c1' c2 c2' : Time)
    (email1 password1 name1 email2 password2 name2 : string) (st : Shim.Storage) :
  (forall u, In u (Shim.users st) ->
             Shim.User.email u <> email1 /\ Shim.User.email u <> email2) ->
  (forall u, In u (Shim.users st) ->
             Shim.User.id u <> "user_" +:+ Number_toString now) ->
  email1 <> email2 ->
  name2 <> "" ->
  exists (s1 s2 : Shim.Session.t) (st1 st2 : Shim.Storage),
    Shim.signUp now c1 c1' email1 password1 name1 st = Normal s1 st1 /\
    Shim.signUp now c2 c2' email2 password2 name2 st1 = Normal s2 st2 /\
    Shim.Session.userId s2 = Shim.Session.userId s1 /\
    Shim.Session.accessToken s2 = Shim.Session.accessToken s1 /\
    Shim.Session.email s2 = email2 /\
    Shim.verifySession ("mock_token_" +:+ "user_" +:+ Number_toString now) st2
    = Normal
        {| Shim.Session.success := true;
           Shim.Session.userId := "user_" +:+ Number_toString now;
           Shim.Session.email := email1;
           Shim.Session.name := name2;
           Shim.Session.accessToken := None |}
        st2.
Proof.
  intros Hemail Hid Hne Hn2.
  assert (Hf1 : List.find (fun u => String.eqb (Shim.User.email u) email1) (Shim.users st)
                = None).
  { apply find_none. intros u Hu. apply String.eqb_neq. now apply Hemail. }
  unfold Shim.signUp at 1. rewrite Hf1.
  eexists _, _, _, _. split; [reflexivity|].
  unfold Shim.signUp. cbn [Shim.users Shim.profiles].
  assert (Hf2 : List.find (fun u => String.eqb (Shim.User.email u) email2)
                  (Shim.users st ++
                   [{| Shim.User.id := "user_" +:+ Number_toString now;
                       Shim.User.email := email1; Shim.User.password := password1;
                       Shim.User.name := name1; Shim.User.createdAt := c1 |}])
                = None).
  { apply find_none. intros u Hu. apply in_app_or in Hu. apply String.eqb_neq.
    destruct Hu as [Hu | [<- | []]]; [now apply Hemail | exact Hne]. }
  rewrite Hf2. split; [reflexivity|].
  cbn [Shim.Session.userId Shim.Session.accessToken Shim.Session.email].
  do 3 (split; [reflexivity|]).
  unfold Shim.verifySession.
  assert (Hp : String.prefix "mock_token_" ("mock_token_" +:+ "user_" +:+ Number_toString now)
               = true) by (apply prefix_spec; eexists; reflexivity).
  rewrite Hp.
  change (String.eqb ("mock_token_" +:+ "user_" +:+ Number_toString now) "") with false.
  cbn [negb orb]. rewrite String_replace_prefix.
  cbn [Shim.users Shim.profiles].
  rewrite <- app_assoc. cbn [app].
  assert (Hfind : forall l : list Shim.User.t,
             (forall u, In u l -> Shim.User.id u <> "user_" +:+ Number_toString now) ->
             forall (x : Shim.User.t) (rest : list Shim.User.t),
               Shim.User.id x = "user_" +:+ Number_toString now ->
               List.find (fun u => String.eqb (Shim.User.id u)
                                     ("user_" +:+ Number_toString now))
                 (l ++ x :: rest) = Some x).
  { intros l Hl x rest Hx. induction l as [|y l IH]; cbn [app List.find].
    - now rewrite Hx, String.eqb_refl.
    - replace (String.eqb (Shim.User.id y) ("user_" +:+ Number_toString now)) with false
        by (symmetry; apply String.eqb_neq, Hl; now left).
      apply IH. intros u Hu. apply Hl. now right. }
  rewrite (Hfind _ Hid) by reflexivity.
  rewrite lookup_insert_eq.
  unfold Shim.shownName. cbn [Shim.Profile.name Shim.User.id Shim.User.email].
  apply String.eqb_neq in Hn2. now rewrite Hn2.
Qed.

Lemma same_millisecond_sign_ups_witness :
  exists (s1 s2 : Shim.Session.t) (st1 st2 : Shim.Storage),
    Shim.signUp 7 0 0 "a@b.c" "pw" "Ada" {| Shim.users := []; Shim.profiles := ∅ |}
      = Normal s1 st1 /\
    Shim.signUp 7 0 0 "x@y.z" "pw2" "Eve" st1 = Normal s2 st2 /\
    Shim.Session.accessToken s2 = Shim.Session.accessToken s1.
Proof.
  destruct (same_millisecond_sign_ups 7 0 0 0 0 "a@b.c" "pw" "Ada" "x@y.z" "pw2" "Eve"
              {| Shim.users := []; Shim.profiles := ∅ |})
    as (s1 & s2 & st1 & st2 & H1 & H2 & _ & Ht & _).
  - intros u [].
  - intros u [].
  - discriminate.
  - discriminate.
  - exists s1, s2, st1, st2. split; [exact H1|]. split; [exact H2 | exact Ht].
Defined.
(* ===================================================================== *)
(** * More on the cycle predictor *)
(* ===================================================================== *)

Lemma sorted_starts (l : list Period) :
  StronglySorted laterFirst l ->
  StronglySorted (fun a b : Z => b <= a) (map timeOf l).
Proof.
  induction 1 as [|x l Hs IH Hall]; cbn [map]; constructor; [exact IH|].
  rewrite Forall_forall in Hall. apply Forall_forall. intros t Ht.
  apply list_elem_of_In, in_map_iff in Ht. destruct Ht as (y & <- & Hy).
  apply (Hall y), list_elem_of_In, Hy.
Qed.

Lemma Forall_Permutation_valid (l l' : list Period) :
  Permutation l l' -> Forall validStart l -> Forall validStart l'.
Proof.
  intros Hp. rewrite !Forall_forall. intros H x Hx. apply H.
  apply list_elem_of_In. apply list_elem_of_In in Hx.
  apply (Permutation_in _ (Permutation_sym Hp)), Hx.
Qed.

(** The start times in the order of the answer depend on the periods
    only, not on the order they come in. *)
Lemma sorted_starts_unique (l l' : list Period) :
  Forall validStart l ->
  Permutation l l' ->
  map timeOf (Array_sort byStartDateDesc l)
  = map timeOf (Array_sort byStartDateDesc l').
Proof.
  intros Hv Hp.
  apply (StronglySorted_unique_strong (fun a b : Z => b <= a)).
  - intros x1 x2 _ _ H1 H2. lia.
  - apply sorted_starts, Array_sort_sorted, Hv.
  - apply sorted_starts, Array_sort_sorted, (Forall_Permutation_valid l l' Hp Hv).
  - apply Permutation_map.
    rewrite (Array_sort_Permutation byStartDateDesc l),
      (Array_sort_Permutation byStartDateDesc l'). exact Hp.
Qed.

Lemma NoDup_map_inj {A B : Type} (f : A -> B) (l : list A) (x y : A) :
  NoDup (map f l) -> In x l -> In y l -> f x = f y -> x = y.
Proof.
  induction l as [|a l IH]; cbn [map]; intros Hnd Hx Hy E; [destruct Hx|].
  apply NoDup_cons in Hnd. destruct Hnd as [Hna Hnd].
  destruct Hx as [<- | Hx], Hy as [<- | Hy].
  - reflexivity.
  - exfalso. apply Hna. rewrite E. apply list_elem_of_In, in_map, Hy.
  - exfalso. apply Hna. rewrite <- E. apply list_elem_of_In, in_map, Hx.
  - now apply IH.
Qed.

(** X21: for start dates that are valid dates, and in every zone, the
    prediction does not depend on the order in which the store hands over
    the periods; when no two periods start on the same date (as for the
    periods the server keeps for a user) the whole answer, with the sorted
    periods, does not depend on it either. *)
Theorem prediction_ignores_storage_order (LocalTZA : Z -> bool -> Z) (now : Time)
    (periods periods' : list Period) :
  Forall validStart periods ->
  Permutation periods periods' ->
  prediction (predictNextCycle LocalTZA now periods)
    = prediction (predictNextCycle LocalTZA now periods') /\
  (NoDup (map startDate periods) ->
   predictNextCycle LocalTZA now periods = predictNextCycle LocalTZA now periods').
Proof.
  intros Hv Hp.
  pose proof (Forall_Permutation_valid _ _ Hp Hv) as Hv'.
  destruct periods as [|p0 ps].
  { apply Permutation_nil in Hp. subst. split; reflexivity. }
  assert (Hne : p0 :: ps <> []) by discriminate.
  assert (Hne' : periods' <> []).
  { intros ->. symmetry in Hp. apply Permutation_nil in Hp. discriminate. }
  destruct (predictNextCycle_sorted LocalTZA now _ Hne Hv) as (a & r & Es & ->).
  destruct (predictNextCycle_sorted LocalTZA now _ Hne' Hv') as (a' & r' & Es' & ->).
  pose proof (sorted_starts_unique _ _ Hv Hp) as Hu. rewrite Es, Es' in Hu.
  assert (Ha : timeOf a = timeOf a') by (cbn [map] in Hu; congruence).
  split.
  - rewrite Hu, Ha. now destruct (TimeClip _).
  - intros Hnd.
    assert (Hs : a :: r = a' :: r').
    { rewrite <- Es, <- Es'.
      apply (StronglySorted_unique_strong laterFirst).
      - intros x1 x2 H1 H2 R1 R2. unfold laterFirst in R1, R2.
        apply list_elem_of_In in H1, H2.
        apply (Permutation_in _ (Array_sort_Permutation byStartDateDesc (p0 :: ps))) in H1.
        apply (Permutation_in _ (Array_sort_Permutation byStartDateDesc periods')) in H2.
        apply (Permutation_in _ (Permutation_sym Hp)) in H2.
        apply (NoDup_map_inj startDate (p0 :: ps)); [exact Hnd | exact H1 | exact H2 |].
        rewrite Forall_forall in Hv.
        apply validStart_startDate; [apply Hv, list_elem_of_In, H1
                                    | apply Hv, list_elem_of_In, H2 | lia].
      - apply Array_sort_sorted, Hv.
      - apply Array_sort_sorted, Hv'.
      - rewrite (Array_sort_Permutation byStartDateDesc (p0 :: ps)),
          (Array_sort_Permutation byStartDateDesc periods'). exact Hp. }
    injection Hs as -> ->. reflexivity.
Qed.

Lemma prediction_ignores_storage_order_witness :
  predictNextCycle utc 0 [periodOn 2024 1 29; periodOn 2024 2 26; periodOn 2024 1 1]
  = predictNextCycle utc 0 threePeriods.
Proof.
  apply (prediction_ignores_storage_order utc 0
           [periodOn 2024 1 29; periodOn 2024 2 26; periodOn 2024 1 1] threePeriods).
  - repeat constructor; now eexists.
  - unfold threePeriods.
    apply (perm_trans (l' := [periodOn 2024 1 29; periodOn 2024 1 1; periodOn 2024 2 26])).
    + apply perm_skip, perm_swap.
    + apply perm_swap.
  - apply (bool_decide_unpack _). vm_compute. exact I.
Defined.

(** Where a start date is no valid date the comparator takes the period
    for equal to every other and the sort leaves it where it is: the
    answer then depends on the order of the store. *)
Remark storage_order_with_an_invalid_date :
  prediction (predictNextCycle utc 0 [periodOn 2024 1 1; periodWithoutDate]) <> None /\
  predictNextCycle utc 0 [periodWithoutDate; periodOn 2024 1 1]
  = Error500 "Failed to get period data".
Proof. split; vm_compute; [discriminate | reflexivity]. Qed.

(** X22: whatever the periods and the zone, the average cycle length of a
    prediction is at least 1 and at most 59 days. *)
Theorem average_cycle_length_range (LocalTZA : Z -> bool -> Z) (now : Time)
    (periods : list Period) (p : Prediction) :
  prediction (predictNextCycle LocalTZA now periods) = Some p ->
  1 <= averageCycleLength p <= 59.
Proof.
  unfold predictNextCycle. destruct periods as [|p0 ps]; [discriminate|].
  cbn [length Nat.eqb].
  pose proof (cycleTotals_bounds (Array_sort byStartDateDesc (p0 :: ps))) as Hb.
  destruct (cycleTotals _) as [total count]. cbn [fst snd] in Hb.
  destruct (_ !! 0%nat) as [lastPeriod|]; [|discriminate].
  destruct (Date_toISODate _) as [isoDate|]; [|discriminate].
  destruct (getTime _) as [nextTime|]; [|discriminate].
  cbn [prediction]. intros H. injection H as <-. cbn [averageCycleLength].
  destruct (0 <? count) eqn:E; [|lia].
  apply Z.ltb_lt in E. apply rounded_mean_range; [exact E | tauto].
Qed.

Lemma average_cycle_length_range_witness :
  exists p : Prediction,
    prediction (predictNextCycle utc 0 periodsWithGap) = Some p /\
    1 <= averageCycleLength p <= 59.
Proof.
  eexists. split; [vm_compute; reflexivity|].
  apply (average_cycle_length_range utc 0 periodsWithGap). vm_compute. reflexivity.
Defined.
